(** * seekdb-go: filter compilation and hybrid-search request building

    A shallow embedding of [client_query.go] (package [goseekdb]): the
    search-descriptor compiler ([buildMetadataFilterConditions],
    [buildDocumentQuery]), the hybrid-search request builder
    ([buildSearchParm], [buildQueryExpression], [buildKNNExpression],
    [collectionHybridSearch]) and the statement builder of [collectionGet],
    together with the properties the specification states about them. *)

From Stdlib Require Import String Ascii List ZArith NArith Bool Arith Lia.
Import ListNotations.
Local Open Scope string_scope.
Local Open Scope list_scope.

(* ================================================================= *)
(** ** Dynamic values *)

(** Go's [interface{}] as the code inspects it.  The type assertions of the
    source tell apart [string], [[]interface{}], [map[string]interface{}]
    and [Filter]; every other dynamic type is carried along unchanged. *)
Module Dyn.

Definition float32 := N.  (* the IEEE-754 bit pattern; only ever copied *)

Unset Elimination Schemes.
Inductive value : Type :=
| VNil                                        (* untyped nil *)
| VBool (b : bool)
| VInt (n : Z)                                (* int *)
| VFloat32 (f : float32)
| VStr (s : string)
| VStrs (l : list string)                     (* []string *)
| VList (l : list value)                      (* []interface{} *)
| VMap (m : list (string * value))            (* map[string]interface{} *)
| VFilter (m : list (string * value))         (* Filter *)
| VMaps (l : list (list (string * value))).   (* []map[string]interface{} *)
Set Elimination Schemes.

(** A Go map, listed in the order in which one particular [range] loop
    visits it.  Go leaves that order unspecified, so a statement about
    every association list with distinct keys is a statement about every
    iteration order. *)
Definition gomap := list (string * value).

Definition keys (m : gomap) : list string := map fst m.

(** [m[k]] with the comma-ok idiom. *)
Fixpoint lookup (k : string) (m : gomap) : option value :=
  match m with
  | [] => None
  | (k', v) :: rest => if String.eqb k k' then Some v else lookup k rest
  end.

(** [m[k] = v]. *)
Fixpoint set (k : string) (v : value) (m : gomap) : gomap :=
  match m with
  | [] => [(k, v)]
  | (k', v') :: rest =>
      if String.eqb k k' then (k', v) :: rest else (k', v') :: set k v rest
  end.

Definition has_key (k : string) (m : gomap) : bool :=
  match lookup k m with Some _ => true | None => false end.

(** Nesting depth of maps and slices, the measure the recursive compiler
    descends along. *)
Fixpoint depth (v : value) : nat :=
  match v with
  | VList l => S (list_max (map depth l))
  | VMap m | VFilter m => S (list_max (map (fun kv => depth (snd kv)) m))
  | VMaps l =>
      S (list_max (map (fun m => S (list_max (map (fun kv => depth (snd kv)) m))) l))
  | _ => 0
  end.

Definition map_depth (m : gomap) : nat := depth (VMap m).

End Dyn.
Import Dyn.

(** [Filter] of types.go: [type Filter map[string]interface{}].  A field of
    type [Filter] may hold the nil map, which [len] cannot tell from an empty
    one but [!= nil] can. *)
Definition Filter := option gomap.

Definition len_filter (f : Filter) : nat :=
  match f with None => 0 | Some m => length m end.

Definition entries (f : Filter) : gomap :=
  match f with None => [] | Some m => m end.

(* ================================================================= *)
(** ** Errors *)

(** The two sentinels are declared in a source file that is missing; only
    their identity matters here. *)
Inductive error : Type :=
| ErrEmbeddingFunctionRequired
| ErrInvalidParameter
| InvalidFilter (what : string)              (* named by the specification, section 7 *)
| ErrorString (msg : string)                 (* errors.New, fmt.Errorf without %w *)
| Wrapped (msg : string) (inner : error).    (* fmt.Errorf("msg: %w", inner) *)

Definition error_eqb_head (a b : error) : bool :=
  match a, b with
  | ErrEmbeddingFunctionRequired, ErrEmbeddingFunctionRequired => true
  | ErrInvalidParameter, ErrInvalidParameter => true
  | _, _ => false
  end.

(** [errors.Is err target] for a sentinel [target]: walk the [%w] chain. *)
Fixpoint errors_Is (err target : error) : bool :=
  match err with
  | Wrapped _ inner => errors_Is inner target
  | _ => error_eqb_head err target
  end.

Inductive result (A : Type) : Type :=
| Ok (a : A)
| Err (e : error).
Arguments Ok {A} a.
Arguments Err {A} e.

Definition bind {A B : Type} (r : result A) (k : A -> result B) : result B :=
  match r with
  | Ok a => k a
  | Err e => Err e
  end.

Notation "x <- r ;; k" := (bind r (fun x => k))
  (at level 61, r at next level, right associativity).

(* ================================================================= *)
(** ** The search-descriptor compiler (client_query.go) *)

Module Descriptor.

(** [fmt.Sprintf("(JSON_EXTRACT(metadata, '$.%s'))", key)] *)
Definition fieldName (key : string) : string :=
  "(JSON_EXTRACT(metadata, '$." ++ key ++ "'))".

(** [{"term": {fieldName: v}}] *)
Definition termNode (field : string) (v : value) : gomap :=
  [("term", VMap [(field, v)])].

(** [{"bool": {kind: conds}}] with [conds] a [[]map[string]interface{}] *)
Definition boolNode (kind : string) (conds : list gomap) : gomap :=
  [("bool", VMap [(kind, VMaps conds)])].

(** [{"range": {fieldName: rangeConditions}}] *)
Definition rangeNode (field : string) (bounds : gomap) : gomap :=
  [("range", VMap [(field, VMap bounds)])].

(** The three locals the operator loop of one field updates. *)
Record opState : Type := mkOpState {
  os_result : list gomap;   (* result *)
  os_range  : gomap;        (* rangeConditions *)
  os_term   : value         (* termValue *)
}.

(** The [for _, val := range inValues] loops of [$in] and [$nin]. *)
Definition termsOf (field : string) (vals : list value) : list gomap :=
  map (termNode field) vals.

(** One iteration of [for op, opValue := range valueMap]: the [switch op]. *)
Definition opStep (field : string) (st : opState) (kv : string * value) : opState :=
  let '(op, opValue) := kv in
  if op =? "$eq" then
    mkOpState (os_result st) (os_range st) opValue
  else if op =? "$ne" then
    mkOpState (os_result st ++ [boolNode "must_not" [termNode field opValue]])
              (os_range st) (os_term st)
  else if op =? "$lt" then
    mkOpState (os_result st) (set "lt" opValue (os_range st)) (os_term st)
  else if op =? "$lte" then
    mkOpState (os_result st) (set "lte" opValue (os_range st)) (os_term st)
  else if op =? "$gt" then
    mkOpState (os_result st) (set "gt" opValue (os_range st)) (os_term st)
  else if op =? "$gte" then
    mkOpState (os_result st) (set "gte" opValue (os_range st)) (os_term st)
  else if op =? "$in" then
    match opValue with
    | VList inValues =>
        match termsOf field inValues with
        | [] => st
        | inConditions =>
            mkOpState (os_result st ++ [boolNode "should" inConditions])
                      (os_range st) (os_term st)
        end
    | _ => st
    end
  else if op =? "$nin" then
    match opValue with
    | VList ninValues =>
        match termsOf field ninValues with
        | [] => st
        | ninConditions =>
            mkOpState (os_result st ++ [boolNode "must_not" ninConditions])
                      (os_range st) (os_term st)
        end
    | _ => st
    end
  else st.

(** The body of the [if isValueMap] branch for one field. *)
Definition operatorConditions (field : string) (result : list gomap)
    (valueMap : gomap) : list gomap :=
  let st := fold_left (opStep field) valueMap (mkOpState result [] VNil) in
  match os_range st with
  | _ :: _ => os_result st ++ [rangeNode field (os_range st)]
  | [] =>
      match os_term st with
      | VNil => os_result st
      | termValue => os_result st ++ [termNode field termValue]
      end
  end.

(** One iteration of [for key, value := range condition]. *)
Definition fieldStep (result : list gomap) (kv : string * value) : list gomap :=
  let '(key, value) := kv in
  if (key =? "$and") || (key =? "$or") || (key =? "$not") then result
  else
    let field := fieldName key in
    match value with
    | VMap valueMap | VFilter valueMap => operatorConditions field result valueMap
    | _ => result ++ [termNode field value]
    end.

(** The field loop as a whole, started on the empty [result]. *)
Definition fieldConditions (condition : gomap) : list gomap :=
  fold_left fieldStep condition [].

(** [if len(conds) > 0 { result = append(result, {"bool": {kind: conds}}) }] *)
Definition wrapBool (kind : string) (conds : list gomap) : list gomap :=
  match conds with
  | [] => []
  | _ => [boolNode kind conds]
  end.

Section Body.
(** The recursive call, on a sub-condition that passed the assertion
    [subCond.(map[string]interface{})]. *)
Variable recur : gomap -> list gomap.

(** The body of [for _, subCond := range conditions]. *)
Definition subConditions (subCond : value) : list gomap :=
  match subCond with
  | VMap subCondMap => recur subCondMap
  | _ => []
  end.

(** The function body: the empty filter, [$and], [$or], [$not], each
    returning early, then the field loop. *)
Definition body (condition : gomap) : list gomap :=
  match condition with
  | [] => []
  | _ =>
    match lookup "$and" condition with
    | Some andConditions =>
        match andConditions with
        | VList conditions => wrapBool "must" (flat_map subConditions conditions)
        | _ => []
        end
    | None =>
    match lookup "$or" condition with
    | Some orConditions =>
        match orConditions with
        | VList conditions => wrapBool "should" (flat_map subConditions conditions)
        | _ => []
        end
    | None =>
    match lookup "$not" condition with
    | Some notCondition =>
        match notCondition with
        | VMap notCondMap => wrapBool "must_not" (recur notCondMap)
        | _ => []
        end
    | None => fieldConditions condition
    end end end
  end.
End Body.

(** The recursion of the source descends into the filter it was given; the
    embedding counts the levels still available. *)
Fixpoint buildMetadataFilterConditions_fuel (fuel : nat) (condition : gomap)
  : list gomap :=
  match fuel with
  | O => []
  | S fuel' => body (buildMetadataFilterConditions_fuel fuel') condition
  end.

(** [buildMetadataFilterConditions]: the nesting depth of the filter is
    always enough (see [buildMetadataFilterConditions_eq]). *)
Definition buildMetadataFilterConditions (condition : gomap) : list gomap :=
  buildMetadataFilterConditions_fuel (map_depth condition) condition.

(** [buildMetadataFilterForSearchParm] *)
Definition buildMetadataFilterForSearchParm (where_ : Filter) : list gomap :=
  match len_filter where_ with
  | O => []
  | _ => buildMetadataFilterConditions (entries where_)
  end.

End Descriptor.
Import Descriptor.

(* ================================================================= *)
(** ** The hybrid-search request builder (client_query.go) *)

(** types.go *)
Module HybridSearchQuery.
Record t : Type := mk {
  WhereDocument : Filter;
  Where : Filter;
  NResults : Z
}.
End HybridSearchQuery.

Module HybridSearchKNN.
Record t : Type := mk {
  QueryTexts : list string;
  QueryEmbeddings : list (list float32);  (* nil and empty both have len 0 *)
  Where : Filter;
  NResults : Z
}.
End HybridSearchKNN.

Record RRFConfig : Type := mkRRF { K : Z }.

Record HybridSearchRank : Type := mkRank { RRF : option RRFConfig }.

Record HybridSearchResult : Type := mkHybridSearchResult {
  IDs : list string;
  Distances : list N;              (* float64 bit patterns *)
  Documents : list string;
  Metadatas : list gomap;
  Embeddings : list (list float32)
}.

(** types.go: [TableNamePrefix + collectionName] *)
Definition GetTableName (collectionName : string) : string :=
  "c$v1$" ++ collectionName.

(** [embedding.EmbeddingFunc]: the [Embed] method; a nil interface is [None]. *)
Definition EmbeddingFunc := list string -> result (list (list float32)).

Module Hybrid.

(** [{"query_string": {"fields": []string{"document"}, "query": q}}] *)
Definition queryString (query : value) : gomap :=
  [("query_string", VMap [("fields", VStrs ["document"]); ("query", query)])].

(** The loop collecting the string-valued [$contains] of the listed maps. *)
Definition containsQueries (conditions : list value) : list string :=
  flat_map (fun cond =>
    match cond with
    | VMap condMap =>
        match lookup "$contains" condMap with
        | Some (VStr containsStr) => [containsStr]
        | _ => []
        end
    | _ => []
    end) conditions.

(** The [$and] and [$or] blocks of [buildDocumentQuery]; [None] when the
    block falls through. *)
Definition joinedContains (key sep : string) (whereDocument : gomap) : option gomap :=
  match lookup key whereDocument with
  | Some (VList conditions) =>
      match containsQueries conditions with
      | [] => None
      | qs => Some (queryString (VStr (String.concat sep qs)))
      end
  | _ => None
  end.

(** [buildDocumentQuery]; a nil map result is [None]. *)
Definition buildDocumentQuery (whereDocument : Filter) : option gomap :=
  match entries whereDocument with
  | [] => None
  | m =>
      match lookup "$contains" m with
      | Some contains => Some (queryString contains)
      | None =>
          match joinedContains "$and" " " m with
          | Some q => Some q
          | None => joinedContains "$or" " OR " m
          end
      end
  end.

(** [{"bool": {"filter": filterConditions}}] *)
Definition boolFilter (filterConditions : list gomap) : gomap :=
  [("bool", VMap [("filter", VMaps filterConditions)])].

(** [buildQueryExpression] *)
Definition buildQueryExpression (query : HybridSearchQuery.t) : option gomap :=
  let whereDocument := HybridSearchQuery.WhereDocument query in
  let where_ := HybridSearchQuery.Where query in
  let fullText :=
    if (0 <? len_filter whereDocument)%nat then
      match buildDocumentQuery whereDocument with
      | Some docQuery =>
          match buildMetadataFilterForSearchParm where_ with
          | [] => Some docQuery
          | filterConditions =>
              Some [("bool", VMap [("must", VList [VMap docQuery]);
                                   ("filter", VMaps filterConditions)])]
          end
      | None => None
      end
    else None in
  if (len_filter whereDocument =? 0)%nat && (0 <? len_filter where_)%nat then
    match buildMetadataFilterForSearchParm where_ with
    | [] => fullText
    | [filterCond] =>
        if has_key "range" filterCond then Some filterCond
        else if has_key "term" filterCond then Some filterCond
        else Some (boolFilter [filterCond])
    | filterConditions => Some (boolFilter filterConditions)
    end
  else fullText.

(** The vector-resolution prefix of [buildKNNExpression]. *)
Definition resolveQueryVector (knn : HybridSearchKNN.t)
    (embFunc : option EmbeddingFunc) : result (list float32) :=
  match HybridSearchKNN.QueryEmbeddings knn with
  | first :: _ => Ok first
  | [] =>
      match HybridSearchKNN.QueryTexts knn with
      | _ :: _ =>
          match embFunc with
          | None =>
              Err (Wrapped "knn.query_texts provided but no embedding function"
                           ErrEmbeddingFunctionRequired)
          | Some Embed =>
              match Embed (HybridSearchKNN.QueryTexts knn) with
              | Err err =>
                  Err (Wrapped "failed to generate embeddings from query_texts" err)
              | Ok embeddings => Ok (hd [] embeddings)
              end
          end
      | [] => Err (ErrorString "knn requires either query_embeddings or query_texts")
      end
  end.

(** [buildKNNExpression]; [Ok None] is the [nil, nil] return. *)
Definition buildKNNExpression (knn : HybridSearchKNN.t)
    (embFunc : option EmbeddingFunc) : result (option gomap) :=
  queryVector <- resolveQueryVector knn embFunc ;;
  match queryVector with
  | [] => Ok None
  | _ =>
      let k := if (HybridSearchKNN.NResults knn <=? 0)%Z then 10%Z
               else HybridSearchKNN.NResults knn in
      let knnExpr := [("field", VStr "embedding");
                      ("k", VInt k);
                      ("query_vector", VList (map VFloat32 queryVector))] in
      match buildMetadataFilterForSearchParm (HybridSearchKNN.Where knn) with
      | [] => Ok (Some knnExpr)
      | filterConditions => Ok (Some (set "filter" (VMaps filterConditions) knnExpr))
      end
  end.

(** The rank block of [buildSearchParm]. *)
Definition rankExpression (rank : HybridSearchRank) : gomap :=
  match RRF rank with
  | Some rrf =>
      let rrfExpr := if (0 <? K rrf)%Z then [("rank_constant", VInt (K rrf))] else [] in
      set "rrf" (VMap rrfExpr) []
  | None => []
  end.

(** [buildSearchParm] *)
Definition buildSearchParm (query : option HybridSearchQuery.t)
    (knn : option HybridSearchKNN.t) (rank : option HybridSearchRank)
    (nResults : Z) (embFunc : option EmbeddingFunc) : result gomap :=
  let searchParm := [] in
  let searchParm :=
    match query with
    | Some q =>
        match buildQueryExpression q with
        | Some queryExpr => set "query" (VMap queryExpr) searchParm
        | None => searchParm
        end
    | None => searchParm
    end in
  searchParm <-
    match knn with
    | Some kn =>
        knnExpr <- buildKNNExpression kn embFunc ;;
        match knnExpr with
        | Some e => Ok (set "knn" (VMap e) searchParm)
        | None => Ok searchParm
        end
    | None => Ok searchParm
    end ;;
  let searchParm :=
    if (0 <? nResults)%Z then set "size" (VInt nResults) searchParm else searchParm in
  let searchParm :=
    match rank with
    | Some r =>
        match rankExpression r with
        | [] => searchParm
        | rankExpr => set "rank" (VMap rankExpr) searchParm
        end
    | None => searchParm
    end in
  Ok searchParm.

(** [strings.ReplaceAll(s, "'", "''")] *)
Fixpoint escapeQuotes (s : string) : string :=
  match s with
  | EmptyString => EmptyString
  | String c rest =>
      if Ascii.eqb c "'"%char then String c (String c (escapeQuotes rest))
      else String c (escapeQuotes rest)
  end.

(** What [collectionHybridSearch] sends over its connection, in order. *)
Inductive request : Type :=
| ReqBegin
| ReqExecute (sql : string)
| ReqQueryRow (sql : string)
| ReqQuery (sql : string)
| ReqCommit
| ReqRollback.

Definition emptyResult : HybridSearchResult := mkHybridSearchResult [] [] [] [] [].

Section Transport.
(** The collaborators of [collectionHybridSearch]: [encoding/json], the
    two [strings] trimmers, the connection (each call answers from what
    was sent before it) and the row transformer. *)
Variable json_Marshal : gomap -> result string.
Variable trimGeneratedSQL : string -> string.
  (* strings.Trim of strings.TrimSpace of s, cutting both quote characters *)
Variable Rows : Type.
Variable conn_Begin : list request -> result unit.
Variable tx_Execute : list request -> string -> result unit.
Variable tx_QueryRow : list request -> string -> result (option string).
  (* the scanned sql.NullString; NULL is None *)
Variable tx_Query : list request -> string -> result Rows.
Variable tx_Commit : list request -> result unit.
Variable transformHybridSearchResults : Rows -> result HybridSearchResult.

(** The part of [collectionHybridSearch] that runs inside the transaction;
    [sent] is what went out so far. *)
Definition inTransaction (tableName escapedParams : string) (sent : list request)
  : list request * result HybridSearchResult :=
  let setSQL := ("SET @search_parm = '" ++ escapedParams ++ "'")%string in
  let sent1 := sent ++ [ReqExecute setSQL] in
  match tx_Execute sent setSQL with
  | Err err => (sent1, Err (Wrapped "failed to set search_parm" err))
  | Ok _ =>
      let getSQLQuery :=
        ("SELECT DBMS_HYBRID_SEARCH.GET_SQL('" ++ tableName
          ++ "', @search_parm) as query_sql FROM dual")%string in
      let sent2 := sent1 ++ [ReqQueryRow getSQLQuery] in
      match tx_QueryRow sent1 getSQLQuery with
      | Err err =>
          (sent2, Err (Wrapped "failed to get SQL from DBMS_HYBRID_SEARCH.GET_SQL" err))
      | Ok None => (sent2, Ok emptyResult)
      | Ok (Some "") => (sent2, Ok emptyResult)
      | Ok (Some querySQL) =>
          let finalSQL := trimGeneratedSQL querySQL in
          let sent3 := sent2 ++ [ReqQuery finalSQL] in
          match tx_Query sent2 finalSQL with
          | Err err => (sent3, Err (Wrapped "failed to execute hybrid search query" err))
          | Ok rows =>
              match transformHybridSearchResults rows with
              | Err err => (sent3, Err err)
              | Ok res =>
                  let sent4 := sent3 ++ [ReqCommit] in
                  match tx_Commit sent3 with
                  | Err err => (sent4, Err (Wrapped "failed to commit transaction" err))
                  | Ok _ => (sent4, Ok res)
                  end
              end
          end
      end
  end.

(** [collectionHybridSearch]: the requests sent and the value returned.
    The deferred [tx.Rollback()] closes every path that began a
    transaction. *)
Definition collectionHybridSearch (collectionName : string)
    (query : option HybridSearchQuery.t) (knn : option HybridSearchKNN.t)
    (rank : option HybridSearchRank) (nResults : Z)
    (embFunc : option EmbeddingFunc)
  : list request * result HybridSearchResult :=
  let tableName := GetTableName collectionName in
  match buildSearchParm query knn rank nResults embFunc with
  | Err err => ([], Err (Wrapped "failed to build search_parm" err))
  | Ok searchParm =>
      match json_Marshal searchParm with
      | Err err => ([], Err (Wrapped "failed to marshal search_parm" err))
      | Ok searchParmJSON =>
          let escapedParams := escapeQuotes searchParmJSON in
          match conn_Begin [] with
          | Err err => ([ReqBegin], Err (Wrapped "failed to begin transaction" err))
          | Ok _ =>
              let '(sent, res) := inTransaction tableName escapedParams [ReqBegin] in
              (sent ++ [ReqRollback], res)
          end
      end
  end.
End Transport.

End Hybrid.
Import Hybrid.

(* ================================================================= *)
(** ** The statement of [collectionGet] (client_query.go, options.go) *)

Module GetOptions.
Record t : Type := mk {
  Where : Filter;
  WhereDocument : Filter;
  Limit : Z;
  Offset : Z;
  Include : list string
}.
(** [&GetOptions{}] *)
Definition zero : t := mk None None 0 0 [].
End GetOptions.

(** options.go: a [GetOption] is a function updating the [GetOptions] it is given. *)
Definition GetOption := GetOptions.t -> GetOptions.t.

Definition WithGetWhere (filter : Filter) : GetOption :=
  fun o => GetOptions.mk filter (GetOptions.WhereDocument o) (GetOptions.Limit o)
                         (GetOptions.Offset o) (GetOptions.Include o).

Definition WithGetWhereDocument (filter : Filter) : GetOption :=
  fun o => GetOptions.mk (GetOptions.Where o) filter (GetOptions.Limit o)
                         (GetOptions.Offset o) (GetOptions.Include o).

Definition WithLimit (limit : Z) : GetOption :=
  fun o => GetOptions.mk (GetOptions.Where o) (GetOptions.WhereDocument o) limit
                         (GetOptions.Offset o) (GetOptions.Include o).

Definition WithOffset (offset : Z) : GetOption :=
  fun o => GetOptions.mk (GetOptions.Where o) (GetOptions.WhereDocument o)
                         (GetOptions.Limit o) offset (GetOptions.Include o).

(** The interface behind [c.filterBuilder]: a clause, its bound arguments,
    or an error. *)
Record FilterBuilder : Type := mkFilterBuilder {
  BuildMetadataFilter : Filter -> result (string * list value);
  BuildDocumentFilter : Filter -> result (string * list value)
}.

Module Get.

Definition nl : string := String (ascii_of_nat 10) "".
Definition tab : string := String (ascii_of_nat 9) "".

(** What [collectionGet] hands to [c.conn.Query]. *)
Record statement : Type := mkStatement {
  conditions : list string;
  whereClause : string;
  querySQL : string;
  queryArgs : list value
}.

(** The [if len(ids) > 0] block: one placeholder and one argument per id. *)
Definition idFilter (ids : list string) : list string * list value :=
  match ids with
  | [] => ([], [])
  | _ =>
      let placeholders := map (fun _ : string => "?") ids in
      ([("_id IN (" ++ String.concat ", " placeholders ++ ")")%string], map VStr ids)
  end.

(** The [if opts.Where != nil] and [if opts.WhereDocument != nil] blocks. *)
Definition addFilter (build : Filter -> result (string * list value))
    (filter : Filter) (acc : list string * list value)
  : result (list string * list value) :=
  match filter with
  | None => Ok acc
  | Some _ =>
      built <- build filter ;;
      let '(clause, filterArgs) := built in
      if clause =? "" then Ok acc
      else Ok (fst acc ++ [clause], snd acc ++ filterArgs)
  end.

(** [limit := opts.Limit; if limit == 0 { limit = 1000 }] *)
Definition effectiveLimit (opts : GetOptions.t) : Z :=
  if (GetOptions.Limit opts =? 0)%Z then 1000%Z else GetOptions.Limit opts.

(** [collectionGet] up to its call of [c.conn.Query]. *)
Definition collectionGet (filterBuilder : FilterBuilder) (collectionName : string)
    (ids : list string) (opts : GetOptions.t) : result statement :=
  let tableName := GetTableName collectionName in
  acc <- addFilter (BuildMetadataFilter filterBuilder) (GetOptions.Where opts)
                   (idFilter ids) ;;
  acc <- addFilter (BuildDocumentFilter filterBuilder) (GetOptions.WhereDocument opts)
                   acc ;;
  let '(conds, args) := acc in
  let whereCl :=
    match conds with
    | [] => ""
    | _ => "WHERE " ++ String.concat " AND " conds
    end%string in
  let sql :=
    (nl ++ tab ++ tab ++ "SELECT _id, document, metadata, embedding"
     ++ nl ++ tab ++ tab ++ "FROM " ++ tableName
     ++ nl ++ tab ++ tab ++ whereCl
     ++ nl ++ tab ++ tab ++ "LIMIT ? OFFSET ?"
     ++ nl ++ tab)%string in
  Ok (mkStatement conds whereCl sql
        (args ++ [VInt (effectiveLimit opts); VInt (GetOptions.Offset opts)])).

(** [Collection.Get]: the functional options applied in order to
    [&GetOptions{}]. *)
Definition Get (filterBuilder : FilterBuilder) (name : string) (ids : list string)
    (opts : list GetOption) : result statement :=
  collectionGet filterBuilder name ids
    (fold_left (fun options opt => opt options) opts GetOptions.zero).

End Get.

(* ================================================================= *)
(** ** The SQL predicate compiler *)

(** The source file of [c.filterBuilder] is missing: only its call sites in
    [collectionQuery] and [collectionGet] are there.  The module below
    follows sections 3, 4.1 and 4.2 of the specification. *)
Module SQL.

(** Modelled from the spec: the operator enumeration of a [FieldCondition]
    (section 3); the declaring file is missing. *)
Inductive Operator : Type := EQ | NE | GT | GTE | LT | LTE | IN | NIN.

(** Modelled from the spec: the [value: Scalar|List] of a [FieldCondition]
    (section 3); the declaring file is missing. *)
Inductive Operand : Type :=
| Scalar (v : value)
| ListOf (vs : list value).

Unset Elimination Schemes.
(** Modelled from the spec: the [FilterNode] tagged union of section 3; the
    declaring file is missing. *)
Inductive FilterNode : Type :=
| FieldCondition (field : string) (operator : Operator) (operand : Operand)
| LogicalAnd (children : list FilterNode)
| LogicalOr (children : list FilterNode)
| LogicalNot (child : FilterNode).

(** Modelled from the spec: the [DocumentFilterNode] of section 3; the
    declaring file is missing. *)
Inductive DocumentFilterNode : Type :=
| Contains (text : string)
| Regex (pattern : string)
| DocAnd (children : list DocumentFilterNode)
| DocOr (children : list DocumentFilterNode)
| DocNot (child : DocumentFilterNode).
Set Elimination Schemes.

(** Modelled from the spec: the [CompiledPredicate] of section 3, a clause
    and its ordered bound values; the declaring file is missing. *)
Record CompiledPredicate : Type := mkPredicate {
  clause : string;
  args : list value
}.

Definition noPredicate : CompiledPredicate := mkPredicate "" [].

(** All results, or the first error from the left. *)
Fixpoint sequence {A : Type} (rs : list (result A)) : result (list A) :=
  match rs with
  | [] => Ok []
  | r :: rest => a <- r ;; as_ <- sequence rest ;; Ok (a :: as_)
  end.

(** Modelled from the spec: the JSON-extraction expression over the metadata
    column, spelled as in the scenario of section 8,
    [(JSON_EXTRACT(metadata,'$.category')) = ?]. *)
Definition jsonExtract (field : string) : string :=
  "(JSON_EXTRACT(metadata,'$." ++ field ++ "'))".

(** Modelled from the spec: the [<sql_op>] of section 4.2; the spec shows [=]
    and names the others only by their operator. *)
Definition sqlOperator (op : Operator) : string :=
  match op with
  | EQ => "=" | NE => "!=" | GT => ">" | GTE => ">=" | LT => "<" | LTE => "<="
  | IN => "IN" | NIN => "NOT IN"
  end.

Definition isListOperator (op : Operator) : bool :=
  match op with IN | NIN => true | _ => false end.

(** Modelled from the spec: the two leaf rules of section 4.2.  A scalar
    operator takes one placeholder; [IN]/[NIN] take one per element and
    reject the empty list; an operand of the wrong kind breaks the invariant
    of section 3 and is rejected. *)
Definition compileCondition (field : string) (op : Operator) (operand : Operand)
  : result CompiledPredicate :=
  match operand with
  | Scalar v =>
      if isListOperator op then Err (InvalidFilter field)
      else Ok (mkPredicate (jsonExtract field ++ " " ++ sqlOperator op ++ " ?") [v])
  | ListOf vs =>
      if isListOperator op then
        match vs with
        | [] => Err (InvalidFilter field)
        | _ =>
            Ok (mkPredicate
                  (jsonExtract field ++ " " ++ sqlOperator op ++ " ("
                     ++ String.concat ", " (map (fun _ : value => "?") vs) ++ ")")
                  vs)
        end
      else Err (InvalidFilter field)
  end.

(** Modelled from the spec: "parenthesized join of compiled children with
    AND/OR; empty child list compiles to no clause". *)
Definition joinChildren (sep : string) (compiled : list CompiledPredicate)
  : CompiledPredicate :=
  match compiled with
  | [] => noPredicate
  | _ =>
      mkPredicate ("(" ++ String.concat sep (map clause compiled) ++ ")")
                  (concat (map args compiled))
  end.

(** Modelled from the spec: "NOT (<compiled child>)". *)
Definition negate (p : CompiledPredicate) : CompiledPredicate :=
  mkPredicate ("NOT (" ++ clause p ++ ")") (args p).

(** Modelled from the spec: the SQL predicate compiler of section 4.2 over
    the metadata AST; its source file is missing. *)
Fixpoint compileNode (F : FilterNode) : result CompiledPredicate :=
  match F with
  | FieldCondition field op operand => compileCondition field op operand
  | LogicalAnd children =>
      cs <- sequence (map compileNode children) ;; Ok (joinChildren " AND " cs)
  | LogicalOr children =>
      cs <- sequence (map compileNode children) ;; Ok (joinChildren " OR " cs)
  | LogicalNot child =>
      c <- compileNode child ;; Ok (negate c)
  end.

(** Modelled from the spec: [compile(FilterNode?)], "returns an empty clause
    and empty args for nil". *)
Definition compile (F : option FilterNode) : result CompiledPredicate :=
  match F with
  | None => Ok noPredicate
  | Some node => compileNode node
  end.

(** Modelled from the spec: the parallel compiler for document filters of
    section 4.2, a [LIKE] substring test and a regex match on the text
    column, the pattern always bound; its source file is missing. *)
Fixpoint compileDocumentNode (D : DocumentFilterNode) : result CompiledPredicate :=
  match D with
  | Contains text => Ok (mkPredicate "document LIKE ?" [VStr ("%" ++ text ++ "%")])
  | Regex pattern => Ok (mkPredicate "document REGEXP ?" [VStr pattern])
  | DocAnd children =>
      cs <- sequence (map compileDocumentNode children) ;; Ok (joinChildren " AND " cs)
  | DocOr children =>
      cs <- sequence (map compileDocumentNode children) ;; Ok (joinChildren " OR " cs)
  | DocNot child =>
      c <- compileDocumentNode child ;; Ok (negate c)
  end.

(** Modelled from the spec: the document compiler on an optional node, nil
    giving the empty clause as for metadata filters. *)
Definition compileDocument (D : option DocumentFilterNode) : result CompiledPredicate :=
  match D with
  | None => Ok noPredicate
  | Some node => compileDocumentNode node
  end.


(** *** The clause as placeholders between text *)






(** Occurrences of the character [c] in [s]. *)
Fixpoint count_char (c : ascii) (s : string) : nat :=
  match s with
  | EmptyString => 0
  | String c' rest => (if Ascii.eqb c c' then 1 else 0) + count_char c rest
  end.

(** The [?] count of a clause. *)
Definition placeholders (s : string) : nat := count_char "?"%char s.


(** *** The rules of section 4.2 over any extraction expression *)

Section Expression.
(** Modelled from the spec: the [<json_extract_expr>] of a metadata field.
    Section 4.2 only says that fields "are addressed via a JSON-extraction
    expression against a fixed metadata column", and section 8 spells the
    expression for the one field [category]; the builder's source file is
    missing.  Here it is any function of the field name. *)
Variable expr : string -> string.





End Expression.

End SQL.

(** ** The filter parser *)

Module Parser.
Import SQL.

(** Modelled from the spec: the supported comparison operators of section
    4.1; the parser's source file is missing. *)
Definition parseOperator (op : string) : option Operator :=
  if op =? "$eq" then Some EQ
  else if op =? "$ne" then Some NE
  else if op =? "$gt" then Some GT
  else if op =? "$gte" then Some GTE
  else if op =? "$lt" then Some LT
  else if op =? "$lte" then Some LTE
  else if op =? "$in" then Some IN
  else if op =? "$nin" then Some NIN
  else None.

(** Modelled from the spec: one [FieldCondition] under the invariant of
    section 3 ([field] non-empty, a list exactly for [IN]/[NIN]); the
    parser's source file is missing. *)
Definition condition (field : string) (op : Operator) (v : value) : result FilterNode :=
  if field =? "" then Err (InvalidFilter field)
  else
    match v with
    | VList vs =>
        if isListOperator op then Ok (FieldCondition field op (ListOf vs))
        else Err (InvalidFilter field)
    | _ =>
        if isListOperator op then Err (InvalidFilter field)
        else Ok (FieldCondition field op (Scalar v))
    end.

(** Modelled from the spec: a field entry of section 4.1, one sibling
    condition per operator of a mapping, [$eq] for a bare scalar, an unknown
    operator a hard error. *)
Definition parseField (field : string) (v : value) : result (list FilterNode) :=
  match v with
  | VMap ops | VFilter ops =>
      sequence (map (fun kv : string * value =>
                  match parseOperator (fst kv) with
                  | Some op => condition field op (snd kv)
                  | None => Err (InvalidFilter (fst kv))
                  end) ops)
  | _ => c <- condition field EQ v ;; Ok [c]
  end.

(** Siblings under the implicit AND; none is "no predicate". *)
Definition conjunction (nodes : list FilterNode) : option FilterNode :=
  match nodes with
  | [] => None
  | [node] => Some node
  | _ => Some (LogicalAnd nodes)
  end.

Definition optional {A : Type} (o : option A) : list A :=
  match o with Some a => [a] | None => [] end.

Section Entry.
(** The parser itself, for the mappings nested below an entry. *)
Variable parseMapping : gomap -> result (option FilterNode).

(** Modelled from the spec: "the single child mapping" of [$not] and each
    element of an [$and]/[$or] list (section 4.1); anything but a mapping is
    malformed nesting. *)
Definition parseChild (v : value) : result (list FilterNode) :=
  match v with
  | VMap child | VFilter child => n <- parseMapping child ;; Ok (optional n)
  | _ => Err (InvalidFilter "malformed nesting")
  end.

(** Modelled from the spec: "recursively parse each child mapping in its
    value list" (section 4.1). *)
Definition parseChildren (v : value) : result (list FilterNode) :=
  match v with
  | VList children => ns <- sequence (map parseChild children) ;; Ok (concat ns)
  | _ => Err (InvalidFilter "malformed nesting")
  end.

(** Modelled from the spec: the dispatch on one top-level key of section
    4.1, a logical operator or else a field name. *)
Definition parseEntry (kv : string * value) : result (list FilterNode) :=
  let '(key, v) := kv in
  if key =? "$and" then ns <- parseChildren v ;; Ok [LogicalAnd ns]
  else if key =? "$or" then ns <- parseChildren v ;; Ok [LogicalOr ns]
  else if key =? "$not" then ns <- parseChild v ;; Ok (map LogicalNot ns)
  else parseField key v.
End Entry.

(** Modelled from the spec: the parser of section 4.1, each top-level key
    parsed in turn and the results joined under an implicit AND; its source
    file is missing.  [fuel] bounds the nesting still to be read. *)
Fixpoint parse_fuel (fuel : nat) (m : gomap) : result (option FilterNode) :=
  match fuel with
  | O => Err (InvalidFilter "malformed nesting")
  | S fuel' =>
      ns <- sequence (map (parseEntry (parse_fuel fuel')) m) ;;
      Ok (conjunction (concat ns))
  end.

(** Modelled from the spec: the parser on a [Filter], nil and empty both
    "no predicate"; its source file is missing. *)
Definition parse (filter : Filter) : result (option FilterNode) :=
  match filter with
  | None => Ok None
  | Some m => parse_fuel (map_depth m) m
  end.

Section DocEntry.
Variable parseMapping : gomap -> result (option DocumentFilterNode).

(** Modelled from the spec: a child mapping of a logical operator in a
    document filter, parsed as for metadata filters. *)
Definition parseDocChild (v : value) : result (list DocumentFilterNode) :=
  match v with
  | VMap child | VFilter child => n <- parseMapping child ;; Ok (optional n)
  | _ => Err (InvalidFilter "malformed nesting")
  end.

(** Modelled from the spec: the child list of [$and]/[$or] in a document
    filter. *)
Definition parseDocChildren (v : value) : result (list DocumentFilterNode) :=
  match v with
  | VList children => ns <- sequence (map parseDocChild children) ;; Ok (concat ns)
  | _ => Err (InvalidFilter "malformed nesting")
  end.

(** Modelled from the spec: one key of a document filter; "only [Contains]
    and [Regex] are leaf operators" (section 3). *)
Definition parseDocEntry (kv : string * value) : result (list DocumentFilterNode) :=
  let '(key, v) := kv in
  if key =? "$and" then ns <- parseDocChildren v ;; Ok [DocAnd ns]
  else if key =? "$or" then ns <- parseDocChildren v ;; Ok [DocOr ns]
  else if key =? "$not" then ns <- parseDocChild v ;; Ok (map DocNot ns)
  else
    match v with
    | VStr s =>
        if key =? "$contains" then Ok [Contains s]
        else if key =? "$regex" then Ok [Regex s]
        else Err (InvalidFilter key)
    | _ => Err (InvalidFilter key)
    end.
End DocEntry.

Definition docConjunction (nodes : list DocumentFilterNode) : option DocumentFilterNode :=
  match nodes with
  | [] => None
  | [node] => Some node
  | _ => Some (DocAnd nodes)
  end.

(** Modelled from the spec: the same parser over the narrower document
    AST, whose only leaves are [$contains] and [$regex]; its source file is
    missing. *)
Fixpoint parseDocument_fuel (fuel : nat) (m : gomap) : result (option DocumentFilterNode) :=
  match fuel with
  | O => Err (InvalidFilter "malformed nesting")
  | S fuel' =>
      ns <- sequence (map (parseDocEntry (parseDocument_fuel fuel')) m) ;;
      Ok (docConjunction (concat ns))
  end.

(** Modelled from the spec: the document parser on a [Filter], nil and
    empty both "no predicate". *)
Definition parseDocument (filter : Filter) : result (option DocumentFilterNode) :=
  match filter with
  | None => Ok None
  | Some m => parseDocument_fuel (map_depth m) m
  end.

Definition toPair (p : CompiledPredicate) : string * list value :=
  (clause p, args p).

(** Modelled from the spec: the builder behind [c.filterBuilder], parse
    (section 4.1) then compile (section 4.2); its source file is missing. *)
Definition specFilterBuilder : FilterBuilder :=
  mkFilterBuilder
    (fun filter => F <- parse filter ;; p <- compile F ;; Ok (toPair p))
    (fun filter => D <- parseDocument filter ;; p <- compileDocument D ;; Ok (toPair p)).

End Parser.

(* ================================================================= *)
(** ** Reading a compiled descriptor *)

Module Observe.

(** The reserved keys the field loop skips. *)
Definition isLogical (key : string) : bool :=
  (key =? "$and") || (key =? "$or") || (key =? "$not").

(** The bound a range operator sets in [rangeConditions]. *)
Definition rangeKey (op : string) : option string :=
  if op =? "$lt" then Some "lt"
  else if op =? "$lte" then Some "lte"
  else if op =? "$gt" then Some "gt"
  else if op =? "$gte" then Some "gte"
  else None.

Definition hasRangeOperator (valueMap : gomap) : bool :=
  existsb (fun kv => match rangeKey (fst kv) with Some _ => true | None => false end)
          valueMap.

(** What one operator appends to [result] on the spot. *)
Definition emitted (field : string) (kv : string * value) : list gomap :=
  let '(op, opValue) := kv in
  if op =? "$ne" then [boolNode "must_not" [termNode field opValue]]
  else if op =? "$in" then
    match opValue with
    | VList ((_ :: _) as inValues) => [boolNode "should" (termsOf field inValues)]
    | _ => []
    end
  else if op =? "$nin" then
    match opValue with
    | VList ((_ :: _) as ninValues) => [boolNode "must_not" (termsOf field ninValues)]
    | _ => []
    end
  else [].

(** What one operator does to [rangeConditions]. *)
Definition rangeStep (bounds : gomap) (kv : string * value) : gomap :=
  match rangeKey (fst kv) with
  | Some bound => set bound (snd kv) bounds
  | None => bounds
  end.

(** The [rangeConditions] one operator map leaves behind. *)
Definition boundsOf (valueMap : gomap) : gomap := fold_left rangeStep valueMap [].

(** What one operator does to [termValue]. *)
Definition termStep (termValue : value) (kv : string * value) : value :=
  if fst kv =? "$eq" then snd kv else termValue.

(** The clause appended after the operator loop: the folded range object,
    or else the [$eq] term. *)
Definition closing (field : string) (valueMap : gomap) : list gomap :=
  match boundsOf valueMap with
  | _ :: _ => [rangeNode field (boundsOf valueMap)]
  | [] =>
      match fold_left termStep valueMap VNil with
      | VNil => []
      | termValue => [termNode field termValue]
      end
  end.

(** All the clauses one entry of a filter contributes. *)
Definition entryClauses (kv : string * value) : list gomap :=
  let '(key, v) := kv in
  if isLogical key then []
  else
    match v with
    | VMap valueMap | VFilter valueMap =>
        flat_map (emitted (fieldName key)) valueMap ++ closing (fieldName key) valueMap
    | _ => [termNode (fieldName key) v]
    end.

(** The field one entry of a filter puts a [range] object on, if any. *)
Definition entryRangeFields (kv : string * value) : list string :=
  let '(key, v) := kv in
  if isLogical key then []
  else
    match v with
    | VMap valueMap | VFilter valueMap =>
        if hasRangeOperator valueMap then [fieldName key] else []
    | _ => []
    end.

(** The fields that carry a [range] object anywhere in a list of clauses:
    at the top, or below [bool] at any depth.  The walk follows the clause
    grammar and never looks into the value of a [term]. *)
Fixpoint rangeFields (clauses : value) : list string :=
  match clauses with
  | VMaps nodes =>
      (fix inNodes (ns : list (list (string * value))) : list string :=
         match ns with
         | [] => []
         | node :: rest =>
             (fix inNode (es : list (string * value)) : list string :=
                match es with
                | [] => []
                | (k, x) :: es' =>
                    (if k =? "range" then
                       match x with VMap r => map fst r | _ => [] end
                     else if k =? "bool" then
                       match x with
                       | VMap b =>
                           (fix inBool (bs : list (string * value)) : list string :=
                              match bs with
                              | [] => []
                              | (_, sub) :: bs' => rangeFields sub ++ inBool bs'
                              end) b
                       | _ => []
                       end
                     else [])
                    ++ inNode es'
                end) node
             ++ inNodes rest
         end) nodes
  | _ => []
  end.

(** The [range] objects anywhere in a list of clauses, each as its field
    and its bounds, in the order of the clauses: at the top, or below [bool]
    at any depth. *)
Fixpoint rangeObjects (clauses : value) : list (string * value) :=
  match clauses with
  | VMaps nodes =>
      (fix inNodes (ns : list (list (string * value))) : list (string * value) :=
         match ns with
         | [] => []
         | node :: rest =>
             (fix inNode (es : list (string * value)) : list (string * value) :=
                match es with
                | [] => []
                | (k, x) :: es' =>
                    (if k =? "range" then
                       match x with VMap r => r | _ => [] end
                     else if k =? "bool" then
                       match x with
                       | VMap b =>
                           (fix inBool (bs : list (string * value))
                              : list (string * value) :=
                              match bs with
                              | [] => []
                              | (_, sub) :: bs' => rangeObjects sub ++ inBool bs'
                              end) b
                       | _ => []
                       end
                     else [])
                    ++ inNode es'
                end) node
             ++ inNodes rest
         end) nodes
  | _ => []
  end.

(** The [range] object one entry of a filter asks for, if any: the field
    and the bounds of its operator map. *)
Definition entryRanges (kv : string * value) : list (string * value) :=
  let '(key, v) := kv in
  if isLogical key then []
  else
    match v with
    | VMap valueMap | VFilter valueMap =>
        if hasRangeOperator valueMap then [(fieldName key, VMap (boundsOf valueMap))]
        else []
    | _ => []
    end.

(** The elements of a [[]interface{}] that pass the assertion
    [subCond.(map[string]interface{})]. *)
Definition mapsOf (conditions : list value) : list gomap :=
  flat_map (fun subCond => match subCond with VMap m => [m] | _ => [] end) conditions.

(** The sub-filters the compiler descends into: those of [$and], else those
    of [$or], else the one of [$not]; [None] for a filter without a logical
    key, which goes to the field loop. *)
Definition subFilters (condition : gomap) : option (list gomap) :=
  match lookup "$and" condition with
  | Some andConditions =>
      Some (match andConditions with VList conditions => mapsOf conditions | _ => [] end)
  | None =>
  match lookup "$or" condition with
  | Some orConditions =>
      Some (match orConditions with VList conditions => mapsOf conditions | _ => [] end)
  | None =>
  match lookup "$not" condition with
  | Some notCondition =>
      Some (match notCondition with VMap notCondMap => [notCondMap] | _ => [] end)
  | None => None
  end end end.

(** How many [range] objects a compiled filter holds for [field]. *)
Definition rangeObjectsFor (field : string) (clauses : list gomap) : nat :=
  count_occ string_dec (rangeFields (VMaps clauses)) field.

(** The [bool.should] clauses at the top of a compiled filter. *)
Definition shouldClauses (clauses : list gomap) : list (list gomap) :=
  flat_map (fun node =>
    match node with
    | [("bool", VMap [(kind, VMaps conds)])] => if kind =? "should" then [conds] else []
    | _ => []
    end) clauses.

(** A [$contains] condition as the tests write it:
    [map[string]interface{}{"$contains": s}]. *)
Definition containsCondition (s : string) : value := VMap [("$contains", VStr s)].

End Observe.
Import Observe.

(** ** Filters named by the specification and the tests *)

Module Scenario.

(** [{"$or":[{"score":{"$gte":90}},{"tag":"ml"}]}] *)
Definition scoreOrTag : gomap :=
  [("$or", VList [VMap [("score", VMap [("$gte", VInt 90)])];
                  VMap [("tag", VStr "ml")]])].

(** [{"bool":{"should":[{"range":{"score":{"gte":90}}},{"term":{"tag":"ml"}}]}}],
    the field names as given. *)
Definition scoreOrTagAsGiven : gomap :=
  boolNode "should" [rangeNode "score" [("gte", VInt 90)]; termNode "tag" (VStr "ml")].

(** The same document over the fields as [fieldName] spells them. *)
Definition scoreOrTagExtracted : gomap :=
  boolNode "should"
    [rangeNode "(JSON_EXTRACT(metadata, '$.score'))" [("gte", VInt 90)];
     termNode "(JSON_EXTRACT(metadata, '$.tag'))" (VStr "ml")].

(** The [where] of "hybrid search with metadata filter on query" in
    collection_hybrid_search_test.go, without its category condition:
    [{"$and":[{"page":{"$gte":1}},{"page":{"$lte":5}}]}]. *)
Definition pageBetween : gomap :=
  [("$and", VList [VMap [("page", VMap [("$gte", VInt 1)])];
                   VMap [("page", VMap [("$lte", VInt 5)])]])].

(** [{"page":{"$gte":1,"$lte":5}}] *)
Definition pageRange : gomap :=
  [("page", VMap [("$gte", VInt 1); ("$lte", VInt 5)])].

(** A hybrid query whose only document condition is a [$regex]. *)
Definition regexQuery : HybridSearchQuery.t :=
  HybridSearchQuery.mk (Some [("$regex", VStr ".*machine.*")]) None 5.

(** [knn.queryTexts = ["x"]] and nothing else. *)
Definition textOnlyKNN : HybridSearchKNN.t :=
  HybridSearchKNN.mk ["x"] [] None 0.

(** One operator map with both bounds inside an [$and]:
    [{"$and": [{"page": {"$gte": 1, "$lte": 5}}]}]. *)
Definition pageBetweenInside : gomap :=
  [("$and", VList [VMap [("page", VMap [("$gte", VInt 1); ("$lte", VInt 5)])]])].

End Scenario.

(* ================================================================= *)
(** ** The shape of a compiled metadata filter *)

Module Shape.

(** The clauses the descriptor compiler is meant to hand to the search
    procedure: a term, a range with at least one bound, or a [bool] of one
    kind over at least one clause of the same grammar. *)
#[warnings="-register-all"]
Inductive wfClause : gomap -> Prop :=
| wf_term (field : string) (v : value) :
    wfClause (termNode field v)
| wf_range (field : string) (bounds : gomap) :
    bounds <> [] -> wfClause (rangeNode field bounds)
| wf_bool (kind : string) (conds : list gomap) :
    In kind ["must"; "should"; "must_not"] ->
    conds <> [] ->
    Forall wfClause conds ->
    wfClause (boolNode kind conds).

(** The cases of the [switch op] in the operator loop. *)
Definition knownOperators : list string :=
  ["$eq"; "$ne"; "$lt"; "$lte"; "$gt"; "$gte"; "$in"; "$nin"].

End Shape.
Import Shape.

(* ================================================================= *)
(** ** Reading an escaped literal back *)

Module Literal.

(** What a SQL reader makes of the inside of a single-quoted literal: two
    quotes in a row stand for one. *)
Fixpoint unescapeQuotes (s : string) : string :=
  match s with
  | EmptyString => EmptyString
  | String c rest =>
      if Ascii.eqb c "'"%char then
        match rest with
        | String c' rest' =>
            if Ascii.eqb c' "'"%char then String c (unescapeQuotes rest')
            else String c (unescapeQuotes rest)
        | EmptyString => String c EmptyString
        end
      else String c (unescapeQuotes rest)
  end.

(** The literal ends at the first quote that is not doubled: [true] when
    [s] has no such quote, so that ['s'] is one literal and nothing more. *)
Fixpoint staysInside (s : string) : bool :=
  match s with
  | EmptyString => true
  | String c rest =>
      if Ascii.eqb c "'"%char then
        match rest with
        | String c' rest' => if Ascii.eqb c' "'"%char then staysInside rest' else false
        | EmptyString => false
        end
      else staysInside rest
  end.

End Literal.

(* ================================================================= *)
(** ** The conversations of a hybrid search *)

Module Conversation.




End Conversation.

(* ================================================================= *)
(** ** Rows and results of [Get], [Peek] and [Query] (client_query.go) *)

Definition float64 := N.  (* the IEEE-754 bit pattern; only ever copied *)

(** types.go: [type Metadata map[string]interface{}]; nil is [None]. *)
Definition Metadata := option gomap.

(** options.go *)
Definition WithGetInclude (fields : list string) : GetOption :=
  fun o => GetOptions.mk (GetOptions.Where o) (GetOptions.WhereDocument o)
                         (GetOptions.Limit o) (GetOptions.Offset o) fields.

(** types.go *)
Definition DistanceFuncName (d : string) : string :=
  if d =? "l2" then "l2_distance"
  else if d =? "cosine" then "cosine_distance"
  else if d =? "inner_product" then "inner_product"
  else "l2_distance".

Module GetResult.
Record t : Type := mk {
  IDs : list string;
  Documents : list string;
  Metadatas : list Metadata;
  Embeddings : list (list float32)
}.
End GetResult.

Module QueryResult.
Record t : Type := mk {
  IDs : list (list string);
  Distances : list (list float64);
  Documents : list (list string);
  Metadatas : list (list Metadata);
  Embeddings : list (list (list float32))
}.
End QueryResult.

Module QueryOptions.
Record t : Type := mk {
  QueryEmbeddings : option (list (list float32));   (* nil is None *)
  Where : Filter;
  WhereDocument : Filter;
  Include : list string
}.
End QueryOptions.

Module Rows.

(** What [rows.Scan] delivers for one row of [collectionGet]:
    id, document, metadataJSON, embeddingJSON. *)
Definition getRow : Type := (string * string * string * string)%type.

(** And for one row of [collectionQuery], with the distance. *)
Definition queryRow : Type := (string * string * string * string * float64)%type.

(** The lists [scanQueryResults] returns. *)
Record scanned : Type := mkScanned {
  ids : list string;
  distances : list float64;
  documents : list string;
  metadatas : list Metadata;
  embeddings : list (list float32)
}.

(** One statement handed to [c.conn.Query] with its arguments. *)
Definition sentQuery : Type := (string * list value)%type.

Section Scan.
(** [encoding/json]: what [json.Unmarshal] leaves in a nil [Metadata] and in
    a nil [[]float32], and whether it reported an error. *)
Variable unmarshalMetadata : string -> Metadata * option error.
Variable unmarshalEmbedding : string -> list float32 * option error.

(** types.go, [Metadata.FromJSON] on a nil receiver value. *)
Definition FromJSON (s : string) : Metadata * option error :=
  if (s =? "") || (s =? "{}") then (Some [], None) else unmarshalMetadata s.

(** The body of [for rows.Next()] in [collectionGet]. *)
Definition getStep (got : GetResult.t) (row : getRow) : GetResult.t :=
  let '(id, document, metadataJSON, embeddingJSON) := row in
  let metadatas :=
    match FromJSON metadataJSON with
    | (metadata, None) => GetResult.Metadatas got ++ [metadata]
    | (_, Some _) => GetResult.Metadatas got
    end in
  let embeddings :=
    match unmarshalEmbedding embeddingJSON with
    | (embedding, None) => GetResult.Embeddings got ++ [embedding]
    | (_, Some _) => GetResult.Embeddings got
    end in
  GetResult.mk (GetResult.IDs got ++ [id])
               (GetResult.Documents got ++ [document])
               metadatas embeddings.

(** What one row adds to [result.Metadatas] in [collectionGet]. *)
Definition parsedMetadata (row : getRow) : list Metadata :=
  match FromJSON (snd (fst row)) with
  | (metadata, None) => [metadata]
  | (_, Some _) => []
  end.

(** What one row adds to [result.Embeddings] in [collectionGet]. *)
Definition parsedEmbedding (row : getRow) : list (list float32) :=
  match unmarshalEmbedding (snd row) with
  | (embedding, None) => [embedding]
  | (_, Some _) => []
  end.

(** The row loop of [collectionGet]; each row is what its [Scan] gave. *)
Fixpoint scanGetRows (rows : list (result getRow)) (got : GetResult.t)
  : result GetResult.t :=
  match rows with
  | [] => Ok got
  | Err err :: _ => Err err
  | Ok row :: rest => scanGetRows rest (getStep got row)
  end.

(** The body of [for rows.Next()] in [scanQueryResults]. *)
Definition queryStep (acc : scanned) (row : queryRow) : scanned :=
  let '(id, document, metadataJSON, embeddingJSON, distance) := row in
  mkScanned (ids acc ++ [id])
            (distances acc ++ [distance])
            (documents acc ++ [document])
            (metadatas acc ++ [fst (FromJSON metadataJSON)])
            (embeddings acc ++ [fst (unmarshalEmbedding embeddingJSON)]).

Fixpoint scanQueryRows (rows : list (result queryRow)) (acc : scanned) : result scanned :=
  match rows with
  | [] => Ok acc
  | Err err :: _ => Err err
  | Ok row :: rest => scanQueryRows rest (queryStep acc row)
  end.

(** [scanQueryResults] *)
Definition scanQueryResults (rows : list (result queryRow)) : result scanned :=
  scanQueryRows rows (mkScanned [] [] [] [] []).

(** [collectionGet] as a whole: the statement, the query, the rows. *)
Definition runGet (filterBuilder : FilterBuilder)
    (conn_Query : string -> list value -> result (list (result getRow)))
    (collectionName : string) (ids : list string) (opts : GetOptions.t)
  : result GetResult.t :=
  st <- Get.collectionGet filterBuilder collectionName ids opts ;;
  match conn_Query (Get.querySQL st) (Get.queryArgs st) with
  | Err err => Err (Wrapped "failed to get documents" err)
  | Ok rows => scanGetRows rows (GetResult.mk [] [] [] [])
  end.

(** collection.go, [Peek]. *)
Definition Peek (filterBuilder : FilterBuilder) (name : string) (limit : Z)
  : result Get.statement :=
  let limit := if (limit <=? 0)%Z then 10%Z else limit in
  Get.collectionGet filterBuilder name [] (GetOptions.mk None None limit 0 []).

(** [fmt.Sprintf("%v", v)] on a [float32]. *)
Variable formatFloat32 : float32 -> string.

(** [vectorToString] *)
Definition vectorToString (vector : list float32) : string :=
  "[" ++ String.concat "," (map formatFloat32 vector) ++ "]".

Definition nl : string := String (ascii_of_nat 10) "".
Definition tab : string := String (ascii_of_nat 9) "".

(** The statement of [collectionQuery] for one query embedding. *)
Definition querySQL (distance tableName whereClause : string) (queryEmb : list float32)
  : string :=
  let distanceFunc := DistanceFuncName distance in
  let vectorStr := vectorToString queryEmb in
  (nl ++ tab ++ tab ++ tab ++ "SELECT _id, document, metadata, embedding,"
   ++ nl ++ tab ++ tab ++ tab ++ "       "
   ++ distanceFunc ++ "(embedding, '" ++ vectorStr ++ "') AS distance"
   ++ nl ++ tab ++ tab ++ tab ++ "FROM " ++ tableName
   ++ nl ++ tab ++ tab ++ tab ++ whereClause
   ++ nl ++ tab ++ tab ++ tab ++ "ORDER BY "
   ++ distanceFunc ++ "(embedding, '" ++ vectorStr ++ "')"
   ++ nl ++ tab ++ tab ++ tab ++ "APPROXIMATE"
   ++ nl ++ tab ++ tab ++ tab ++ "LIMIT ?"
   ++ nl ++ tab ++ tab)%string.

(** The head of [collectionQuery]: the embeddings to query with. *)
Definition queryEmbeddings (queryTexts : list string) (opts : QueryOptions.t)
    (embFunc : option EmbeddingFunc) : result (list (list float32)) :=
  match QueryOptions.QueryEmbeddings opts with
  | Some embeddings => Ok embeddings
  | None =>
      match queryTexts with
      | _ :: _ =>
          match embFunc with
          | None => Err ErrEmbeddingFunctionRequired
          | Some Embed =>
              match Embed queryTexts with
              | Err err => Err (Wrapped "failed to generate query embeddings" err)
              | Ok embeddings => Ok embeddings
              end
          end
      | [] =>
          Err (Wrapped "must provide query_texts or query_embeddings"
                       ErrInvalidParameter)
      end
  end.

(** The filters of one iteration: conditions and arguments, or the error of
    a builder. *)
Definition queryFilters (filterBuilder : FilterBuilder) (opts : QueryOptions.t)
  : result (list string * list value) :=
  acc <- Get.addFilter (BuildMetadataFilter filterBuilder) (QueryOptions.Where opts)
                       ([], []) ;;
  Get.addFilter (BuildDocumentFilter filterBuilder) (QueryOptions.WhereDocument opts) acc.

Section Loop.
Variable filterBuilder : FilterBuilder.
(** [c.conn.Query], answering from what was sent before. *)
Variable conn_Query :
  list sentQuery -> string -> list value -> result (list (result queryRow)).
Variable collectionName : string.
Variable nResults : Z.
Variable opts : QueryOptions.t.
Variable distance : string.

(** One iteration of [for i, queryEmb := range queryEmbeddings]: what has
    been sent and the result so far, or the error returned. *)
Definition queryOne (sent : list sentQuery) (got : QueryResult.t)
    (queryEmb : list float32)
  : list sentQuery * result QueryResult.t :=
  match queryFilters filterBuilder opts with
  | Err err => (sent, Err err)
  | Ok (conditions, args) =>
      let whereClause :=
        match conditions with
        | [] => ""
        | _ => "WHERE " ++ String.concat " AND " conditions
        end%string in
      let sql := querySQL distance (GetTableName collectionName) whereClause queryEmb in
      let queryArgs := args ++ [VInt nResults] in
      let sent' := sent ++ [(sql, queryArgs)] in
      match conn_Query sent sql queryArgs with
      | Err err => (sent', Err (Wrapped "failed to query collection" err))
      | Ok rows =>
          match scanQueryResults rows with
          | Err err => (sent', Err err)
          | Ok s =>
              (sent',
               Ok (QueryResult.mk (QueryResult.IDs got ++ [ids s])
                                  (QueryResult.Distances got ++ [distances s])
                                  (QueryResult.Documents got ++ [documents s])
                                  (QueryResult.Metadatas got ++ [metadatas s])
                                  (QueryResult.Embeddings got ++ [embeddings s])))
          end
      end
  end.

Fixpoint queryLoop (embeddings : list (list float32)) (sent : list sentQuery)
    (got : QueryResult.t) : list sentQuery * result QueryResult.t :=
  match embeddings with
  | [] => (sent, Ok got)
  | queryEmb :: rest =>
      match queryOne sent got queryEmb with
      | (sent', Ok got') => queryLoop rest sent' got'
      | (sent', Err err) => (sent', Err err)
      end
  end.

(** [collectionQuery]: the statements sent and the value returned. *)
Definition collectionQuery (queryTexts : list string) (embFunc : option EmbeddingFunc)
  : list sentQuery * result QueryResult.t :=
  match queryEmbeddings queryTexts opts embFunc with
  | Err err => ([], Err err)
  | Ok embeddings => queryLoop embeddings [] (QueryResult.mk [] [] [] [] [])
  end.
End Loop.

End Scan.
End Rows.

(* ================================================================= *)
(** ** [transformHybridSearchResults] (client_query.go) *)

Module Transform.

(** A scanned column value, by the dynamic types the two converters tell
    apart; [COther] is any other type. *)
Inductive cell : Type :=
| CNil
| CString (s : string)
| CBytes (s : string)        (* []byte, as the string it converts to *)
| CFloat64 (f : float64)
| CFloat32 (f : float32)
| CInt (n : Z)
| CInt64 (n : Z)
| COther (tag : N).

(** [colMap], a [map[string]int]. *)
Definition colmap := list (string * nat).

Fixpoint lookupCol (name : string) (m : colmap) : option nat :=
  match m with
  | [] => None
  | (name', idx) :: rest => if String.eqb name name' then Some idx else lookupCol name rest
  end.

(** [colMap[name] = idx] *)
Fixpoint setCol (name : string) (idx : nat) (m : colmap) : colmap :=
  match m with
  | [] => [(name, idx)]
  | (name', idx') :: rest =>
      if String.eqb name name' then (name', idx) :: rest
      else (name', idx') :: setCol name idx rest
  end.

Section Converters.
(** The library calls of the function: [strings.ToLower], [fmt.Sprintf] with
    [%v], the numeric conversions to [float64], [fmt.Sscanf] with [%f] into
    a zero [float64], and [json.Unmarshal] into a nil map and a nil slice. *)
Variable strings_ToLower : string -> string.
Variable fmt_v : cell -> string.
Variable float64_of_float32 : float32 -> float64.
Variable float64_of_int : Z -> float64.
Variable sscanf_f : string -> float64.
Variable unmarshalMetadata : string -> option gomap * option error.
Variable unmarshalEmbedding : string -> list float32 * option error.

(** [convertToString] *)
Definition convertToString (v : cell) : string :=
  match v with
  | CNil => ""
  | CString val => val
  | CBytes val => val
  | _ => fmt_v v
  end.

(** [convertToFloat64]; the zero [float64] has bit pattern 0. *)
Definition convertToFloat64 (v : cell) : float64 :=
  match v with
  | CNil => 0%N
  | CFloat64 val => val
  | CFloat32 val => float64_of_float32 val
  | CInt val => float64_of_int val
  | CInt64 val => float64_of_int val
  | CString val => sscanf_f val
  | CBytes val => sscanf_f val
  | COther _ => 0%N
  end.

(** [for i, col := range cols { colMap[strings.ToLower(col)] = i }],
    from index [i] on. *)
Fixpoint buildColMap (cols : list string) (i : nat) (colMap : colmap) : colmap :=
  match cols with
  | [] => colMap
  | col :: rest => buildColMap rest (S i) (setCol (strings_ToLower col) i colMap)
  end.

(** [values[idx]] *)
Definition valueAt (values : list cell) (idx : nat) : cell := nth idx values CNil.

(** The id of a row: column [id], else [_id], else the zero string. *)
Definition rowID (colMap : colmap) (values : list cell) : string :=
  match lookupCol "id" colMap with
  | Some idx => convertToString (valueAt values idx)
  | None =>
      match lookupCol "_id" colMap with
      | Some idx => convertToString (valueAt values idx)
      | None => ""
      end
  end.

(** The distance of a row: [_distance], [distance], [_score], [score], in
    this order, else zero. *)
Definition rowDistance (colMap : colmap) (values : list cell) : float64 :=
  match lookupCol "_distance" colMap with
  | Some idx => convertToFloat64 (valueAt values idx)
  | None =>
  match lookupCol "distance" colMap with
  | Some idx => convertToFloat64 (valueAt values idx)
  | None =>
  match lookupCol "_score" colMap with
  | Some idx => convertToFloat64 (valueAt values idx)
  | None =>
  match lookupCol "score" colMap with
  | Some idx => convertToFloat64 (valueAt values idx)
  | None => 0%N
  end end end end.

Definition rowDocument (colMap : colmap) (values : list cell) : string :=
  match lookupCol "document" colMap with
  | Some idx => convertToString (valueAt values idx)
  | None => ""
  end.

(** The metadata of a row, [Metadata{}] when the column is missing, empty
    or left nil by [json.Unmarshal]. *)
Definition rowMetadata (colMap : colmap) (values : list cell) : gomap :=
  let metadata :=
    match lookupCol "metadata" colMap with
    | Some idx =>
        let metadataStr := convertToString (valueAt values idx) in
        if metadataStr =? "" then None else fst (unmarshalMetadata metadataStr)
    | None => None
    end in
  match metadata with
  | None => []
  | Some m => m
  end.

Definition rowEmbedding (colMap : colmap) (values : list cell) : list float32 :=
  match lookupCol "embedding" colMap with
  | Some idx =>
      let embStr := convertToString (valueAt values idx) in
      if embStr =? "" then [] else fst (unmarshalEmbedding embStr)
  | None => []
  end.

(** The body of [for rows.Next()], after a successful [Scan]. *)
Definition rowStep (colMap : colmap) (acc : HybridSearchResult) (values : list cell)
  : HybridSearchResult :=
  mkHybridSearchResult
    (IDs acc ++ [rowID colMap values])
    (Distances acc ++ [rowDistance colMap values])
    (Documents acc ++ [rowDocument colMap values])
    (Metadatas acc ++ [rowMetadata colMap values])
    (Embeddings acc ++ [rowEmbedding colMap values]).

Fixpoint rowLoop (colMap : colmap) (rows : list (result (list cell)))
    (acc : HybridSearchResult) : result HybridSearchResult :=
  match rows with
  | [] => Ok acc
  | Err err :: _ => Err (Wrapped "failed to scan row" err)
  | Ok values :: rest => rowLoop colMap rest (rowStep colMap acc values)
  end.

(** [transformHybridSearchResults]: [columns] is what [rows.Columns()]
    returned, each row what its [Scan] gave. *)
Definition transformHybridSearchResults (columns : result (list string))
    (rows : list (result (list cell))) : result HybridSearchResult :=
  match columns with
  | Err err => Err (Wrapped "failed to get columns" err)
  | Ok cols => rowLoop (buildColMap cols 0 []) rows emptyResult
  end.

End Converters.
End Transform.

(* ================================================================= *)
(** ** Proof steps shared below *)

(** Case analysis along the [switch op] of the operator loop. *)
Ltac split_op op :=
  destruct (op =? "$eq") eqn:?; [|
  destruct (op =? "$ne") eqn:?; [|
  destruct (op =? "$lt") eqn:?; [|
  destruct (op =? "$lte") eqn:?; [|
  destruct (op =? "$gt") eqn:?; [|
  destruct (op =? "$gte") eqn:?; [|
  destruct (op =? "$in") eqn:?; [|
  destruct (op =? "$nin") eqn:?]]]]]]].

(** Turn the boolean string tests in the context into equations. *)
Ltac name_op :=
  repeat match goal with
         | H : (_ =? _) = true |- _ => apply String.eqb_eq in H; subst
         end.

Ltac differ :=
  repeat match goal with
         | H : (_ =? _) = false |- _ => apply String.eqb_neq in H
         end.

(* ================================================================= *)
(** * Properties *)

(** ** Maps and strings *)

Section MapFacts.
Implicit Types (k : string) (v : value) (m : gomap).

Lemma lookup_set_same k v m : lookup k (set k v m) = Some v.
Proof.
  induction m as [|[k' v'] m IH]; simpl.
  - now rewrite String.eqb_refl.
  - destruct (k =? k') eqn:E; simpl; rewrite E; auto.
Qed.

Lemma lookup_set_other k k' v m : k <> k' -> lookup k (set k' v m) = lookup k m.
Proof.
  intros Hne. induction m as [|[k2 v2] m IH]; simpl.
  - destruct (k =? k') eqn:E; auto. apply String.eqb_eq in E. contradiction.
  - destruct (k' =? k2) eqn:E2; simpl.
    + apply String.eqb_eq in E2. subst k2.
      destruct (k =? k') eqn:E; auto. apply String.eqb_eq in E. contradiction.
    + destruct (k =? k2); auto.
Qed.

Lemma lookup_absent k m : ~ In k (keys m) -> lookup k m = None.
Proof.
  induction m as [|[k' v'] m IH]; simpl; intros Hn; auto.
  destruct (k =? k') eqn:E.
  - apply String.eqb_eq in E. subst. tauto.
  - apply IH. tauto.
Qed.

Lemma lookup_in k v m : lookup k m = Some v -> In (k, v) m.
Proof.
  induction m as [|[k' v'] m IH]; simpl; [discriminate|].
  destruct (k =? k') eqn:E; intros H.
  - apply String.eqb_eq in E. inversion H. subst. now left.
  - right. auto.
Qed.

Lemma in_lookup k v m : NoDup (keys m) -> In (k, v) m -> lookup k m = Some v.
Proof.
  induction m as [|[k' v'] m IH]; simpl; intros Hnd Hin; [tauto|].
  inversion Hnd as [|? ? Hnotin Hnd']; subst.
  destruct Hin as [Heq|Hin].
  - inversion Heq; subst. now rewrite String.eqb_refl.
  - destruct (k =? k') eqn:E.
    + apply String.eqb_eq in E. subst k'. exfalso. apply Hnotin.
      change (In (fst (k, v)) (map fst m)). now apply in_map.
    + auto.
Qed.
End MapFacts.

Section DepthFacts.
Lemma list_max_in {A : Type} (f : A -> nat) (x : A) (l : list A) :
  In x l -> f x <= list_max (map f l).
Proof.
  induction l as [|y l IH]; simpl; intros H; [tauto|].
  destruct H as [->|H]; [lia|]. specialize (IH H). lia.
Qed.

Lemma depth_lookup k v (m : gomap) : lookup k m = Some v -> depth v < map_depth m.
Proof.
  intros H. apply lookup_in in H. unfold map_depth. simpl.
  pose proof (list_max_in (fun kv : string * value => depth (snd kv)) (k, v) m H) as Hle.
  simpl in Hle. lia.
Qed.

Lemma depth_element (x : value) (l : list value) : In x l -> depth x < depth (VList l).
Proof.
  intros H. simpl. pose proof (list_max_in depth x l H). lia.
Qed.

Lemma map_depth_pos (m : gomap) : 0 < map_depth m.
Proof. unfold map_depth. simpl. lia. Qed.
End DepthFacts.

Section StringFacts.
Import SQL.

Lemma count_char_append c (s t : string) :
  count_char c (s ++ t) = count_char c s + count_char c t.
Proof. induction s as [|a s IH]; simpl; auto. rewrite IH. lia. Qed.

Lemma append_nil_r (s : string) : (s ++ "")%string = s.
Proof. induction s as [|a s IH]; simpl; congruence. Qed.

Lemma append_assoc (s t u : string) : ((s ++ t) ++ u)%string = (s ++ (t ++ u))%string.
Proof. induction s as [|a s IH]; simpl; congruence. Qed.

Lemma append_length (s t : string) :
  String.length (s ++ t) = String.length s + String.length t.
Proof. induction s as [|a s IH]; simpl; auto. Qed.

(** A common suffix can be cancelled. *)
Lemma append_cancel_r (s t u : string) : (s ++ u)%string = (t ++ u)%string -> s = t.
Proof.
  revert t. induction s as [|a s IH]; intros [|b t] H; simpl in H; auto.
  - apply (f_equal String.length) in H. simpl in H. rewrite append_length in H. lia.
  - apply (f_equal String.length) in H. simpl in H. rewrite append_length in H. lia.
  - inversion H. f_equal. auto.
Qed.

Lemma fieldName_injective (k k' : string) : fieldName k = fieldName k' -> k = k'.
Proof.
  unfold fieldName. intros H.
  apply (f_equal (fun s => substring 27 (String.length s - 27) s)) in H.
  revert H. simpl. rewrite !append_length. simpl.
  replace (String.length k + 3 - 0) with (String.length k + 3) by lia.
  replace (String.length k' + 3 - 0) with (String.length k' + 3) by lia.
  intros H.
  assert (Hs : forall s t, substring 0 (String.length s + String.length t) (s ++ t) = (s ++ t)%string).
  { intros s t. rewrite <- append_length.
    generalize (s ++ t)%string. intros u. induction u; simpl; congruence. }
  change 3 with (String.length "'))") in H.
  rewrite !Hs in H. now apply append_cancel_r in H.
Qed.
(** One [?] per element in a comma-separated placeholder list. *)
Lemma placeholders_list {A : Type} (l : list A) :
  placeholders (String.concat ", " (map (fun _ : A => "?") l)) = length l.
Proof.
  induction l as [|a l IH]; [reflexivity|].
  destruct l as [|b l]; [reflexivity|].
  change (placeholders ("?" ++ ", " ++ String.concat ", " (map (fun _ : A => "?") (b :: l)))
          = S (length (b :: l))).
  unfold placeholders in *. rewrite !count_char_append, IH. reflexivity.
Qed.

End StringFacts.

(** ** The recursion of the descriptor compiler *)

Section Fuel.
Lemma flat_map_agree {A B : Type} (f g : A -> list B) (l : list A) :
  (forall a, In a l -> f a = g a) -> flat_map f l = flat_map g l.
Proof.
  induction l as [|a l IH]; simpl; intros H; auto.
  rewrite (H a), IH; auto.
Qed.

(** [body] calls [recur] on strictly shallower maps only. *)
Lemma body_agree (f g : gomap -> list gomap) (condition : gomap) :
  (forall sub, map_depth sub < map_depth condition -> f sub = g sub) ->
  body f condition = body g condition.
Proof.
  intros H. unfold body.
  destruct condition as [|e rest]; [reflexivity|].
  set (c := e :: rest) in *.
  assert (Hsubs : forall key l, lookup key c = Some (VList l) ->
            flat_map (subConditions f) l = flat_map (subConditions g) l).
  { intros key l Hl. apply flat_map_agree. intros [] Hin; simpl; auto.
    apply H. pose proof (depth_lookup _ _ _ Hl). pose proof (depth_element _ _ Hin).
    unfold map_depth in *. lia. }
  destruct (lookup "$and" c) as [[]|] eqn:Eand; auto.
  { now rewrite (Hsubs _ _ Eand). }
  destruct (lookup "$or" c) as [[]|] eqn:Eor; auto.
  { now rewrite (Hsubs _ _ Eor). }
  destruct (lookup "$not" c) as [[]|] eqn:Enot; auto.
  rewrite H; auto. exact (depth_lookup _ _ _ Enot).
Qed.

Lemma fuel_irrelevant (n n' : nat) (condition : gomap) :
  map_depth condition <= n -> map_depth condition <= n' ->
  buildMetadataFilterConditions_fuel n condition
  = buildMetadataFilterConditions_fuel n' condition.
Proof.
  revert n' condition. induction n as [|n IH]; intros n' c Hn Hn'.
  - pose proof (map_depth_pos c). lia.
  - destruct n' as [|n']; [pose proof (map_depth_pos c); lia|].
    simpl. apply body_agree. intros sub Hsub. apply IH; lia.
Qed.

(** The defining equation of the source function: the depth of the filter
    is fuel enough, at every level of the recursion. *)
Lemma buildMetadataFilterConditions_eq (condition : gomap) :
  buildMetadataFilterConditions condition
  = body buildMetadataFilterConditions condition.
Proof.
  unfold buildMetadataFilterConditions at 1.
  pose proof (map_depth_pos condition) as Hpos.
  destruct (map_depth condition) as [|n] eqn:E; [lia|].
  simpl. apply body_agree. intros sub Hsub.
  unfold buildMetadataFilterConditions. apply fuel_irrelevant; lia.
Qed.

(** Without a logical key the compiler is the field loop. *)
Lemma fields_only (condition : gomap) :
  lookup "$and" condition = None -> lookup "$or" condition = None ->
  lookup "$not" condition = None ->
  buildMetadataFilterConditions condition = fieldConditions condition.
Proof.
  intros Hand Hor Hnot. rewrite buildMetadataFilterConditions_eq. unfold body.
  destruct condition; [reflexivity|]. now rewrite Hand, Hor, Hnot.
Qed.
End Fuel.

(** ** The operator loop of one field *)

Section OperatorLoop.
Variable field : string.

Lemma opStep_result st kv :
  os_result (opStep field st kv) = os_result st ++ emitted field kv.
Proof.
  destruct kv as [op v]. unfold opStep, emitted.
  split_op op; name_op; simpl; try now rewrite app_nil_r.
  - reflexivity.
  - destruct v; simpl; try now rewrite app_nil_r.
    destruct l; simpl; [now rewrite app_nil_r|reflexivity].
  - destruct v; simpl; try now rewrite app_nil_r.
    destruct l; simpl; [now rewrite app_nil_r|reflexivity].
Qed.

Lemma opStep_range st kv :
  os_range (opStep field st kv) = rangeStep (os_range st) kv.
Proof.
  destruct kv as [op v]. unfold opStep, rangeStep, rangeKey.
  split_op op; name_op; simpl; try reflexivity.
  - destruct v; simpl; try reflexivity. destruct l; reflexivity.
  - destruct v; simpl; try reflexivity. destruct l; reflexivity.
  - repeat match goal with H : (_ =? _) = false |- _ => rewrite H end.
    reflexivity.
Qed.

Lemma fold_result ops st :
  os_result (fold_left (opStep field) ops st)
  = os_result st ++ flat_map (emitted field) ops.
Proof.
  revert st. induction ops as [|kv ops IH]; intros st; simpl.
  - now rewrite app_nil_r.
  - now rewrite IH, opStep_result, <- app_assoc.
Qed.

Lemma fold_range ops st :
  os_range (fold_left (opStep field) ops st) = fold_left rangeStep ops (os_range st).
Proof.
  revert st. induction ops as [|kv ops IH]; intros st; simpl; auto.
  now rewrite IH, opStep_range.
Qed.
End OperatorLoop.

(* ================================================================= *)
(** ** C3: the [$or] scenario on the descriptor path *)

(** C3, as stated, fails: the descriptor compiler does not emit the document
    [{"bool":{"should":[{"range":{"score":{"gte":90}}},{"term":{"tag":"ml"}}]}}]
    for [{"$or":[{"score":{"$gte":90}},{"tag":"ml"}]}]; the field names do
    not appear as given. *)
Lemma C3_fields_not_as_given :
  buildMetadataFilterConditions Scenario.scoreOrTag <> [Scenario.scoreOrTagAsGiven].
Proof. vm_compute. discriminate. Qed.

(** C3, amended: the filter [{"$or":[{"score":{"$gte":90}},{"tag":"ml"}]}]
    compiles to the one-clause list holding
    [{"bool":{"should":[{"range":{F(score):{"gte":90}}},{"term":{F(tag):"ml"}}]}}]
    where [F(k)] is the string [(JSON_EXTRACT(metadata, '$.k'))], the range
    and term children in list order. *)
Theorem C3_or_scenario :
  buildMetadataFilterConditions Scenario.scoreOrTag = [Scenario.scoreOrTagExtracted]
  /\ Scenario.scoreOrTagExtracted
     = boolNode "should" [rangeNode (fieldName "score") [("gte", VInt 90)];
                          termNode (fieldName "tag") (VStr "ml")].
Proof. split; reflexivity. Qed.

(** ** The field loop, clause by clause *)

Lemma opStep_term field st kv :
  os_term (opStep field st kv) = termStep (os_term st) kv.
Proof.
  destruct kv as [op v]. unfold opStep, termStep. simpl.
  split_op op; simpl; try reflexivity.
  - destruct v; simpl; try reflexivity. destruct l; reflexivity.
  - destruct v; simpl; try reflexivity. destruct l; reflexivity.
Qed.

Lemma fold_term field ops st :
  os_term (fold_left (opStep field) ops st) = fold_left termStep ops (os_term st).
Proof.
  revert st. induction ops as [|kv ops IH]; intros st; simpl; auto.
  now rewrite IH, opStep_term.
Qed.

(** The operator loop and what follows it, as one list. *)
Lemma operatorConditions_clauses field result valueMap :
  operatorConditions field result valueMap
  = result ++ flat_map (emitted field) valueMap ++ closing field valueMap.
Proof.
  unfold operatorConditions, closing, boundsOf.
  rewrite fold_range, fold_term, fold_result. simpl.
  destruct (fold_left rangeStep valueMap []).
  - destruct (fold_left termStep valueMap VNil);
      rewrite <- ?app_assoc, ?app_nil_r; reflexivity.
  - now rewrite <- app_assoc.
Qed.

Lemma fieldStep_clauses result kv : fieldStep result kv = result ++ entryClauses kv.
Proof.
  destruct kv as [key v]. unfold fieldStep, entryClauses, isLogical.
  destruct ((key =? "$and") || (key =? "$or") || (key =? "$not")).
  - now rewrite app_nil_r.
  - destruct v; try reflexivity; apply operatorConditions_clauses.
Qed.

Lemma fieldConditions_clauses condition :
  fieldConditions condition = flat_map entryClauses condition.
Proof.
  unfold fieldConditions.
  assert (H : forall acc, fold_left fieldStep condition acc
                          = acc ++ flat_map entryClauses condition).
  { induction condition as [|kv c IH]; intros acc; simpl.
    - now rewrite app_nil_r.
    - now rewrite IH, fieldStep_clauses, <- app_assoc. }
  apply H.
Qed.

(** ** Bounds of one operator map *)

Lemma rangeKey_cases op bound :
  rangeKey op = Some bound ->
  (op = "$lt" /\ bound = "lt") \/ (op = "$lte" /\ bound = "lte")
  \/ (op = "$gt" /\ bound = "gt") \/ (op = "$gte" /\ bound = "gte").
Proof.
  unfold rangeKey.
  destruct (op =? "$lt") eqn:E1; [|
  destruct (op =? "$lte") eqn:E2; [|
  destruct (op =? "$gt") eqn:E3; [|
  destruct (op =? "$gte") eqn:E4]]];
    name_op; intros H; inversion H; subst; tauto.
Qed.

Lemma rangeKey_injective op op' bound :
  rangeKey op = Some bound -> rangeKey op' = Some bound -> op = op'.
Proof.
  intros H H'. apply rangeKey_cases in H. apply rangeKey_cases in H'.
  destruct H as [[-> ->]|[[-> ->]|[[-> ->]|[-> ->]]]];
    destruct H' as [[-> E]|[[-> E]|[[-> E]|[-> E]]]]; congruence.
Qed.

Lemma set_nonempty k v (m : gomap) : set k v m <> [].
Proof. destruct m as [|[k' v'] m]; simpl; [|destruct (k =? k')]; discriminate. Qed.

Lemma rangeStep_keeps bounds ops :
  bounds <> [] -> fold_left rangeStep ops bounds <> [].
Proof.
  revert bounds. induction ops as [|kv ops IH]; intros bounds H; simpl; auto.
  apply IH. unfold rangeStep. destruct (rangeKey (fst kv)); auto using set_nonempty.
Qed.

Lemma range_operator_bounds ops bounds :
  hasRangeOperator ops = true -> fold_left rangeStep ops bounds <> [].
Proof.
  revert bounds. induction ops as [|kv ops IH]; intros bounds H; simpl in *.
  - discriminate.
  - destruct (rangeKey (fst kv)) eqn:E; simpl in H.
    + apply rangeStep_keeps. unfold rangeStep. rewrite E. apply set_nonempty.
    + unfold rangeStep at 2. rewrite E. auto.
Qed.

Lemma no_range_operator_bounds ops bounds :
  hasRangeOperator ops = false -> fold_left rangeStep ops bounds = bounds.
Proof.
  revert bounds. induction ops as [|kv ops IH]; intros bounds H; simpl in *; auto.
  destruct (rangeKey (fst kv)) eqn:E; simpl in H; [discriminate|].
  unfold rangeStep at 2. rewrite E. auto.
Qed.

(** Each bound of the folded object is the operand of its operator. *)
Lemma bounds_lookup ops : NoDup (keys ops) ->
  forall bounds op bound, rangeKey op = Some bound ->
  lookup bound (fold_left rangeStep ops bounds)
  = match lookup op ops with Some v => Some v | None => lookup bound bounds end.
Proof.
  induction ops as [|[op1 v1] ops IH]; intros Hnd bounds op bound Hk; simpl; auto.
  inversion Hnd as [|? ? Hnotin Hnd']; subst.
  rewrite (IH Hnd' _ op bound Hk).
  destruct (op =? op1) eqn:E.
  - apply String.eqb_eq in E. subst op1.
    rewrite (lookup_absent _ _ Hnotin). unfold rangeStep. simpl. rewrite Hk.
    apply lookup_set_same.
  - destruct (lookup op ops); auto.
    unfold rangeStep. simpl. destruct (rangeKey op1) as [b1|] eqn:E1; auto.
    apply lookup_set_other. intros ->.
    apply String.eqb_neq in E. apply E. eapply rangeKey_injective; eauto.
Qed.

(** The folded object has no key besides the four bounds. *)
Lemma bounds_only ops k : (forall op, rangeKey op <> Some k) ->
  forall bounds, lookup k (fold_left rangeStep ops bounds) = lookup k bounds.
Proof.
  intros Hk. induction ops as [|[op1 v1] ops IH]; intros bounds; simpl; auto.
  rewrite IH. unfold rangeStep. simpl.
  destruct (rangeKey op1) as [b1|] eqn:E1; auto.
  apply lookup_set_other. intros ->. exact (Hk _ E1).
Qed.

(** ** Range objects in a compiled filter *)

Lemma rangeFields_cons node rest :
  rangeFields (VMaps (node :: rest))
  = rangeFields (VMaps [node]) ++ rangeFields (VMaps rest).
Proof. simpl. now rewrite app_nil_r. Qed.

Lemma rangeFields_app clauses clauses' :
  rangeFields (VMaps (clauses ++ clauses'))
  = rangeFields (VMaps clauses) ++ rangeFields (VMaps clauses').
Proof.
  induction clauses as [|node rest IH]; [reflexivity|].
  rewrite <- app_comm_cons, rangeFields_cons, IH, (rangeFields_cons node rest).
  now rewrite app_assoc.
Qed.

Lemma rangeFields_flat_map {A : Type} (f : A -> list gomap) (l : list A) :
  rangeFields (VMaps (flat_map f l)) = flat_map (fun a => rangeFields (VMaps (f a))) l.
Proof.
  induction l as [|a l IH]; [reflexivity|].
  simpl flat_map. now rewrite rangeFields_app, IH.
Qed.

Lemma rangeFields_terms field vals : rangeFields (VMaps (termsOf field vals)) = [].
Proof.
  induction vals as [|v vals IH]; [reflexivity|].
  unfold termsOf in *. simpl map. rewrite rangeFields_cons, IH. reflexivity.
Qed.

Lemma rangeFields_bool_terms kind field vals :
  rangeFields (VMaps [boolNode kind (termsOf field vals)]) = [].
Proof.
  unfold boolNode.
  change (((rangeFields (VMaps (termsOf field vals)) ++ []) ++ []) ++ [] = @nil string).
  now rewrite rangeFields_terms.
Qed.

Lemma rangeFields_emitted field kv : rangeFields (VMaps (emitted field kv)) = [].
Proof.
  destruct kv as [op v]. unfold emitted.
  destruct (op =? "$ne"); [exact (rangeFields_bool_terms "must_not" field [v])|].
  destruct (op =? "$in");
    [destruct v; try reflexivity; destruct l; try reflexivity;
     apply rangeFields_bool_terms|].
  destruct (op =? "$nin"); [|reflexivity].
  destruct v; try reflexivity; destruct l; try reflexivity.
  apply rangeFields_bool_terms.
Qed.

Lemma rangeFields_closing field ops :
  rangeFields (VMaps (closing field ops))
  = if hasRangeOperator ops then [field] else [].
Proof.
  unfold closing, boundsOf. destruct (hasRangeOperator ops) eqn:E.
  - pose proof (range_operator_bounds ops [] E) as Hne.
    destruct (fold_left rangeStep ops []); [congruence|reflexivity].
  - rewrite (no_range_operator_bounds ops [] E).
    destruct (fold_left termStep ops VNil); reflexivity.
Qed.

Lemma rangeFields_entry kv :
  rangeFields (VMaps (entryClauses kv)) = entryRangeFields kv.
Proof.
  destruct kv as [key v]. unfold entryClauses, entryRangeFields.
  destruct (isLogical key); [reflexivity|].
  assert (H : forall ops,
    rangeFields (VMaps (flat_map (emitted (fieldName key)) ops ++ closing (fieldName key) ops))
    = if hasRangeOperator ops then [fieldName key] else []).
  { intros ops. rewrite rangeFields_app, rangeFields_flat_map, rangeFields_closing.
    replace (flat_map (fun a => rangeFields (VMaps (emitted (fieldName key) a))) ops)
      with (@nil string); [reflexivity|].
    induction ops as [|kv ops IH]; [reflexivity|].
    change (@nil string = rangeFields (VMaps (emitted (fieldName key) kv))
              ++ flat_map (fun a => rangeFields (VMaps (emitted (fieldName key) a))) ops).
    now rewrite rangeFields_emitted, <- IH. }
  destruct v; first [apply H | reflexivity].
Qed.

Lemma entryRangeFields_other key kv :
  fst kv <> key -> count_occ string_dec (entryRangeFields kv) (fieldName key) = 0.
Proof.
  destruct kv as [k v]. simpl. intros Hne. unfold entryRangeFields.
  assert (H : count_occ string_dec [fieldName k] (fieldName key) = 0).
  { cbn [count_occ]. destruct (string_dec (fieldName k) (fieldName key)) as [E|]; auto.
    apply fieldName_injective in E. contradiction. }
  destruct (isLogical k); [reflexivity|].
  destruct v; try reflexivity; destruct (hasRangeOperator m); auto.
Qed.

Lemma rangeFields_without key condition :
  ~ In key (keys condition) ->
  count_occ string_dec (flat_map entryRangeFields condition) (fieldName key) = 0.
Proof.
  induction condition as [|kv c IH]; cbn [flat_map keys map In]; intros Hn; auto.
  rewrite count_occ_app, entryRangeFields_other, IH; tauto.
Qed.

(** A filter with distinct keys carries one range object for a field whose
    operator map holds a range operator. *)
Lemma one_range_per_entry condition key v ops :
  NoDup (keys condition) -> In (key, v) condition ->
  v = VMap ops \/ v = VFilter ops ->
  isLogical key = false -> hasRangeOperator ops = true ->
  count_occ string_dec (flat_map entryRangeFields condition) (fieldName key) = 1.
Proof.
  intros Hnd Hin Hv Hlog Hr.
  induction condition as [|kv c IH]; cbn [flat_map keys map In] in *; [tauto|].
  inversion Hnd as [|? ? Hnotin Hnd']; subst.
  rewrite count_occ_app. destruct Hin as [->|Hin].
  - rewrite (rangeFields_without key c Hnotin). unfold entryRangeFields.
    rewrite Hlog. destruct Hv as [->| ->]; rewrite Hr; cbn [count_occ];
      (destruct (string_dec (fieldName key) (fieldName key)); [reflexivity|congruence]).
  - rewrite entryRangeFields_other, IH; auto.
    intros E. apply Hnotin. rewrite E.
    change (In (fst (key, v)) (map fst c)). now apply in_map.
Qed.

Lemma closing_range field ops :
  hasRangeOperator ops = true -> closing field ops = [rangeNode field (boundsOf ops)].
Proof.
  intros H. unfold closing. pose proof (range_operator_bounds ops [] H) as Hne.
  unfold boundsOf in *. destruct (fold_left rangeStep ops []); [congruence|reflexivity].
Qed.

Lemma lookup_not_logical key v (condition : gomap) :
  lookup "$and" condition = None -> lookup "$or" condition = None ->
  lookup "$not" condition = None -> lookup key condition = Some v ->
  isLogical key = false.
Proof.
  intros Hand Hor Hnot Hk. unfold isLogical.
  destruct (key =? "$and") eqn:E1; [name_op; congruence|].
  destruct (key =? "$or") eqn:E2; [name_op; congruence|].
  destruct (key =? "$not") eqn:E3; [name_op; congruence|reflexivity].
Qed.

(* ================================================================= *)
(** ** C4: range operators on one field *)

(** C4, as stated, fails: the filter
    [{"$and":[{"page":{"$gte":1}},{"page":{"$lte":5}}]}] places [$gte] and
    [$lte] on the field [page], and the descriptor compiler emits two range
    objects for that field, one per sub-filter. *)
Lemma C4_two_ranges_for_one_field :
  buildMetadataFilterConditions Scenario.pageBetween
  = [boolNode "must" [rangeNode (fieldName "page") [("gte", VInt 1)];
                      rangeNode (fieldName "page") [("lte", VInt 5)]]]
  /\ rangeObjectsFor (fieldName "page")
       (buildMetadataFilterConditions Scenario.pageBetween) = 2.
Proof. split; vm_compute; reflexivity. Qed.

Lemma rangeObjects_cons node rest :
  rangeObjects (VMaps (node :: rest))
  = rangeObjects (VMaps [node]) ++ rangeObjects (VMaps rest).
Proof. simpl. now rewrite app_nil_r. Qed.

Lemma rangeObjects_app clauses clauses' :
  rangeObjects (VMaps (clauses ++ clauses'))
  = rangeObjects (VMaps clauses) ++ rangeObjects (VMaps clauses').
Proof.
  induction clauses as [|node rest IH]; [reflexivity|].
  rewrite <- app_comm_cons, rangeObjects_cons, IH, (rangeObjects_cons node rest).
  now rewrite app_assoc.
Qed.

Lemma rangeObjects_flat_map {A : Type} (f : A -> list gomap) (l : list A) :
  rangeObjects (VMaps (flat_map f l)) = flat_map (fun a => rangeObjects (VMaps (f a))) l.
Proof.
  induction l as [|a l IH]; [reflexivity|].
  simpl flat_map. now rewrite rangeObjects_app, IH.
Qed.

Lemma rangeObjects_terms field vals : rangeObjects (VMaps (termsOf field vals)) = [].
Proof.
  induction vals as [|v vals IH]; [reflexivity|].
  unfold termsOf in *. simpl map. rewrite rangeObjects_cons, IH. reflexivity.
Qed.

Lemma rangeObjects_bool kind conds :
  rangeObjects (VMaps [boolNode kind conds]) = rangeObjects (VMaps conds).
Proof.
  unfold boolNode.
  change (((rangeObjects (VMaps conds) ++ []) ++ []) ++ []
          = rangeObjects (VMaps conds)).
  now rewrite !app_nil_r.
Qed.

Lemma rangeFields_bool kind conds :
  rangeFields (VMaps [boolNode kind conds]) = rangeFields (VMaps conds).
Proof.
  unfold boolNode.
  change (((rangeFields (VMaps conds) ++ []) ++ []) ++ []
          = rangeFields (VMaps conds)).
  now rewrite !app_nil_r.
Qed.

Lemma rangeObjects_wrapBool kind conds :
  rangeObjects (VMaps (wrapBool kind conds)) = rangeObjects (VMaps conds).
Proof. destruct conds; [reflexivity|apply rangeObjects_bool]. Qed.

Lemma rangeFields_wrapBool kind conds :
  rangeFields (VMaps (wrapBool kind conds)) = rangeFields (VMaps conds).
Proof. destruct conds; [reflexivity|apply rangeFields_bool]. Qed.

Lemma rangeObjects_emitted field kv : rangeObjects (VMaps (emitted field kv)) = [].
Proof.
  destruct kv as [op v]. unfold emitted.
  destruct (op =? "$ne");
    [rewrite rangeObjects_bool; exact (rangeObjects_terms field [v])|].
  destruct (op =? "$in");
    [destruct v; try reflexivity; destruct l; try reflexivity;
     rewrite rangeObjects_bool; apply rangeObjects_terms|].
  destruct (op =? "$nin"); [|reflexivity].
  destruct v; try reflexivity; destruct l; try reflexivity.
  rewrite rangeObjects_bool. apply rangeObjects_terms.
Qed.

Lemma rangeObjects_closing field ops :
  rangeObjects (VMaps (closing field ops))
  = if hasRangeOperator ops then [(field, VMap (boundsOf ops))] else [].
Proof.
  destruct (hasRangeOperator ops) eqn:E.
  - now rewrite (closing_range _ _ E).
  - unfold closing, boundsOf. rewrite (no_range_operator_bounds ops [] E).
    destruct (fold_left termStep ops VNil); reflexivity.
Qed.

Lemma rangeObjects_entry kv :
  rangeObjects (VMaps (entryClauses kv)) = entryRanges kv.
Proof.
  destruct kv as [key v]. unfold entryClauses, entryRanges.
  destruct (isLogical key); [reflexivity|].
  assert (H : forall ops,
    rangeObjects
      (VMaps (flat_map (emitted (fieldName key)) ops ++ closing (fieldName key) ops))
    = if hasRangeOperator ops then [(fieldName key, VMap (boundsOf ops))] else []).
  { intros ops. rewrite rangeObjects_app, rangeObjects_flat_map, rangeObjects_closing.
    replace (flat_map (fun a => rangeObjects (VMaps (emitted (fieldName key) a))) ops)
      with (@nil (string * value)); [reflexivity|].
    induction ops as [|kv ops IH]; [reflexivity|].
    change (@nil (string * value)
            = rangeObjects (VMaps (emitted (fieldName key) kv))
                ++ flat_map (fun a => rangeObjects (VMaps (emitted (fieldName key) a)))
                     ops).
    now rewrite rangeObjects_emitted, <- IH. }
  destruct v; first [apply H | reflexivity].
Qed.

Lemma subFilters_none condition :
  subFilters condition = None ->
  lookup "$and" condition = None /\ lookup "$or" condition = None
  /\ lookup "$not" condition = None.
Proof.
  unfold subFilters.
  destruct (lookup "$and" condition); [discriminate|].
  destruct (lookup "$or" condition); [discriminate|].
  destruct (lookup "$not" condition); [discriminate|]. auto.
Qed.

Lemma subConditions_mapsOf (recur : gomap -> list gomap) (conditions : list value) :
  flat_map (subConditions recur) conditions = flat_map recur (mapsOf conditions).
Proof.
  unfold mapsOf. induction conditions as [|subCond rest IH]; [reflexivity|].
  cbn [flat_map]. rewrite IH, flat_map_app.
  destruct subCond; cbn [subConditions flat_map app]; try reflexivity.
  now rewrite app_nil_r.
Qed.

(** A filter with a logical key compiles to one [bool] over the clauses of
    its sub-filters, compiled one by one, or to nothing when there are
    none. *)
Lemma compiled_from_subFilters condition subs :
  subFilters condition = Some subs ->
  exists kind,
    buildMetadataFilterConditions condition
    = wrapBool kind (flat_map buildMetadataFilterConditions subs).
Proof.
  rewrite buildMetadataFilterConditions_eq. unfold subFilters, body.
  destruct condition as [|e rest]; [discriminate|].
  set (c := e :: rest).
  destruct (lookup "$and" c) as [andConditions|].
  { intros [= <-]. exists "must".
    destruct andConditions; try reflexivity. now rewrite subConditions_mapsOf. }
  destruct (lookup "$or" c) as [orConditions|].
  { intros [= <-]. exists "should".
    destruct orConditions; try reflexivity. now rewrite subConditions_mapsOf. }
  destruct (lookup "$not" c) as [notCondition|]; [|discriminate].
  intros [= <-]. exists "must_not".
  destruct notCondition; try reflexivity.
  cbn [flat_map]. now rewrite app_nil_r.
Qed.

Lemma count_occ_flat_map {A : Type} (f : A -> list string) (l : list A) (x : string) :
  count_occ string_dec (flat_map f l) x
  = list_sum (map (fun a => count_occ string_dec (f a) x) l).
Proof.
  induction l as [|a l IH]; [reflexivity|].
  cbn [flat_map map list_sum fold_right]. now rewrite count_occ_app, IH.
Qed.

(** C4, amended: folding happens per operator map.  In a filter without
    [$and]/[$or]/[$not] key, at the top or as a sub-filter, the range
    objects of the compiled filter are exactly one for each field whose
    value is an operator map holding at least one of [$gt], [$gte], [$lt],
    [$lte], with the bounds of that map; when the keys are distinct there is
    exactly one range object for such a field.  In a filter with [$and],
    else [$or], else [$not], the range objects are exactly those of its
    sub-filters compiled one by one, in order, at any depth: their number
    for a field is the sum over the sub-filters.  The bounds of an operator
    map are, for each of the four bounds, the operand the map gives for it,
    and nothing else. *)
Theorem C4_one_range_per_operator_map :
  forall condition : gomap,
    (subFilters condition = None ->
     rangeObjects (VMaps (buildMetadataFilterConditions condition))
     = flat_map entryRanges condition
     /\ (forall (key : string) (v : value) (ops : gomap),
           NoDup (keys condition) ->
           lookup key condition = Some v ->
           v = VMap ops \/ v = VFilter ops ->
           hasRangeOperator ops = true ->
           rangeObjectsFor (fieldName key) (buildMetadataFilterConditions condition) = 1
           /\ In (rangeNode (fieldName key) (boundsOf ops))
                 (buildMetadataFilterConditions condition)))
    /\ (forall subs : list gomap,
          subFilters condition = Some subs ->
          rangeObjects (VMaps (buildMetadataFilterConditions condition))
          = flat_map (fun sub => rangeObjects (VMaps (buildMetadataFilterConditions sub)))
              subs
          /\ (forall field,
                rangeObjectsFor field (buildMetadataFilterConditions condition)
                = list_sum
                    (map (fun sub =>
                            rangeObjectsFor field (buildMetadataFilterConditions sub))
                       subs)))
    /\ (forall ops : gomap,
          NoDup (keys ops) ->
          (forall op bound, rangeKey op = Some bound ->
             lookup bound (boundsOf ops) = lookup op ops)
          /\ (forall k, (forall op, rangeKey op <> Some k) ->
                lookup k (boundsOf ops) = None)).
Proof.
  intros condition. split; [|split].
  - intros Hsub. destruct (subFilters_none _ Hsub) as [Hand [Hor Hnot]].
    rewrite (fields_only _ Hand Hor Hnot), fieldConditions_clauses. split.
    + rewrite rangeObjects_flat_map. apply flat_map_ext. exact rangeObjects_entry.
    + intros key v ops Hnd Hk Hv Hr.
      pose proof (lookup_not_logical _ _ _ Hand Hor Hnot Hk) as Hlog.
      pose proof (lookup_in _ _ _ Hk) as Hin. split.
      * unfold rangeObjectsFor. rewrite rangeFields_flat_map.
        rewrite (flat_map_ext _ _ rangeFields_entry).
        eapply one_range_per_entry; eauto.
      * apply in_flat_map. exists (key, v). split; [assumption|].
        unfold entryClauses. rewrite Hlog.
        destruct Hv as [-> | ->]; apply in_or_app; right;
          rewrite (closing_range _ _ Hr); now left.
  - intros subs Hsub. destruct (compiled_from_subFilters _ _ Hsub) as [kind ->]. split.
    + now rewrite rangeObjects_wrapBool, rangeObjects_flat_map.
    + intros field. unfold rangeObjectsFor.
      now rewrite rangeFields_wrapBool, rangeFields_flat_map, count_occ_flat_map.
  - intros ops Hndo. split.
    + intros op bound Hb. unfold boundsOf.
      rewrite (bounds_lookup ops Hndo [] op bound Hb).
      destruct (lookup op ops); reflexivity.
    + intros k Hk'. unfold boundsOf. now rewrite bounds_only.
Qed.

(** The amended C4 at [{"page":{"$gte":1,"$lte":5}}], and at the same
    operator map inside an [$and], which keeps its one range object with
    both bounds. *)
Lemma C4_one_range_per_operator_map_witness :
  (rangeObjectsFor (fieldName "page")
     (buildMetadataFilterConditions Scenario.pageRange) = 1
   /\ In (rangeNode (fieldName "page") [("gte", VInt 1); ("lte", VInt 5)])
         (buildMetadataFilterConditions Scenario.pageRange))
  /\ rangeObjects (VMaps (buildMetadataFilterConditions Scenario.pageBetweenInside))
     = [(fieldName "page", VMap [("gte", VInt 1); ("lte", VInt 5)])].
Proof.
  assert (Hnd1 : NoDup (keys Scenario.pageRange)).
  { repeat constructor; simpl; tauto. }
  split.
  - exact (proj2 (proj1 (C4_one_range_per_operator_map Scenario.pageRange) eq_refl)
             "page" (VMap [("$gte", VInt 1); ("$lte", VInt 5)])
             [("$gte", VInt 1); ("$lte", VInt 5)]
             Hnd1 eq_refl (or_introl eq_refl) eq_refl).
  - rewrite (proj1 (proj1 (proj2 (C4_one_range_per_operator_map
                                    Scenario.pageBetweenInside))
                      [Scenario.pageRange] eq_refl)).
    cbn [flat_map].
    rewrite (proj1 (proj1 (C4_one_range_per_operator_map Scenario.pageRange) eq_refl)).
    reflexivity.
Defined.

(* ================================================================= *)
(** ** C7: [$in] lists on both paths *)

Lemma not_logical_lookups key v :
  isLogical key = false ->
  lookup "$and" [(key, v)] = None /\ lookup "$or" [(key, v)] = None
  /\ lookup "$not" [(key, v)] = None.
Proof.
  unfold isLogical. intros H.
  apply orb_false_elim in H. destruct H as [H Hnot].
  apply orb_false_elim in H. destruct H as [Hand Hor].
  cbn [lookup].
  rewrite (String.eqb_sym "$and"), (String.eqb_sym "$or"), (String.eqb_sym "$not").
  now rewrite Hand, Hor, Hnot.
Qed.

(** The descriptor path on a filter made of one [$in] condition, its
    operator map a [map[string]interface{}] or a [Filter]. *)
Lemma in_condition_descriptor key vs v :
  isLogical key = false -> vs <> [] ->
  v = VMap [("$in", VList vs)] \/ v = VFilter [("$in", VList vs)] ->
  buildMetadataFilterConditions [(key, v)]
  = [boolNode "should" (map (termNode (fieldName key)) vs)].
Proof.
  intros Hlog Hvs Hv. destruct (not_logical_lookups key v Hlog) as [Hand [Hor Hnot]].
  rewrite (fields_only _ Hand Hor Hnot), fieldConditions_clauses.
  cbn [flat_map entryClauses]. rewrite Hlog.
  destruct vs as [|x vs]; [contradiction|]. destruct Hv as [-> | ->]; reflexivity.
Qed.

(** The parser and the SQL compiler on the same filter. *)
Lemma in_condition_sql key vs v :
  isLogical key = false -> key <> "" -> vs <> [] ->
  v = VMap [("$in", VList vs)] \/ v = VFilter [("$in", VList vs)] ->
  BuildMetadataFilter Parser.specFilterBuilder (Some [(key, v)])
  = Ok ((SQL.jsonExtract key ++ " IN ("
          ++ String.concat ", " (map (fun _ : value => "?") vs) ++ ")")%string, vs).
Proof.
  intros Hlog Hkey Hvs Hv. unfold isLogical in Hlog.
  apply orb_false_elim in Hlog. destruct Hlog as [H Hnot].
  apply orb_false_elim in H. destruct H as [Hand Hor].
  apply String.eqb_neq in Hkey.
  cbn [BuildMetadataFilter Parser.specFilterBuilder Parser.parse].
  pose proof (map_depth_pos [(key, v)]) as Hpos.
  destruct (map_depth [(key, v)]) as [|fuel]; [lia|].
  cbn [Parser.parse_fuel map Parser.parseEntry]. rewrite Hand, Hor, Hnot.
  destruct vs as [|x vs]; [contradiction|].
  destruct Hv as [-> | ->];
    cbn [Parser.parseField map fst snd]; unfold Parser.condition; rewrite Hkey;
    reflexivity.
Qed.

(** C7, as stated, fails at [n = 0]: for [{"tag":{"$in":[]}}] the descriptor
    compiler emits no [bool.should] clause at all, and the SQL compiler
    rejects the empty list instead of binding zero arguments. *)
Lemma C7_empty_in_list :
  buildMetadataFilterConditions [("tag", VMap [("$in", VList [])])] = []
  /\ shouldClauses (buildMetadataFilterConditions [("tag", VMap [("$in", VList [])])]) = []
  /\ SQL.compileNode (SQL.FieldCondition "tag" SQL.IN (SQL.ListOf []))
     = Err (InvalidFilter "tag").
Proof. repeat split. Qed.

(** C7, amended: for every [$in] condition on a field (a key other than
    [$and], [$or], [$not]) whose value is a non-empty list of length [n],
    the SQL compiler binds exactly the [n] elements, in list order, and the
    descriptor compiler emits exactly one [bool.should] clause, whose
    children are the [n] term clauses of the elements, in list order; the
    same filter taken through the parser gives the same [n] arguments.  The
    operator map may be a [map[string]interface{}] or a [Filter]. *)
Theorem C7_in_list :
  forall (key : string) (vs : list value) (v : value),
    isLogical key = false -> vs <> [] ->
    v = VMap [("$in", VList vs)] \/ v = VFilter [("$in", VList vs)] ->
    (exists p, SQL.compileNode (SQL.FieldCondition key SQL.IN (SQL.ListOf vs)) = Ok p
               /\ SQL.args p = vs
               /\ SQL.clause p
                  = (SQL.jsonExtract key ++ " IN ("
                       ++ String.concat ", " (map (fun _ : value => "?") vs) ++ ")")%string
               /\ SQL.placeholders (String.concat ", " (map (fun _ : value => "?") vs))
                  = length vs)
    /\ (key <> "" ->
        exists cl, BuildMetadataFilter Parser.specFilterBuilder (Some [(key, v)])
                   = Ok (cl, vs))
    /\ buildMetadataFilterConditions [(key, v)]
       = [boolNode "should" (map (termNode (fieldName key)) vs)]
    /\ shouldClauses (buildMetadataFilterConditions [(key, v)])
       = [map (termNode (fieldName key)) vs]
    /\ length (map (termNode (fieldName key)) vs) = length vs.
Proof.
  intros key vs v Hlog Hvs Hv. split; [|split; [|split; [|split]]].
  - destruct vs as [|x vs]; [contradiction|].
    eexists. split; [reflexivity|]. split; [reflexivity|].
    split; [reflexivity|]. apply placeholders_list.
  - intros Hkey. eexists. apply in_condition_sql; assumption.
  - apply in_condition_descriptor; assumption.
  - rewrite (in_condition_descriptor key vs v) by assumption. reflexivity.
  - apply length_map.
Qed.

(** The amended C7 at [{"tag": Filter{"$in": ["ml","python"]}}], the knn
    filter of "hybrid search with logical operators". *)
Lemma C7_in_list_witness :
  buildMetadataFilterConditions
    [("tag", VFilter [("$in", VList [VStr "ml"; VStr "python"])])]
  = [boolNode "should" [termNode (fieldName "tag") (VStr "ml");
                        termNode (fieldName "tag") (VStr "python")]].
Proof.
  assert (Hne : [VStr "ml"; VStr "python"] <> []) by discriminate.
  exact (proj1 (proj2 (proj2
    (C7_in_list "tag" [VStr "ml"; VStr "python"]
       (VFilter [("$in", VList [VStr "ml"; VStr "python"])])
       eq_refl Hne (or_intror eq_refl))))).
Defined.

(* ================================================================= *)
(** ** C6: merged [$contains] conditions *)

Lemma containsQueries_conditions subs :
  containsQueries (map containsCondition subs) = subs.
Proof. induction subs as [|s subs IH]; simpl; congruence. Qed.

(** C6, as stated, fails on the empty list: [{"$and": []}] is a document
    filter whose top-level key is [$and] over a list of [$contains]
    conditions, and no [query_string] clause is emitted for it (nor for
    [{"$or": []}]). *)
Lemma C6_empty_list_no_clause :
  buildDocumentQuery (Some [("$and", VList (map containsCondition []))]) = None
  /\ buildDocumentQuery (Some [("$or", VList (map containsCondition []))]) = None.
Proof. split; reflexivity. Qed.

(** C6, amended: for every document filter whose only key is [$and] over a
    non-empty list of [{"$contains": s}] conditions, [buildDocumentQuery]
    returns the one clause
    [{"query_string": {"fields": ["document"], "query": q}}] with [q] the
    substrings joined by single spaces; with [$or] in place of [$and], [q]
    is the substrings joined by [" OR "]. *)
Theorem C6_contains_merged :
  forall subs : list string,
    subs <> [] ->
    buildDocumentQuery (Some [("$and", VList (map containsCondition subs))])
    = Some (queryString (VStr (String.concat " " subs)))
    /\ buildDocumentQuery (Some [("$or", VList (map containsCondition subs))])
       = Some (queryString (VStr (String.concat " OR " subs))).
Proof.
  intros subs Hne. unfold buildDocumentQuery, joinedContains.
  cbn [entries lookup String.eqb Ascii.eqb Bool.eqb].
  rewrite containsQueries_conditions.
  destruct subs as [|s subs]; [contradiction|]. split; reflexivity.
Qed.

(** The amended C6 at the document filter of "hybrid search with logical
    operators". *)
Lemma C6_contains_merged_witness :
  buildDocumentQuery
    (Some [("$and", VList [containsCondition "machine"; containsCondition "learning"])])
  = Some (queryString (VStr "machine learning")).
Proof.
  assert (Hne : ["machine"; "learning"] <> []) by discriminate.
  exact (proj1 (C6_contains_merged ["machine"; "learning"] Hne)).
Defined.

(* ================================================================= *)
(** ** C1: [$regex] on the hybrid-search path *)

Lemma buildSearchParm_without_knn query rank nResults embFunc :
  exists searchParm, buildSearchParm query None rank nResults embFunc = Ok searchParm.
Proof. unfold buildSearchParm. cbn [bind]. eexists. reflexivity. Qed.

(** C1, as stated, fails: a hybrid search whose document filter is
    [{"$regex": ".*machine.*"}] does not fail; the request is built without
    error and without a query section, the condition dropped. *)
Lemma C1_regex_dropped_without_error :
  buildDocumentQuery (HybridSearchQuery.WhereDocument Scenario.regexQuery) = None
  /\ buildSearchParm (Some Scenario.regexQuery) None None 5 None
     = Ok [("size", VInt 5)].
Proof. split; reflexivity. Qed.

(** C1, amended: on the hybrid-search path a [$regex] operator raises no
    error.  [buildDocumentQuery] has no error result and does not read the
    [$regex] entry, at the top of the filter or in an [$and]/[$or] list; for
    a document filter whose only key is [$regex] it returns nil,
    [buildQueryExpression] then returns nil whatever the metadata filter,
    and [buildSearchParm] (without a knn block) succeeds with a request that
    has no query section. *)
Theorem C1_regex_ignored :
  forall (pattern : value),
    (forall rest : gomap,
        buildDocumentQuery (Some (("$regex", pattern) :: rest))
        = buildDocumentQuery (Some rest))
    /\ (forall conditions : list value,
          containsQueries (VMap [("$regex", pattern)] :: conditions)
          = containsQueries conditions)
    /\ buildDocumentQuery (Some [("$regex", pattern)]) = None
    /\ (forall where_ n,
           buildQueryExpression
             (HybridSearchQuery.mk (Some [("$regex", pattern)]) where_ n) = None)
    /\ (forall where_ n rank nResults embFunc,
           exists searchParm,
             buildSearchParm
               (Some (HybridSearchQuery.mk (Some [("$regex", pattern)]) where_ n))
               None rank nResults embFunc = Ok searchParm
             /\ lookup "query" searchParm = None).
Proof.
  intros pattern.
  assert (Hq : forall where_ n,
             buildQueryExpression
               (HybridSearchQuery.mk (Some [("$regex", pattern)]) where_ n) = None)
    by reflexivity.
  split; [|split; [reflexivity|split; [reflexivity|split; [exact Hq|]]]].
  - intros [|e rest]; reflexivity.
  - intros where_ n rank nResults embFunc. unfold buildSearchParm. rewrite Hq.
    cbn [bind]. eexists. split; [reflexivity|].
    destruct (0 <? nResults)%Z; destruct rank as [r|];
      try destruct (rankExpression r); reflexivity.
Qed.

(* ================================================================= *)
(** ** C5: query texts without an embedding function *)

Lemma resolve_without_embedding knn :
  HybridSearchKNN.QueryTexts knn <> [] ->
  HybridSearchKNN.QueryEmbeddings knn = [] ->
  resolveQueryVector knn None
  = Err (Wrapped "knn.query_texts provided but no embedding function"
                 ErrEmbeddingFunctionRequired).
Proof.
  intros Ht He. unfold resolveQueryVector. rewrite He.
  destruct (HybridSearchKNN.QueryTexts knn); [contradiction|reflexivity].
Qed.

(** C5: when [knn.QueryTexts] is non-empty, [knn.QueryEmbeddings] is absent
    and the embedding function is nil, [buildKNNExpression] fails with an
    error that [errors.Is] the sentinel [ErrEmbeddingFunctionRequired];
    [buildSearchParm] returns that error, whatever the query and rank; and
    [collectionHybridSearch] returns it wrapped once more without having
    sent anything over the connection, whatever the collaborators are. *)
Theorem C5_embedding_function_required :
  forall knn : HybridSearchKNN.t,
    HybridSearchKNN.QueryTexts knn <> [] ->
    HybridSearchKNN.QueryEmbeddings knn = [] ->
    (exists e, buildKNNExpression knn None = Err e
               /\ errors_Is e ErrEmbeddingFunctionRequired = true)
    /\ (forall query rank nResults,
          exists e, buildSearchParm query (Some knn) rank nResults None = Err e
                    /\ errors_Is e ErrEmbeddingFunctionRequired = true)
    /\ (forall json_Marshal trimGeneratedSQL (Rows : Type)
               conn_Begin tx_Execute tx_QueryRow (tx_Query : _ -> _ -> result Rows)
               tx_Commit transformHybridSearchResults
               collectionName query rank nResults,
          exists e,
            collectionHybridSearch json_Marshal trimGeneratedSQL Rows
              conn_Begin tx_Execute tx_QueryRow tx_Query tx_Commit
              transformHybridSearchResults
              collectionName query (Some knn) rank nResults None
            = ([], Err e)
            /\ errors_Is e ErrEmbeddingFunctionRequired = true).
Proof.
  intros knn Ht He.
  assert (Hk : buildKNNExpression knn None
               = Err (Wrapped "knn.query_texts provided but no embedding function"
                              ErrEmbeddingFunctionRequired)).
  { unfold buildKNNExpression. now rewrite resolve_without_embedding. }
  assert (Hs : forall query rank nResults,
             buildSearchParm query (Some knn) rank nResults None
             = Err (Wrapped "knn.query_texts provided but no embedding function"
                            ErrEmbeddingFunctionRequired)).
  { intros. unfold buildSearchParm. rewrite Hk. reflexivity. }
  split; [|split].
  - eexists. split; [exact Hk|reflexivity].
  - intros. eexists. split; [apply Hs|reflexivity].
  - intros. unfold collectionHybridSearch. rewrite Hs.
    eexists. split; reflexivity.
Qed.

(** C5 at [knn.queryTexts = ["x"]]. *)
Lemma C5_embedding_function_required_witness :
  exists e, buildSearchParm None (Some Scenario.textOnlyKNN) None 5 None = Err e
            /\ errors_Is e ErrEmbeddingFunctionRequired = true.
Proof.
  assert (Ht : HybridSearchKNN.QueryTexts Scenario.textOnlyKNN <> []) by discriminate.
  exact (proj1 (proj2 (C5_embedding_function_required Scenario.textOnlyKNN Ht eq_refl))
           None None 5%Z).
Defined.

(* ================================================================= *)
(** ** C8: the sections of an assembled request *)

(** C8, as stated, fails: with no query, no knn block and no rank,
    [buildSearchParm] assembles the request [{"size": 5}], which has neither
    a query nor a knn section; so it does for a query whose filters are both
    empty. *)
Lemma C8_request_without_sections :
  buildSearchParm None None None 5 None = Ok [("size", VInt 5)]
  /\ lookup "query" [("size", VInt 5)] = None
  /\ lookup "knn" [("size", VInt 5)] = None
  /\ buildSearchParm (Some (HybridSearchQuery.mk (Some []) None 5)) None None 5 None
     = Ok [("size", VInt 5)].
Proof. repeat split. Qed.

Lemma inTransaction_starts (trimGeneratedSQL : string -> string) (Rows : Type)
    tx_Execute tx_QueryRow (tx_Query : list request -> string -> result Rows)
    tx_Commit transformHybridSearchResults tableName escapedParams sent :
  exists more,
    fst (inTransaction trimGeneratedSQL Rows tx_Execute tx_QueryRow tx_Query tx_Commit
           transformHybridSearchResults tableName escapedParams sent)
    = sent ++ ReqExecute ("SET @search_parm = '" ++ escapedParams ++ "'") :: more.
Proof.
  unfold inTransaction.
  destruct (tx_Execute _ _); [|exists []; reflexivity].
  destruct (tx_QueryRow _ _) as [[[|c s]|]|];
    try (eexists; cbn [fst]; rewrite <- app_assoc; reflexivity).
  destruct (tx_Query _ _); [|eexists; cbn [fst]; rewrite <- !app_assoc; reflexivity].
  destruct (transformHybridSearchResults _);
    [|eexists; cbn [fst]; rewrite <- !app_assoc; reflexivity].
  destruct (tx_Commit _); eexists; cbn [fst]; rewrite <- !app_assoc; reflexivity.
Qed.

(** C8, amended: a request assembled by [buildSearchParm] has a query
    section exactly when a query was given and [buildQueryExpression]
    returned a non-nil expression for it, and a knn section exactly when a
    knn block was given and [buildKNNExpression] returned a non-nil
    expression for it; nothing requires either.  Whatever sections it has,
    once it is marshalled and the transaction has begun,
    [collectionHybridSearch] sends it in [SET @search_parm = '...']. *)
Theorem C8_sections_as_built :
  forall query knn rank nResults embFunc searchParm,
    buildSearchParm query knn rank nResults embFunc = Ok searchParm ->
    lookup "query" searchParm
    = match query with
      | Some q => option_map VMap (buildQueryExpression q)
      | None => None
      end
    /\ lookup "knn" searchParm
       = match knn with
         | Some kn =>
             match buildKNNExpression kn embFunc with
             | Ok (Some knnExpr) => Some (VMap knnExpr)
             | _ => None
             end
         | None => None
         end
    /\ (forall json_Marshal trimGeneratedSQL (Rows : Type)
               conn_Begin tx_Execute tx_QueryRow (tx_Query : _ -> _ -> result Rows)
               tx_Commit transformHybridSearchResults collectionName searchParmJSON,
          json_Marshal searchParm = Ok searchParmJSON ->
          conn_Begin [] = Ok tt ->
          exists more,
            fst (collectionHybridSearch json_Marshal trimGeneratedSQL Rows
                   conn_Begin tx_Execute tx_QueryRow tx_Query tx_Commit
                   transformHybridSearchResults
                   collectionName query knn rank nResults embFunc)
            = ReqBegin
              :: ReqExecute ("SET @search_parm = '" ++ escapeQuotes searchParmJSON ++ "'")
              :: more).
Proof.
  intros query knn rank nResults embFunc searchParm H.
  split; [|split].
  - unfold buildSearchParm in H.
    destruct knn as [kn|]; cbn [bind] in H;
      [destruct (buildKNNExpression kn embFunc) as [[knnExpr|]|]; cbn [bind] in H;
       [| |discriminate]|];
      destruct query as [q|]; try destruct (buildQueryExpression q);
      destruct (0 <? nResults)%Z; destruct rank as [r|];
      try destruct (rankExpression r);
      inversion H; subst; reflexivity.
  - unfold buildSearchParm in H.
    destruct knn as [kn|]; cbn [bind] in H;
      [destruct (buildKNNExpression kn embFunc) as [[knnExpr|]|]; cbn [bind] in H;
       [| |discriminate]|];
      destruct query as [q|]; try destruct (buildQueryExpression q);
      destruct (0 <? nResults)%Z; destruct rank as [r|];
      try destruct (rankExpression r);
      inversion H; subst; reflexivity.
  - intros json_Marshal trimGeneratedSQL Rows conn_Begin tx_Execute tx_QueryRow
           tx_Query tx_Commit transform collectionName js Hm Hb.
    unfold collectionHybridSearch. rewrite H, Hm, Hb.
    destruct (inTransaction_starts trimGeneratedSQL Rows tx_Execute tx_QueryRow tx_Query
                tx_Commit transform (GetTableName collectionName) (escapeQuotes js)
                [ReqBegin]) as [more Hmore].
    destruct (inTransaction _ _ _ _ _ _ _ _ _ _) as [sent res]. cbn [fst] in *.
    subst sent. exists (more ++ [ReqRollback]). reflexivity.
Qed.

(** The amended C8 at the empty call: the request [{"size": 5}] is built
    with neither section. *)
Lemma C8_sections_as_built_witness :
  lookup "query" [("size", VInt 5)] = None /\ lookup "knn" [("size", VInt 5)] = None.
Proof.
  destruct (C8_sections_as_built None None None 5%Z None [("size", VInt 5)] eq_refl)
    as [Hq [Hk _]].
  split; [exact Hq | exact Hk].
Defined.

(* ================================================================= *)
(** ** C9: nil and empty filters *)

Lemma addFilter_error build filter acc e :
  Get.addFilter build filter acc = Err e <-> filter <> None /\ build filter = Err e.
Proof.
  unfold Get.addFilter. destruct filter as [m|].
  - destruct (build (Some m)) as [[cl a]|e']; cbn [bind].
    + destruct (cl =? ""); split; try discriminate; intros [_ H]; discriminate.
    + split; [intros [= ->]; split; [discriminate|reflexivity]|].
      intros [_ [= ->]]. reflexivity.
  - split; [discriminate|]. intros [H _]. contradiction.
Qed.

Lemma addFilter_success build filter acc acc' :
  Get.addFilter build filter acc = Ok acc' ->
  filter = None \/ exists built, build filter = Ok built.
Proof.
  unfold Get.addFilter. destruct filter as [m|]; [|now left].
  destruct (build (Some m)) as [built|e']; cbn [bind]; [|discriminate].
  intros _. right. now exists built.
Qed.

Lemma addFilter_total build filter acc :
  filter = None \/ (exists built, build filter = Ok built) ->
  exists acc', Get.addFilter build filter acc = Ok acc'.
Proof.
  unfold Get.addFilter. intros [-> | [[cl a] H]]; [eauto|].
  destruct filter as [m|]; [|eauto]. rewrite H. cbn [bind].
  destruct (cl =? ""); eauto.
Qed.

(** The statement of [collectionGet] is the [fmt.Sprintf] template filled
    with the table name and the conditions joined by [AND]. *)
Lemma collectionGet_text fb name ids opts st :
  Get.collectionGet fb name ids opts = Ok st ->
  Get.querySQL st
  = (Get.nl ++ Get.tab ++ Get.tab ++ "SELECT _id, document, metadata, embedding"
     ++ Get.nl ++ Get.tab ++ Get.tab ++ "FROM " ++ GetTableName name
     ++ Get.nl ++ Get.tab ++ Get.tab
     ++ match Get.conditions st with
        | [] => ""
        | _ :: _ => "WHERE " ++ String.concat " AND " (Get.conditions st)
        end
     ++ Get.nl ++ Get.tab ++ Get.tab ++ "LIMIT ? OFFSET ?"
     ++ Get.nl ++ Get.tab)%string
  /\ exists args,
       Get.queryArgs st
       = args ++ [VInt (Get.effectiveLimit opts); VInt (GetOptions.Offset opts)].
Proof.
  unfold Get.collectionGet.
  destruct (Get.addFilter (BuildMetadataFilter fb) _ _) as [acc1|];
    cbn [bind]; [|discriminate].
  destruct (Get.addFilter (BuildDocumentFilter fb) _ acc1) as [[conds args]|];
    cbn [bind]; [|discriminate].
  intros H.
  pose proof (f_equal (fun r => match r with Ok s => s | Err _ => st end) H) as Hst.
  cbv beta iota zeta in Hst. subst st. cbn [Get.querySQL Get.conditions Get.queryArgs].
  split; [reflexivity|]. now exists args.
Qed.

(** [collectionGet] reaches the connection unless the builder fails on a
    filter that is not nil. *)
Lemma collectionGet_total fb name ids opts :
  (GetOptions.Where opts = None
   \/ exists built, BuildMetadataFilter fb (GetOptions.Where opts) = Ok built) ->
  (GetOptions.WhereDocument opts = None
   \/ exists built, BuildDocumentFilter fb (GetOptions.WhereDocument opts) = Ok built) ->
  exists st, Get.collectionGet fb name ids opts = Ok st.
Proof.
  intros Hw Hd.
  destruct (addFilter_total _ _ (Get.idFilter ids) Hw) as [acc1 E1].
  destruct (addFilter_total _ _ acc1 Hd) as [[conds args] E2].
  unfold Get.collectionGet. rewrite E1. cbn [bind]. rewrite E2. cbn [bind].
  eexists. reflexivity.
Qed.

Lemma len_filter_zero (f : Filter) : len_filter f = 0 -> f = None \/ f = Some [].
Proof.
  destruct f as [[|e m]|]; simpl; intros H; auto. discriminate.
Qed.

(** [collectionGet] when neither filter contributes a clause. *)
Lemma get_without_filter_clauses fb name ids opts :
  (GetOptions.Where opts = None
   \/ exists a, BuildMetadataFilter fb (GetOptions.Where opts) = Ok ("", a)) ->
  (GetOptions.WhereDocument opts = None
   \/ exists a, BuildDocumentFilter fb (GetOptions.WhereDocument opts) = Ok ("", a)) ->
  exists st,
    Get.collectionGet fb name ids opts = Ok st
    /\ Get.querySQL st
       = (Get.nl ++ Get.tab ++ Get.tab ++ "SELECT _id, document, metadata, embedding"
          ++ Get.nl ++ Get.tab ++ Get.tab ++ "FROM " ++ GetTableName name
          ++ Get.nl ++ Get.tab ++ Get.tab
          ++ match ids with
             | [] => ""
             | _ :: _ =>
                 "WHERE _id IN ("
                   ++ String.concat ", " (map (fun _ : string => "?") ids) ++ ")"
             end
          ++ Get.nl ++ Get.tab ++ Get.tab ++ "LIMIT ? OFFSET ?"
          ++ Get.nl ++ Get.tab)%string
    /\ Get.conditions st = fst (Get.idFilter ids)
    /\ Get.queryArgs st
       = map VStr ids ++ [VInt (Get.effectiveLimit opts); VInt (GetOptions.Offset opts)]
    /\ (ids = [] -> Get.whereClause st = "").
Proof.
  intros Hw Hd. unfold Get.collectionGet.
  assert (Hw' : Get.addFilter (BuildMetadataFilter fb) (GetOptions.Where opts)
                  (Get.idFilter ids) = Ok (Get.idFilter ids)).
  { unfold Get.addFilter. destruct Hw as [->|[a Ha]]; [reflexivity|].
    destruct (GetOptions.Where opts); [|reflexivity]. now rewrite Ha. }
  assert (Hd' : Get.addFilter (BuildDocumentFilter fb) (GetOptions.WhereDocument opts)
                  (Get.idFilter ids) = Ok (Get.idFilter ids)).
  { unfold Get.addFilter. destruct Hd as [->|[a Ha]]; [reflexivity|].
    destruct (GetOptions.WhereDocument opts); [|reflexivity]. now rewrite Ha. }
  rewrite Hw'. cbn [bind]. rewrite Hd'. cbn [bind].
  destruct ids as [|i ids].
  - eexists. cbn [Get.idFilter]. repeat split.
  - eexists. cbn [Get.idFilter]. split; [reflexivity|].
    cbn [Get.querySQL Get.conditions Get.queryArgs Get.whereClause fst].
    split; [|repeat split; intros; discriminate].
    cbn [String.concat map]. rewrite !append_assoc. reflexivity.
Qed.

(** C9: for a nil or empty filter ([len] zero) both compilers produce no
    predicate.  On the SQL path the builder returns the empty clause with no
    arguments for either kind of filter.  With such filters, and with every
    builder that returns the empty clause for them, [collectionGet] does
    send a statement, and that statement is the [SELECT] in which nothing
    but the ids stands between [FROM] and [LIMIT]: without ids the line is
    empty and the statement has no [WHERE]; the arguments are the ids, the
    limit and the offset.  On the descriptor path
    [buildMetadataFilterForSearchParm] returns the empty list, no
    always-true node. *)
Theorem C9_empty_filter_no_predicate :
  forall (where_ whereDocument : Filter),
    len_filter where_ = 0 -> len_filter whereDocument = 0 ->
    SQL.compile None = Ok (SQL.mkPredicate "" [])
    /\ Parser.parse where_ = Ok None
    /\ BuildMetadataFilter Parser.specFilterBuilder where_ = Ok ("", [])
    /\ BuildDocumentFilter Parser.specFilterBuilder whereDocument = Ok ("", [])
    /\ (forall fb name ids limit offset include,
          (where_ = None \/ exists a, BuildMetadataFilter fb where_ = Ok ("", a)) ->
          (whereDocument = None
           \/ exists a, BuildDocumentFilter fb whereDocument = Ok ("", a)) ->
          exists st,
            Get.collectionGet fb name ids
              (GetOptions.mk where_ whereDocument limit offset include) = Ok st
            /\ Get.querySQL st
               = (Get.nl ++ Get.tab ++ Get.tab
                  ++ "SELECT _id, document, metadata, embedding"
                  ++ Get.nl ++ Get.tab ++ Get.tab ++ "FROM " ++ GetTableName name
                  ++ Get.nl ++ Get.tab ++ Get.tab
                  ++ match ids with
                     | [] => ""
                     | _ :: _ =>
                         "WHERE _id IN ("
                           ++ String.concat ", " (map (fun _ : string => "?") ids)
                           ++ ")"
                     end
                  ++ Get.nl ++ Get.tab ++ Get.tab ++ "LIMIT ? OFFSET ?"
                  ++ Get.nl ++ Get.tab)%string
            /\ Get.conditions st = fst (Get.idFilter ids)
            /\ Get.queryArgs st
               = map VStr ids
                   ++ [VInt (if (limit =? 0)%Z then 1000%Z else limit); VInt offset]
            /\ (ids = [] -> Get.whereClause st = ""))
    /\ (forall name limit offset include,
          exists st,
            Get.collectionGet Parser.specFilterBuilder name []
              (GetOptions.mk where_ whereDocument limit offset include) = Ok st
            /\ Get.querySQL st
               = (Get.nl ++ Get.tab ++ Get.tab
                  ++ "SELECT _id, document, metadata, embedding"
                  ++ Get.nl ++ Get.tab ++ Get.tab ++ "FROM " ++ GetTableName name
                  ++ Get.nl ++ Get.tab ++ Get.tab
                  ++ Get.nl ++ Get.tab ++ Get.tab ++ "LIMIT ? OFFSET ?"
                  ++ Get.nl ++ Get.tab)%string
            /\ Get.queryArgs st
               = [VInt (if (limit =? 0)%Z then 1000%Z else limit); VInt offset])
    /\ buildMetadataFilterForSearchParm where_ = []
    /\ buildMetadataFilterConditions (entries where_) = [].
Proof.
  intros where_ whereDocument Hw Hd.
  apply len_filter_zero in Hw. apply len_filter_zero in Hd.
  assert (Hbw : BuildMetadataFilter Parser.specFilterBuilder where_ = Ok ("", []))
    by (destruct Hw as [-> | ->]; reflexivity).
  assert (Hbd : BuildDocumentFilter Parser.specFilterBuilder whereDocument = Ok ("", []))
    by (destruct Hd as [-> | ->]; reflexivity).
  split; [reflexivity|]. split; [destruct Hw as [-> | ->]; reflexivity|].
  split; [exact Hbw|]. split; [exact Hbd|].
  split; [|split; [|split; destruct Hw as [-> | ->]; reflexivity]].
  - intros fb name ids limit offset include Hfw Hfd.
    exact (get_without_filter_clauses fb name ids
             (GetOptions.mk where_ whereDocument limit offset include) Hfw Hfd).
  - intros name limit offset include.
    destruct (get_without_filter_clauses Parser.specFilterBuilder name []
                (GetOptions.mk where_ whereDocument limit offset include))
      as [st [Hst [Ht [_ [Ha _]]]]].
    + right. exists []. exact Hbw.
    + right. exists []. exact Hbd.
    + exists st. split; [exact Hst|]. split; [exact Ht|exact Ha].
Qed.

(** C9 at the empty, non-nil filter [Filter{}] for both options: the
    statement of an unfiltered [Get] on the collection [docs]. *)
Lemma C9_empty_filter_no_predicate_witness :
  BuildMetadataFilter Parser.specFilterBuilder (Some []) = Ok ("", [])
  /\ buildMetadataFilterForSearchParm (Some []) = []
  /\ exists st,
       Get.collectionGet Parser.specFilterBuilder "docs" []
         (GetOptions.mk (Some []) (Some []) 0 0 []) = Ok st
       /\ Get.querySQL st
          = (Get.nl ++ Get.tab ++ Get.tab
             ++ "SELECT _id, document, metadata, embedding"
             ++ Get.nl ++ Get.tab ++ Get.tab ++ "FROM c$v1$docs"
             ++ Get.nl ++ Get.tab ++ Get.tab
             ++ Get.nl ++ Get.tab ++ Get.tab ++ "LIMIT ? OFFSET ?"
             ++ Get.nl ++ Get.tab)%string
       /\ Get.queryArgs st = [VInt 1000; VInt 0].
Proof.
  destruct (C9_empty_filter_no_predicate (Some []) (Some []) eq_refl eq_refl)
    as [_ [_ [Hb [_ [_ [Hs [Hd _]]]]]]].
  split; [exact Hb|]. split; [exact Hd|].
  exact (Hs "docs" 0%Z 0%Z []).
Defined.

(* ================================================================= *)
(** ** C10: the default limit of [Get] *)

(** C10: when the options leave [Limit] at 0, [collectionGet] builds exactly
    the statement it builds for [Limit] 1000.  Unless the filter builder
    fails on a filter that is not nil, a statement is sent: it is the
    [SELECT] ending in [LIMIT ? OFFSET ?], and the argument bound to [LIMIT]
    is 1000.  In particular a [Get] without filters always sends its
    statement, with the ids, 1000 and the offset as arguments.  Hence [Get]
    without [WithLimit], with [WithLimit(0)] and with [WithLimit(1000)] as
    the last option cannot be told apart. *)
Theorem C10_default_limit :
  forall fb name ids opts,
    GetOptions.Limit opts = 0%Z ->
    Get.collectionGet fb name ids opts
    = Get.collectionGet fb name ids (WithLimit 1000 opts)
    /\ ((GetOptions.Where opts = None
         \/ exists built, BuildMetadataFilter fb (GetOptions.Where opts) = Ok built) ->
        (GetOptions.WhereDocument opts = None
         \/ exists built,
              BuildDocumentFilter fb (GetOptions.WhereDocument opts) = Ok built) ->
        exists st args,
          Get.collectionGet fb name ids opts = Ok st
          /\ Get.queryArgs st = args ++ [VInt 1000; VInt (GetOptions.Offset opts)]
          /\ Get.querySQL st
             = (Get.nl ++ Get.tab ++ Get.tab
                ++ "SELECT _id, document, metadata, embedding"
                ++ Get.nl ++ Get.tab ++ Get.tab ++ "FROM " ++ GetTableName name
                ++ Get.nl ++ Get.tab ++ Get.tab
                ++ match Get.conditions st with
                   | [] => ""
                   | _ :: _ => "WHERE " ++ String.concat " AND " (Get.conditions st)
                   end
                ++ Get.nl ++ Get.tab ++ Get.tab ++ "LIMIT ? OFFSET ?"
                ++ Get.nl ++ Get.tab)%string)
    /\ (GetOptions.Where opts = None -> GetOptions.WhereDocument opts = None ->
        exists st,
          Get.collectionGet fb name ids opts = Ok st
          /\ Get.queryArgs st
             = map VStr ids ++ [VInt 1000; VInt (GetOptions.Offset opts)]
          /\ Get.querySQL st
             = (Get.nl ++ Get.tab ++ Get.tab
                ++ "SELECT _id, document, metadata, embedding"
                ++ Get.nl ++ Get.tab ++ Get.tab ++ "FROM " ++ GetTableName name
                ++ Get.nl ++ Get.tab ++ Get.tab
                ++ match ids with
                   | [] => ""
                   | _ :: _ =>
                       "WHERE _id IN ("
                         ++ String.concat ", " (map (fun _ : string => "?") ids)
                         ++ ")"
                   end
                ++ Get.nl ++ Get.tab ++ Get.tab ++ "LIMIT ? OFFSET ?"
                ++ Get.nl ++ Get.tab)%string)
    /\ (forall st, Get.collectionGet fb name ids opts = Ok st ->
          exists args head,
            Get.queryArgs st = args ++ [VInt 1000; VInt (GetOptions.Offset opts)]
            /\ Get.querySQL st
               = (head ++ "LIMIT ? OFFSET ?" ++ Get.nl ++ Get.tab)%string)
    /\ Get.Get fb name ids [] = Get.Get fb name ids [WithLimit 0]
    /\ (forall os, Get.Get fb name ids (os ++ [WithLimit 0])
                   = Get.Get fb name ids (os ++ [WithLimit 1000]))
    /\ (exists st,
          Get.Get fb name ids [] = Ok st
          /\ Get.queryArgs st = map VStr ids ++ [VInt 1000; VInt 0]).
Proof.
  intros fb name ids opts Hl.
  assert (Hsame : forall o, GetOptions.Limit o = 0%Z ->
            Get.collectionGet fb name ids o
            = Get.collectionGet fb name ids (WithLimit 1000 o)).
  { intros o Ho. unfold Get.collectionGet, Get.effectiveLimit, WithLimit.
    cbn [GetOptions.Where GetOptions.WhereDocument GetOptions.Limit GetOptions.Offset].
    rewrite Ho. reflexivity. }
  assert (Hlim : Get.effectiveLimit opts = 1000%Z)
    by (unfold Get.effectiveLimit; now rewrite Hl).
  split; [auto|]. split; [|split; [|split; [|split; [|split]]]].
  - intros Hw Hd.
    destruct (collectionGet_total fb name ids opts Hw Hd) as [st Hst].
    destruct (collectionGet_text _ _ _ _ _ Hst) as [Ht [args' Ha]].
    exists st, args'. split; [exact Hst|]. split; [|exact Ht].
    now rewrite Ha, Hlim.
  - intros Hw Hd.
    destruct (get_without_filter_clauses fb name ids opts (or_introl Hw) (or_introl Hd))
      as [st [Hst [Ht [_ [Ha _]]]]].
    exists st. split; [exact Hst|]. split; [|exact Ht]. now rewrite Ha, Hlim.
  - intros st Hst. destruct (collectionGet_text _ _ _ _ _ Hst) as [Ht [args Ha]].
    exists args.
    exists (Get.nl ++ Get.tab ++ Get.tab ++ "SELECT _id, document, metadata, embedding"
            ++ Get.nl ++ Get.tab ++ Get.tab ++ "FROM " ++ GetTableName name
            ++ Get.nl ++ Get.tab ++ Get.tab
            ++ match Get.conditions st with
               | [] => ""
               | _ :: _ => "WHERE " ++ String.concat " AND " (Get.conditions st)
               end
            ++ Get.nl ++ Get.tab ++ Get.tab)%string.
    split; [now rewrite Ha, Hlim|].
    rewrite Ht, !append_assoc. reflexivity.
  - reflexivity.
  - intros os. unfold Get.Get. rewrite !fold_left_app. cbn [fold_left].
    rewrite (Hsame (WithLimit 0 _)) by reflexivity. reflexivity.
  - destruct (get_without_filter_clauses fb name ids GetOptions.zero
                (or_introl eq_refl) (or_introl eq_refl))
      as [st [Hst [_ [_ [Ha _]]]]].
    exists st. split; [exact Hst|exact Ha].
Qed.

(** C10 at [Get] with no option at all on the collection [docs]: the
    statement is sent with the arguments 1000 and 0. *)
Lemma C10_default_limit_witness :
  exists st,
    Get.collectionGet Parser.specFilterBuilder "docs" [] GetOptions.zero = Ok st
    /\ Get.queryArgs st = [VInt 1000; VInt 0]
    /\ Get.querySQL st
       = (Get.nl ++ Get.tab ++ Get.tab
          ++ "SELECT _id, document, metadata, embedding"
          ++ Get.nl ++ Get.tab ++ Get.tab ++ "FROM c$v1$docs"
          ++ Get.nl ++ Get.tab ++ Get.tab
          ++ Get.nl ++ Get.tab ++ Get.tab ++ "LIMIT ? OFFSET ?"
          ++ Get.nl ++ Get.tab)%string.
Proof.
  exact (proj1 (proj2 (proj2 (C10_default_limit Parser.specFilterBuilder "docs" []
                                GetOptions.zero eq_refl)))
           eq_refl eq_refl).
Defined.

(* ================================================================= *)
(** ** C2: placeholders and arguments *)

Section Placeholders.
Import SQL.


Lemma concat_empty_cons (s : string) (l : list string) :
  String.concat "" (s :: l) = (s ++ String.concat "" l)%string.
Proof. destruct l; simpl; [now rewrite append_nil_r|reflexivity]. Qed.








Section WithExpression.
Variable expr : string -> string.














End WithExpression.


End Placeholders.

(** One filter block of [collectionGet] only ever appends. *)
Lemma addFilter_appends build filter acc acc' :
  Get.addFilter build filter acc = Ok acc' ->
  exists clauses filterArgs,
    acc' = (fst acc ++ clauses, snd acc ++ filterArgs)
    /\ (filterArgs = [] \/ exists cl, build filter = Ok (cl, filterArgs)).
Proof.
  unfold Get.addFilter. destruct acc as [conds args]. cbn [fst snd].
  destruct filter as [m|].
  - destruct (build (Some m)) as [[cl a]|] eqn:Eb; cbn [bind]; [|discriminate].
    destruct (cl =? ""); intros [= <-].
    + exists [], []. rewrite !app_nil_r. auto.
    + exists [cl], a. split; [reflexivity|]. right. now exists cl.
  - intros [= <-]. exists [], []. rewrite !app_nil_r. auto.
Qed.

Lemma concat_and_cons (c : string) (more : list string) :
  String.concat " AND " (c :: more)
  = (c ++ String.concat "" (map (fun x => " AND " ++ x) more))%string.
Proof.
  revert c. induction more as [|d more IH]; intros c.
  - cbn [String.concat map]. now rewrite append_nil_r.
  - change (String.concat " AND " (c :: d :: more))
      with (c ++ " AND " ++ String.concat " AND " (d :: more))%string.
    rewrite IH. cbn [map]. rewrite concat_empty_cons, !append_assoc. reflexivity.
Qed.

(** The ids of [collectionGet] come first, one placeholder each. *)
Lemma get_ids_first fb name ids opts st :
  ids <> [] ->
  Get.collectionGet fb name ids opts = Ok st ->
  exists more whereArgs docArgs,
    Get.conditions st
    = ("_id IN (" ++ String.concat ", " (map (fun _ : string => "?") ids) ++ ")")%string
      :: more
    /\ Get.queryArgs st
       = map VStr ids ++ whereArgs ++ docArgs
           ++ [VInt (Get.effectiveLimit opts); VInt (GetOptions.Offset opts)]
    /\ (whereArgs = []
        \/ exists cl, BuildMetadataFilter fb (GetOptions.Where opts) = Ok (cl, whereArgs))
    /\ (docArgs = []
        \/ exists cl, BuildDocumentFilter fb (GetOptions.WhereDocument opts)
                      = Ok (cl, docArgs)).
Proof.
  intros Hids H. unfold Get.collectionGet in H.
  destruct (Get.addFilter (BuildMetadataFilter fb) _ _) as [acc1|] eqn:E1;
    cbn [bind] in H; [|discriminate].
  destruct (Get.addFilter (BuildDocumentFilter fb) _ acc1) as [acc2|] eqn:E2;
    cbn [bind] in H; [|discriminate].
  apply addFilter_appends in E1. destruct E1 as [c1 [a1 [-> Ha1]]].
  apply addFilter_appends in E2. destruct E2 as [c2 [a2 [-> Ha2]]].
  cbn [fst snd] in H. injection H as <-. cbn [Get.conditions Get.queryArgs].
  destruct ids as [|i ids]; [contradiction|]. cbn [Get.idFilter fst snd].
  exists (c1 ++ c2), a1, a2. split; [|split; [|split]].
  - now rewrite <- !app_assoc.
  - now rewrite <- !app_assoc.
  - exact Ha1.
  - exact Ha2.
Qed.

(** The statement of [collectionGet] with ids: the [IN] list first. *)
Lemma get_ids_statement fb name (ids : list string) opts st :
  ids <> [] ->
  Get.collectionGet fb name ids opts = Ok st ->
  exists more whereArgs docArgs,
    Get.querySQL st
    = (Get.nl ++ Get.tab ++ Get.tab
       ++ "SELECT _id, document, metadata, embedding"
       ++ Get.nl ++ Get.tab ++ Get.tab ++ "FROM " ++ GetTableName name
       ++ Get.nl ++ Get.tab ++ Get.tab
       ++ "WHERE _id IN ("
       ++ String.concat ", " (map (fun _ : string => "?") ids) ++ ")"
       ++ String.concat "" (map (fun c => " AND " ++ c) more)
       ++ Get.nl ++ Get.tab ++ Get.tab ++ "LIMIT ? OFFSET ?"
       ++ Get.nl ++ Get.tab)%string
    /\ Get.conditions st
       = ("_id IN (" ++ String.concat ", " (map (fun _ : string => "?") ids)
            ++ ")")%string :: more
    /\ SQL.placeholders
         ("_id IN (" ++ String.concat ", " (map (fun _ : string => "?") ids)
            ++ ")")
       = length ids
    /\ Get.queryArgs st
       = map VStr ids ++ whereArgs ++ docArgs
           ++ [VInt (Get.effectiveLimit opts); VInt (GetOptions.Offset opts)]
    /\ (whereArgs = []
        \/ exists cl, BuildMetadataFilter fb (GetOptions.Where opts)
                      = Ok (cl, whereArgs))
    /\ (docArgs = []
        \/ exists cl, BuildDocumentFilter fb (GetOptions.WhereDocument opts)
                      = Ok (cl, docArgs)).
Proof.
  intros Hids H.
  destruct (get_ids_first fb name ids opts st Hids H)
    as [more [wa [da [Hc [Ha [Hw Hd]]]]]].
  exists more, wa, da.
  split; [|split; [exact Hc|split; [|split; [exact Ha|split; assumption]]]].
  - destruct (collectionGet_text _ _ _ _ _ H) as [Ht _].
    rewrite Ht, Hc, concat_and_cons, !append_assoc. reflexivity.
  - pose proof (@placeholders_list string ids) as Hn.
    unfold SQL.placeholders in *. rewrite !count_char_append, Hn.
    cbn [SQL.count_char Ascii.eqb Bool.eqb]. cbn. lia.
Qed.



(* ================================================================= *)
(** * Further properties of the descriptor compiler *)

(** X1: a logical key shadows every other entry of its filter.  A filter
    with an [$and] key compiles as if [$and] were its only entry; without
    [$and], one with an [$or] key compiles as if [$or] were its only entry;
    without both, one with a [$not] key compiles as if [$not] were its only
    entry.  Field conditions written beside a logical key are never
    compiled. *)
Theorem X1_logical_key_shadows_siblings :
  forall (condition : gomap) (v : value),
    (lookup "$and" condition = Some v ->
     buildMetadataFilterConditions condition
     = buildMetadataFilterConditions [("$and", v)])
    /\ (lookup "$and" condition = None -> lookup "$or" condition = Some v ->
        buildMetadataFilterConditions condition
        = buildMetadataFilterConditions [("$or", v)])
    /\ (lookup "$and" condition = None -> lookup "$or" condition = None ->
        lookup "$not" condition = Some v ->
        buildMetadataFilterConditions condition
        = buildMetadataFilterConditions [("$not", v)]).
Proof.
  intros condition v. split; [|split].
  - intros H. rewrite !buildMetadataFilterConditions_eq. unfold body.
    destruct condition as [|e c]; [discriminate|]. rewrite H. reflexivity.
  - intros Ha H. rewrite !buildMetadataFilterConditions_eq. unfold body.
    destruct condition as [|e c]; [discriminate|]. rewrite Ha, H. reflexivity.
  - intros Ha Ho H. rewrite !buildMetadataFilterConditions_eq. unfold body.
    destruct condition as [|e c]; [discriminate|]. rewrite Ha, Ho, H. reflexivity.
Qed.

(** X1 at [{"$and": [{"tag": "ml"}], "page": 3}]: the [page] condition is
    not compiled. *)
Lemma X1_logical_key_shadows_siblings_witness :
  buildMetadataFilterConditions
    [("page", VInt 3); ("$and", VList [VMap [("tag", VStr "ml")]])]
  = buildMetadataFilterConditions [("$and", VList [VMap [("tag", VStr "ml")]])].
Proof.
  exact (proj1 (X1_logical_key_shadows_siblings
                  [("page", VInt 3); ("$and", VList [VMap [("tag", VStr "ml")]])]
                  (VList [VMap [("tag", VStr "ml")]])) eq_refl).
Defined.

Lemma termsOf_wf field vals : Forall wfClause (termsOf field vals).
Proof.
  unfold termsOf. induction vals as [|v vals IH]; constructor; [constructor|exact IH].
Qed.

Lemma bool_terms_wf kind field vals :
  In kind ["must"; "should"; "must_not"] -> vals <> [] ->
  Forall wfClause [boolNode kind (termsOf field vals)].
Proof.
  intros Hk Hv. constructor; [|constructor].
  constructor; [exact Hk| |apply termsOf_wf].
  destruct vals; [contradiction|discriminate].
Qed.

Lemma emitted_wf field kv : Forall wfClause (emitted field kv).
Proof.
  destruct kv as [op v]. unfold emitted.
  destruct (op =? "$ne").
  { apply (bool_terms_wf "must_not" field [v]); [simpl; tauto|discriminate]. }
  destruct (op =? "$in").
  { destruct v as [| | | | | |l| | |]; try apply Forall_nil.
    destruct l as [|x l]; [apply Forall_nil|].
    apply (bool_terms_wf "should" field (x :: l)); [simpl; tauto|discriminate]. }
  destruct (op =? "$nin"); [|apply Forall_nil].
  destruct v as [| | | | | |l| | |]; try apply Forall_nil.
  destruct l as [|x l]; [apply Forall_nil|].
  apply (bool_terms_wf "must_not" field (x :: l)); [simpl; tauto|discriminate].
Qed.

Lemma closing_wf field ops : Forall wfClause (closing field ops).
Proof.
  unfold closing. destruct (boundsOf ops) eqn:E.
  - destruct (fold_left termStep ops VNil); repeat constructor.
  - repeat constructor. discriminate.
Qed.

Lemma Forall_flat_map {A B : Type} (P : B -> Prop) (f : A -> list B) (l : list A) :
  (forall a, In a l -> Forall P (f a)) -> Forall P (flat_map f l).
Proof.
  induction l as [|a l IH]; intros H; simpl; [constructor|].
  apply Forall_app. split; [apply H; now left|apply IH; intros; apply H; now right].
Qed.

Lemma fieldConditions_wf condition : Forall wfClause (fieldConditions condition).
Proof.
  rewrite fieldConditions_clauses. apply Forall_flat_map. intros [key v] _.
  unfold entryClauses. destruct (isLogical key); [constructor|].
  destruct v; try (repeat constructor);
    apply Forall_app; split;
    try (apply Forall_flat_map; intros; apply emitted_wf); apply closing_wf.
Qed.

Lemma wrapBool_wf kind conds :
  In kind ["must"; "should"; "must_not"] ->
  Forall wfClause conds -> Forall wfClause (wrapBool kind conds).
Proof.
  intros Hk H. unfold wrapBool. destruct conds as [|c conds]; [constructor|].
  constructor; [|constructor]. constructor; [exact Hk|discriminate|exact H].
Qed.

(** X2: whatever the filter, every clause the descriptor compiler returns
    is a term, a range with at least one bound, or a [bool] of kind [must],
    [should] or [must_not] over a non-empty list of such clauses: no empty
    [bool] or [range] object is ever emitted, at any depth. *)
Theorem X2_compiled_clauses_well_formed :
  forall condition : gomap,
    Forall wfClause (buildMetadataFilterConditions condition).
Proof.
  intros condition. unfold buildMetadataFilterConditions.
  generalize (map_depth condition). intros n. revert condition.
  induction n as [|n IH]; intros condition; [constructor|].
  cbn [buildMetadataFilterConditions_fuel]. unfold body.
  destruct condition as [|e c]; [constructor|].
  assert (Hsubs : forall l,
            Forall wfClause
              (flat_map (subConditions (buildMetadataFilterConditions_fuel n)) l)).
  { intros l. apply Forall_flat_map. intros [] _; simpl; try constructor. apply IH. }
  destruct (lookup "$and" (e :: c)) as [[]|]; try constructor.
  { apply wrapBool_wf; [simpl; tauto|apply Hsubs]. }
  destruct (lookup "$or" (e :: c)) as [[]|]; try constructor.
  { apply wrapBool_wf; [simpl; tauto|apply Hsubs]. }
  destruct (lookup "$not" (e :: c)) as [[]|]; try constructor.
  { apply wrapBool_wf; [simpl; tauto|apply IH]. }
  apply fieldConditions_wf.
Qed.

Lemma single_field key v :
  isLogical key = false ->
  buildMetadataFilterConditions [(key, v)] = entryClauses (key, v).
Proof.
  intros Hlog. destruct (not_logical_lookups key v Hlog) as [Hand [Hor Hnot]].
  rewrite (fields_only _ Hand Hor Hnot), fieldConditions_clauses.
  cbn [flat_map]. apply app_nil_r.
Qed.

Lemma emitted_not_term field kv field' x : ~ In (termNode field' x) (emitted field kv).
Proof.
  destruct kv as [op v]. unfold emitted.
  destruct (op =? "$ne"); [simpl; intros [H|[]]; discriminate|].
  destruct (op =? "$in").
  { destruct v as [| | | | | |l| | |]; try (simpl; tauto).
    destruct l; simpl; [tauto|intros [H|[]]; discriminate]. }
  destruct (op =? "$nin"); [|simpl; tauto].
  destruct v as [| | | | | |l| | |]; try (simpl; tauto).
  destruct l; simpl; [tauto|intros [H|[]]; discriminate].
Qed.

(** The operand [termValue] holds after the loop: that of [$eq], if any. *)
Lemma term_value ops : NoDup (keys ops) ->
  forall t, fold_left termStep ops t
            = match lookup "$eq" ops with Some v => v | None => t end.
Proof.
  induction ops as [|[op v] ops IH]; intros Hnd t; [reflexivity|].
  inversion Hnd as [|? ? Hnotin Hnd']; subst.
  cbn [fold_left lookup]. rewrite (IH Hnd'). unfold termStep. cbn [fst snd].
  rewrite (String.eqb_sym "$eq" op).
  destruct (op =? "$eq") eqn:E; [|reflexivity].
  apply String.eqb_eq in E. subst op. now rewrite (lookup_absent _ _ Hnotin).
Qed.

(** X3: in one operator map a range operator displaces [$eq].  If the map
    of a field holds any of [$gt], [$gte], [$lt], [$lte], no term clause is
    emitted for that field, whatever [$eq] says; if it holds none of them
    and gives [$eq] a non-nil operand, the term clause of that operand is
    the last clause emitted; a nil [$eq] operand emits no term. *)
Theorem X3_range_displaces_eq :
  forall (key : string) (v : value) (ops : gomap),
    isLogical key = false ->
    v = VMap ops \/ v = VFilter ops ->
    NoDup (keys ops) ->
    (hasRangeOperator ops = true ->
     forall field x,
       ~ In (termNode field x) (buildMetadataFilterConditions [(key, v)]))
    /\ (hasRangeOperator ops = false ->
        forall x, lookup "$eq" ops = Some x -> x <> VNil ->
        buildMetadataFilterConditions [(key, v)]
        = flat_map (emitted (fieldName key)) ops ++ [termNode (fieldName key) x])
    /\ (hasRangeOperator ops = false ->
        lookup "$eq" ops = Some VNil \/ lookup "$eq" ops = None ->
        buildMetadataFilterConditions [(key, v)]
        = flat_map (emitted (fieldName key)) ops).
Proof.
  intros key v ops Hlog Hv Hnd.
  assert (Hout : buildMetadataFilterConditions [(key, v)]
                 = flat_map (emitted (fieldName key)) ops ++ closing (fieldName key) ops).
  { rewrite (single_field key v Hlog). unfold entryClauses. rewrite Hlog.
    destruct Hv as [-> | ->]; reflexivity. }
  rewrite Hout. split; [|split].
  - intros Hr field x Hin. rewrite (closing_range _ _ Hr) in Hin.
    apply in_app_or in Hin. destruct Hin as [Hin|[Hin|[]]]; [|discriminate].
    apply in_flat_map in Hin. destruct Hin as [kv [_ Hin]].
    exact (emitted_not_term _ _ _ _ Hin).
  - intros Hr x Hx Hnil. unfold closing, boundsOf.
    rewrite (no_range_operator_bounds ops [] Hr), (term_value ops Hnd), Hx.
    destruct x; try reflexivity. contradiction.
  - intros Hr Hx. unfold closing, boundsOf.
    rewrite (no_range_operator_bounds ops [] Hr), (term_value ops Hnd).
    destruct Hx as [-> | ->]; now rewrite app_nil_r.
Qed.

(** X3 at [{"score": {"$eq": 90, "$gte": 80}}]: only the range is emitted. *)
Lemma X3_range_displaces_eq_witness :
  ~ In (termNode (fieldName "score") (VInt 90))
       (buildMetadataFilterConditions
          [("score", VMap [("$eq", VInt 90); ("$gte", VInt 80)])]).
Proof.
  assert (Hnd : NoDup (keys [("$eq", VInt 90); ("$gte", VInt 80)])).
  { repeat constructor; simpl; intuition discriminate. }
  exact (proj1 (X3_range_displaces_eq "score"
                  (VMap [("$eq", VInt 90); ("$gte", VInt 80)])
                  [("$eq", VInt 90); ("$gte", VInt 80)]
                  eq_refl (or_introl eq_refl) Hnd)
           eq_refl (fieldName "score") (VInt 90)).
Defined.

Lemma unknown_operator_step field st op v :
  ~ In op knownOperators -> opStep field st (op, v) = st.
Proof.
  intros Hn. unfold knownOperators in Hn. cbn [In] in Hn. unfold opStep.
  split_op op; name_op; first [reflexivity | exfalso; tauto].
Qed.

Lemma unknown_operators_fold field ops :
  (forall op, In op (keys ops) -> ~ In op knownOperators) ->
  forall st, fold_left (opStep field) ops st = st.
Proof.
  induction ops as [|[op x] ops IH]; intros Hops st; [reflexivity|].
  cbn [fold_left]. rewrite unknown_operator_step.
  - apply IH. intros op' Hin. apply Hops. now right.
  - apply Hops. now left.
Qed.

(** X4: operators the compiler does not know are skipped without an error.
    An operator map none of whose keys is one of the eight operators of the
    [switch] contributes no clause at all. *)
Theorem X4_unknown_operators_ignored :
  forall (key : string) (v : value) (ops : gomap),
    isLogical key = false ->
    v = VMap ops \/ v = VFilter ops ->
    (forall op, In op (keys ops) -> ~ In op knownOperators) ->
    buildMetadataFilterConditions [(key, v)] = [].
Proof.
  intros key v ops Hlog Hv Hops.
  destruct (not_logical_lookups key v Hlog) as [Hand [Hor Hnot]].
  rewrite (fields_only _ Hand Hor Hnot). unfold fieldConditions.
  cbn [fold_left fieldStep]. fold (isLogical key). rewrite Hlog.
  pose proof (unknown_operators_fold (fieldName key) ops Hops) as Hfold.
  destruct Hv as [-> | ->]; unfold operatorConditions; rewrite Hfold; reflexivity.
Qed.

(** X4 at [{"score": {"$between": [1, 5]}}]. *)
Lemma X4_unknown_operators_ignored_witness :
  buildMetadataFilterConditions
    [("score", VMap [("$between", VList [VInt 1; VInt 5])])] = [].
Proof.
  apply (X4_unknown_operators_ignored "score"
           (VMap [("$between", VList [VInt 1; VInt 5])])
           [("$between", VList [VInt 1; VInt 5])] eq_refl (or_introl eq_refl)).
  intros op [<-|[]]. unfold knownOperators. simpl. intuition discriminate.
Defined.

(** X5: the two map types are treated alike as the operator map of a field,
    but not as a sub-condition: below [$and], [$or] and [$not] only a
    [map[string]interface{}] is compiled, and sub-conditions of type
    [Filter] are skipped without an error. *)
Theorem X5_filter_typed_subconditions_skipped :
  forall (subs : list gomap) (sub : gomap) (key : string) (ops : gomap),
    buildMetadataFilterConditions [("$and", VList (map VFilter subs))] = []
    /\ buildMetadataFilterConditions [("$or", VList (map VFilter subs))] = []
    /\ buildMetadataFilterConditions [("$not", VFilter sub)] = []
    /\ (isLogical key = false ->
        buildMetadataFilterConditions [(key, VFilter ops)]
        = buildMetadataFilterConditions [(key, VMap ops)]).
Proof.
  intros subs sub key ops.
  assert (Hskip : forall f, flat_map (subConditions f) (map VFilter subs) = []).
  { intros f. induction subs as [|m subs IH]; [reflexivity|exact IH]. }
  split; [|split; [|split]].
  - rewrite buildMetadataFilterConditions_eq. unfold body.
    cbn [lookup String.eqb Ascii.eqb Bool.eqb]. now rewrite Hskip.
  - rewrite buildMetadataFilterConditions_eq. unfold body.
    cbn [lookup String.eqb Ascii.eqb Bool.eqb]. now rewrite Hskip.
  - rewrite buildMetadataFilterConditions_eq. reflexivity.
  - intros Hlog. rewrite !single_field by assumption. reflexivity.
Qed.

(** X5 at the operator map of "nested Filter type works with $gte" in
    collection_hybrid_search_test.go. *)
Lemma X5_filter_typed_subconditions_skipped_witness :
  buildMetadataFilterConditions [("score", VFilter [("$gte", VInt 90)])]
  = buildMetadataFilterConditions [("score", VMap [("$gte", VInt 90)])].
Proof.
  exact (proj2 (proj2 (proj2
    (X5_filter_typed_subconditions_skipped [] [] "score" [("$gte", VInt 90)])))
    eq_refl).
Defined.

(* ================================================================= *)
(** * Further properties of the hybrid-search request builder *)

(** X6: [buildDocumentQuery] returns nil or one [query_string] clause over
    the [document] field, chosen by precedence: a top-level [$contains]
    wins, whatever its operand's type; failing that an [$and] list with at
    least one string-valued [$contains] wins over [$or]; otherwise the [$or]
    list is used, and without string-valued [$contains] in it the result is
    nil. *)
Theorem X6_document_query_precedence :
  forall (m : gomap),
    (buildDocumentQuery (Some m) = None
     \/ exists q, buildDocumentQuery (Some m) = Some (queryString q))
    /\ (forall v, lookup "$contains" m = Some v ->
          buildDocumentQuery (Some m) = Some (queryString v))
    /\ (forall l, lookup "$contains" m = None ->
          lookup "$and" m = Some (VList l) -> containsQueries l <> [] ->
          buildDocumentQuery (Some m)
          = Some (queryString (VStr (String.concat " " (containsQueries l)))))
    /\ (lookup "$contains" m = None ->
        joinedContains "$and" " " m = None ->
        buildDocumentQuery (Some m) = joinedContains "$or" " OR " m).
Proof.
  intros m. unfold buildDocumentQuery. cbn [entries].
  split; [|split; [|split]].
  - destruct m as [|e m]; [now left|].
    destruct (lookup "$contains" (e :: m)); [right; eauto|].
    unfold joinedContains.
    destruct (lookup "$and" (e :: m)) as [[]|]; try destruct (containsQueries l);
      try (right; eauto; fail);
      destruct (lookup "$or" (e :: m)) as [[]|]; try destruct (containsQueries _);
      try (right; eauto; fail); now left.
  - intros v H. destruct m; [discriminate|]. now rewrite H.
  - intros l Hc Ha Hne. destruct m; [discriminate|]. rewrite Hc.
    unfold joinedContains. rewrite Ha.
    destruct (containsQueries l); [contradiction|reflexivity].
  - intros Hc Ha. destruct m; [reflexivity|]. now rewrite Hc, Ha.
Qed.

(** X6 at [{"$contains": "ml", "$and": [{"$contains": "x"}]}]. *)
Lemma X6_document_query_precedence_witness :
  buildDocumentQuery
    (Some [("$and", VList [containsCondition "x"]); ("$contains", VStr "ml")])
  = Some (queryString (VStr "ml")).
Proof.
  exact (proj1 (proj2 (X6_document_query_precedence
    [("$and", VList [containsCondition "x"]); ("$contains", VStr "ml")]))
    (VStr "ml") eq_refl).
Defined.

(** X7: the text clause gates the whole query section.  When a document
    filter is given but yields no text clause, [buildQueryExpression]
    returns nil and the metadata filter is left out with it; when it yields
    one, the result is that clause alone or, with metadata conditions,
    [{"bool": {"must": [clause], "filter": conditions}}].  The [NResults]
    of the query block is never read. *)
Theorem X7_text_clause_gates_query :
  forall (whereDocument where_ : Filter) (n : Z),
    (0 < len_filter whereDocument)%nat ->
    (buildDocumentQuery whereDocument = None ->
     buildQueryExpression (HybridSearchQuery.mk whereDocument where_ n) = None)
    /\ (forall docQuery, buildDocumentQuery whereDocument = Some docQuery ->
          buildQueryExpression (HybridSearchQuery.mk whereDocument where_ n)
          = match buildMetadataFilterForSearchParm where_ with
            | [] => Some docQuery
            | filterConditions =>
                Some [("bool", VMap [("must", VList [VMap docQuery]);
                                     ("filter", VMaps filterConditions)])]
            end)
    /\ (forall n', buildQueryExpression (HybridSearchQuery.mk whereDocument where_ n)
                   = buildQueryExpression (HybridSearchQuery.mk whereDocument where_ n')).
Proof.
  intros wd w n Hlen. unfold buildQueryExpression.
  cbn [HybridSearchQuery.WhereDocument HybridSearchQuery.Where].
  assert (H0 : (len_filter wd =? 0)%nat = false) by (apply Nat.eqb_neq; lia).
  assert (H1 : (0 <? len_filter wd)%nat = true) by (apply Nat.ltb_lt; lia).
  rewrite H0, H1. cbn [andb]. split; [|split].
  - intros ->. reflexivity.
  - intros d ->. reflexivity.
  - reflexivity.
Qed.

(** X7 at the [$regex] query with a metadata filter beside it. *)
Lemma X7_text_clause_gates_query_witness :
  buildQueryExpression
    (HybridSearchQuery.mk (Some [("$regex", VStr "a.*")])
                          (Some [("tag", VStr "ml")]) 5) = None.
Proof.
  assert (Hlen : (0 < len_filter (Some [("$regex", VStr "a.*")]))%nat) by (simpl; lia).
  exact (proj1 (X7_text_clause_gates_query (Some [("$regex", VStr "a.*")])
                  (Some [("tag", VStr "ml")]) 5%Z Hlen) eq_refl).
Defined.

Lemma metadata_conditions_nonempty where_ :
  buildMetadataFilterForSearchParm where_ <> [] -> (0 < len_filter where_)%nat.
Proof.
  unfold buildMetadataFilterForSearchParm. destruct (len_filter where_); [tauto|lia].
Qed.

(** X8: a query block without document filter is a scalar query.  No
    metadata condition gives nil; a single term or range clause is returned
    bare; a single [bool] clause, and any longer list, is wrapped as
    [{"bool": {"filter": conditions}}]. *)
Theorem X8_scalar_query_shape :
  forall (whereDocument where_ : Filter) (n : Z),
    len_filter whereDocument = 0%nat ->
    (buildMetadataFilterForSearchParm where_ = [] ->
     buildQueryExpression (HybridSearchQuery.mk whereDocument where_ n) = None)
    /\ (forall field v,
          buildMetadataFilterForSearchParm where_ = [termNode field v] ->
          buildQueryExpression (HybridSearchQuery.mk whereDocument where_ n)
          = Some (termNode field v))
    /\ (forall field bounds,
          buildMetadataFilterForSearchParm where_ = [rangeNode field bounds] ->
          buildQueryExpression (HybridSearchQuery.mk whereDocument where_ n)
          = Some (rangeNode field bounds))
    /\ (forall kind conds,
          buildMetadataFilterForSearchParm where_ = [boolNode kind conds] ->
          buildQueryExpression (HybridSearchQuery.mk whereDocument where_ n)
          = Some (boolFilter [boolNode kind conds]))
    /\ (forall c c' rest,
          buildMetadataFilterForSearchParm where_ = c :: c' :: rest ->
          buildQueryExpression (HybridSearchQuery.mk whereDocument where_ n)
          = Some (boolFilter (c :: c' :: rest))).
Proof.
  intros wd w n Hlen. unfold buildQueryExpression.
  cbn [HybridSearchQuery.WhereDocument HybridSearchQuery.Where]. rewrite Hlen.
  change (0 =? 0)%nat with true. change (0 <? 0)%nat with false. cbn [andb].
  assert (Hpos : forall cs, buildMetadataFilterForSearchParm w = cs -> cs <> [] ->
                            (0 <? len_filter w)%nat = true).
  { intros cs Hcs Hne. apply Nat.ltb_lt. apply metadata_conditions_nonempty.
    now rewrite Hcs. }
  split; [|split; [|split; [|split]]].
  - intros ->. destruct (0 <? len_filter w)%nat; reflexivity.
  - intros field v H. rewrite (Hpos _ H) by discriminate. rewrite H. reflexivity.
  - intros field b H. rewrite (Hpos _ H) by discriminate. rewrite H. reflexivity.
  - intros kind conds H. rewrite (Hpos _ H) by discriminate. rewrite H. reflexivity.
  - intros c c' rest H. rewrite (Hpos _ H) by discriminate. rewrite H. reflexivity.
Qed.

(** X8 at the metadata-only query [{"tag": "ml"}]. *)
Lemma X8_scalar_query_shape_witness :
  buildQueryExpression (HybridSearchQuery.mk None (Some [("tag", VStr "ml")]) 5)
  = Some (termNode (fieldName "tag") (VStr "ml")).
Proof.
  exact (proj1 (proj2 (X8_scalar_query_shape None (Some [("tag", VStr "ml")]) 5%Z eq_refl))
           (fieldName "tag") (VStr "ml") eq_refl).
Defined.

(** The knn block of one precomputed vector and nothing else. *)
Lemma knn_of_vector knn embFunc vec :
  resolveQueryVector knn embFunc = Ok vec ->
  buildKNNExpression knn embFunc
  = buildKNNExpression
      (HybridSearchKNN.mk [] [vec] (HybridSearchKNN.Where knn)
                          (HybridSearchKNN.NResults knn)) None.
Proof.
  intros H. unfold buildKNNExpression. rewrite H. reflexivity.
Qed.

(** X9: a precomputed vector always wins.  When [knn.QueryEmbeddings] is
    not empty, [buildKNNExpression] uses its first vector and nothing else:
    the query texts, the other vectors and the embedding function (nil or
    not, failing or not) have no influence on the result. *)
Theorem X9_precomputed_vector_wins :
  forall (knn : HybridSearchKNN.t) (embFunc : option EmbeddingFunc)
         (first : list float32) (others : list (list float32)),
    HybridSearchKNN.QueryEmbeddings knn = first :: others ->
    buildKNNExpression knn embFunc
    = buildKNNExpression
        (HybridSearchKNN.mk [] [first] (HybridSearchKNN.Where knn)
                            (HybridSearchKNN.NResults knn)) None.
Proof.
  intros knn embFunc first others H. apply knn_of_vector.
  unfold resolveQueryVector. now rewrite H.
Qed.

(** X9 with texts given beside the vector and no embedding function. *)
Lemma X9_precomputed_vector_wins_witness :
  buildKNNExpression (HybridSearchKNN.mk ["x"] [[1%N; 2%N]; [3%N]] None 0) None
  = buildKNNExpression (HybridSearchKNN.mk [] [[1%N; 2%N]] None 0) None.
Proof.
  exact (X9_precomputed_vector_wins
           (HybridSearchKNN.mk ["x"] [[1%N; 2%N]; [3%N]] None 0) None
           [1%N; 2%N] [[3%N]] eq_refl).
Defined.

(** X10: every knn expression that is built is complete.  Its [field] is
    ["embedding"]; its [k] is [knn.NResults] when that is positive and 10
    otherwise, so always positive; its [query_vector] is a non-empty list,
    the resolved vector element by element; and it has a [filter] exactly
    when the knn metadata filter compiles to at least one clause. *)
Theorem X10_knn_expression_complete :
  forall (knn : HybridSearchKNN.t) (embFunc : option EmbeddingFunc) (knnExpr : gomap),
    buildKNNExpression knn embFunc = Ok (Some knnExpr) ->
    exists (queryVector : list float32) (k : Z),
      resolveQueryVector knn embFunc = Ok queryVector
      /\ queryVector <> []
      /\ lookup "field" knnExpr = Some (VStr "embedding")
      /\ lookup "k" knnExpr = Some (VInt k)
      /\ (0 < k)%Z
      /\ k = (if (HybridSearchKNN.NResults knn <=? 0)%Z then 10%Z
              else HybridSearchKNN.NResults knn)
      /\ lookup "query_vector" knnExpr = Some (VList (map VFloat32 queryVector))
      /\ lookup "filter" knnExpr
         = match buildMetadataFilterForSearchParm (HybridSearchKNN.Where knn) with
           | [] => None
           | filterConditions => Some (VMaps filterConditions)
           end.
Proof.
  intros knn embFunc knnExpr H. unfold buildKNNExpression in H.
  destruct (resolveQueryVector knn embFunc) as [vec|]; cbn [bind] in H; [|discriminate].
  destruct vec as [|x vec]; [discriminate|].
  exists (x :: vec). eexists. split; [reflexivity|]. split; [discriminate|].
  destruct (buildMetadataFilterForSearchParm (HybridSearchKNN.Where knn));
    injection H as <-; (repeat split; try reflexivity);
    destruct (HybridSearchKNN.NResults knn <=? 0)%Z eqn:E; try lia;
    apply Z.leb_gt in E; lia.
Qed.

(** X10 at the knn block of "hybrid search with vector only". *)
Lemma X10_knn_expression_complete_witness :
  exists (queryVector : list float32) k,
    queryVector <> [] /\ (0 < k)%Z
    /\ lookup "k" [("field", VStr "embedding"); ("k", VInt 5);
                   ("query_vector", VList [VFloat32 1%N; VFloat32 2%N; VFloat32 3%N])]
       = Some (VInt k).
Proof.
  destruct (X10_knn_expression_complete
              (HybridSearchKNN.mk [] [[1%N; 2%N; 3%N]] None 5) None
              [("field", VStr "embedding"); ("k", VInt 5);
               ("query_vector", VList [VFloat32 1%N; VFloat32 2%N; VFloat32 3%N])]
              eq_refl)
    as [qv [k [_ [Hne [_ [Hk [Hpos _]]]]]]].
  exists qv, k. split; [exact Hne|]. split; [exact Hpos|exact Hk].
Defined.

(** X11: with texts only, the knn block is what [Embed] makes of them.
    [Embed] is called once, on all the texts.  Its error comes back wrapped
    and still [errors.Is] whatever it was; when it returns no vector, or an
    empty first vector, the knn block is left out without an error; else
    the block is the one of its first vector. *)
Theorem X11_knn_from_texts :
  forall (knn : HybridSearchKNN.t) (Embed : EmbeddingFunc),
    HybridSearchKNN.QueryEmbeddings knn = [] ->
    HybridSearchKNN.QueryTexts knn <> [] ->
    (forall err, Embed (HybridSearchKNN.QueryTexts knn) = Err err ->
       buildKNNExpression knn (Some Embed)
       = Err (Wrapped "failed to generate embeddings from query_texts" err)
       /\ forall target,
            errors_Is (Wrapped "failed to generate embeddings from query_texts" err) target
            = errors_Is err target)
    /\ (Embed (HybridSearchKNN.QueryTexts knn) = Ok [] ->
        buildKNNExpression knn (Some Embed) = Ok None)
    /\ (forall others, Embed (HybridSearchKNN.QueryTexts knn) = Ok ([] :: others) ->
        buildKNNExpression knn (Some Embed) = Ok None)
    /\ (forall first others,
          Embed (HybridSearchKNN.QueryTexts knn) = Ok (first :: others) ->
          buildKNNExpression knn (Some Embed)
          = buildKNNExpression
              (HybridSearchKNN.mk [] [first] (HybridSearchKNN.Where knn)
                                  (HybridSearchKNN.NResults knn)) None).
Proof.
  intros knn Embed He Ht.
  assert (Hr : resolveQueryVector knn (Some Embed)
               = match Embed (HybridSearchKNN.QueryTexts knn) with
                 | Err err =>
                     Err (Wrapped "failed to generate embeddings from query_texts" err)
                 | Ok embeddings => Ok (hd [] embeddings)
                 end).
  { unfold resolveQueryVector. rewrite He.
    destruct (HybridSearchKNN.QueryTexts knn); [contradiction|reflexivity]. }
  split; [|split; [|split]].
  - intros err H. split; [|reflexivity].
    unfold buildKNNExpression. now rewrite Hr, H.
  - intros H. unfold buildKNNExpression. now rewrite Hr, H.
  - intros others H. unfold buildKNNExpression. now rewrite Hr, H.
  - intros first others H. apply knn_of_vector. now rewrite Hr, H.
Qed.

(** X11 with an embedding function that returns no vector. *)
Lemma X11_knn_from_texts_witness :
  buildKNNExpression Scenario.textOnlyKNN (Some (fun _ => Ok [])) = Ok None.
Proof.
  assert (Ht : HybridSearchKNN.QueryTexts Scenario.textOnlyKNN <> []) by discriminate.
  exact (proj1 (proj2 (X11_knn_from_texts Scenario.textOnlyKNN (fun _ => Ok [])
                         eq_refl Ht)) eq_refl).
Defined.

(** X12: [buildSearchParm] fails exactly when a knn block is given and
    [buildKNNExpression] fails on it, and then with that very error; the
    query block, the size and the rank never make it fail. *)
Theorem X12_search_parm_fails_with_knn :
  forall query knn rank nResults embFunc e,
    buildSearchParm query knn rank nResults embFunc = Err e
    <-> exists kn, knn = Some kn /\ buildKNNExpression kn embFunc = Err e.
Proof.
  intros query knn rank nResults embFunc e. unfold buildSearchParm. split.
  - destruct knn as [kn|]; cbn [bind]; [|discriminate].
    destruct (buildKNNExpression kn embFunc) as [[x|]|e'] eqn:E; cbn [bind];
      try discriminate.
    intros [= ->]. now exists kn.
  - intros [kn [-> H]]. rewrite H. reflexivity.
Qed.

(** X13: what else an assembled request holds.  [size] is there exactly
    when [nResults] is positive, and is [nResults]; [rank] is there exactly
    when a rank with an RRF configuration is given, and is [{"rrf": {}}]
    with [rank_constant] inside exactly when [K] is positive; the request
    has each of its keys once, and no key other than [query], [knn],
    [size] and [rank]. *)
Theorem X13_search_parm_size_and_rank :
  forall query knn rank nResults embFunc searchParm,
    buildSearchParm query knn rank nResults embFunc = Ok searchParm ->
    lookup "size" searchParm
    = (if (0 <? nResults)%Z then Some (VInt nResults) else None)
    /\ lookup "rank" searchParm
       = match rank with
         | Some (mkRank (Some rrf)) =>
             Some (VMap [("rrf", VMap (if (0 <? K rrf)%Z
                                       then [("rank_constant", VInt (K rrf))]
                                       else []))])
         | _ => None
         end
    /\ NoDup (keys searchParm)
    /\ (forall key, In key (keys searchParm) ->
                    In key ["query"; "knn"; "size"; "rank"]).
Proof.
  intros query knn rank nResults embFunc searchParm H.
  unfold buildSearchParm in H.
  destruct knn as [kn|]; cbn [bind] in H;
    [destruct (buildKNNExpression kn embFunc) as [[knnExpr|]|]; cbn [bind] in H;
     [| |discriminate]|];
    destruct query as [q|]; try destruct (buildQueryExpression q);
    destruct (0 <? nResults)%Z; destruct rank as [[[rrf|]]|];
    unfold rankExpression in H; cbn [RRF] in H;
    try destruct (0 <? K rrf)%Z;
    injection H as <-;
    (split; [reflexivity|]); (split; [reflexivity|]);
    (split; [repeat constructor; simpl; intuition discriminate|]);
    cbn [set String.eqb Ascii.eqb Bool.eqb keys map fst];
    intros key Hkey; cbn [In] in *; intuition auto.
Qed.

(** X13 at a call with a rank whose [K] is zero, as in "hybrid search with
    logical operators". *)
Lemma X13_search_parm_size_and_rank_witness :
  lookup "rank" [("size", VInt 5); ("rank", VMap [("rrf", VMap [])])]
  = Some (VMap [("rrf", VMap [])]).
Proof.
  exact (proj1 (proj2 (X13_search_parm_size_and_rank None None
                         (Some (mkRank (Some (mkRRF 0)))) 5%Z None
                         [("size", VInt 5); ("rank", VMap [("rrf", VMap [])])]
                         eq_refl))).
Defined.

(* ================================================================= *)
(** * Further properties of [collectionHybridSearch] *)



(** X15: [strings.ReplaceAll(s, "'", "''")] as a quoting.  Every quote of
    the text is doubled and nothing else changes, so reading the doubled
    quotes back gives the text again, distinct texts stay distinct, and the
    escaped text holds no quote that would end the literal it is put in. *)
Theorem X15_escaped_quotes_read_back :
  forall s : string,
    Literal.unescapeQuotes (escapeQuotes s) = s
    /\ Literal.staysInside (escapeQuotes s) = true
    /\ SQL.count_char "'" (escapeQuotes s) = 2 * SQL.count_char "'" s
    /\ String.length (escapeQuotes s) = String.length s + SQL.count_char "'" s
    /\ (forall t, escapeQuotes s = escapeQuotes t -> s = t).
Proof.
  assert (Hback : forall s, Literal.unescapeQuotes (escapeQuotes s) = s).
  { induction s as [|c s IH]; [reflexivity|].
    cbn [escapeQuotes]. destruct (Ascii.eqb c "'") eqn:E.
    - cbn [Literal.unescapeQuotes]. rewrite E. now rewrite IH.
    - cbn [Literal.unescapeQuotes]. rewrite E. now rewrite IH. }
  intros s. split; [apply Hback|]. split; [|split; [|split]].
  - induction s as [|c s IH]; [reflexivity|].
    cbn [escapeQuotes]. destruct (Ascii.eqb c "'") eqn:E;
      cbn [Literal.staysInside]; rewrite E; exact IH.
  - induction s as [|c s IH]; [reflexivity|].
    cbn [escapeQuotes SQL.count_char]. rewrite (Ascii.eqb_sym "'" c).
    destruct (Ascii.eqb c "'") eqn:E; cbn [SQL.count_char];
      rewrite ?(Ascii.eqb_sym "'" c), ?E, IH; lia.
  - induction s as [|c s IH]; [reflexivity|].
    cbn [escapeQuotes SQL.count_char]. rewrite (Ascii.eqb_sym "'" c).
    destruct (Ascii.eqb c "'") eqn:E; cbn [String.length]; rewrite IH; lia.
  - intros t H. rewrite <- (Hback s), <- (Hback t). now rewrite H.
Qed.

(* ================================================================= *)
(** * Further properties of [Get] and [Peek] *)

(** X16: [collectionGet] fails before any statement exactly when the
    builder fails on a filter that is not nil, the metadata filter being
    built first; the error is the builder's, unchanged.  A nil filter is
    never handed to the builder. *)
Theorem X16_get_fails_with_filter_builder :
  forall fb name ids opts e,
    Get.collectionGet fb name ids opts = Err e
    <-> (GetOptions.Where opts <> None
         /\ BuildMetadataFilter fb (GetOptions.Where opts) = Err e)
        \/ ((GetOptions.Where opts = None
             \/ exists built, BuildMetadataFilter fb (GetOptions.Where opts) = Ok built)
            /\ GetOptions.WhereDocument opts <> None
            /\ BuildDocumentFilter fb (GetOptions.WhereDocument opts) = Err e).
Proof.
  intros fb name ids opts e. unfold Get.collectionGet. split.
  - destruct (Get.addFilter (BuildMetadataFilter fb) _ _) as [acc1|e1] eqn:E1;
      cbn [bind].
    + destruct (Get.addFilter (BuildDocumentFilter fb) _ acc1) as [[c a]|e2] eqn:E2;
        cbn [bind]; [discriminate|].
      intros [= ->]. right. apply addFilter_success in E1.
      apply addFilter_error in E2. tauto.
    + intros [= ->]. left. now apply addFilter_error in E1.
  - intros [H|[Hw Hd]].
    + apply (addFilter_error _ _ (Get.idFilter ids)) in H. now rewrite H.
    + destruct (addFilter_total _ _ (Get.idFilter ids) Hw) as [acc1 ->]. cbn [bind].
      apply (addFilter_error _ _ acc1) in Hd. now rewrite Hd.
Qed.

(** X16 with a builder that rejects every filter. *)
Lemma X16_get_fails_with_filter_builder_witness :
  Get.collectionGet
    (mkFilterBuilder (fun _ => Err (InvalidFilter "where"))
                     (fun _ => Err (InvalidFilter "document")))
    "docs" [] (GetOptions.mk (Some []) (Some []) 0 0 [])
  = Err (InvalidFilter "where").
Proof.
  apply (proj2 (X16_get_fails_with_filter_builder
                  (mkFilterBuilder (fun _ => Err (InvalidFilter "where"))
                                   (fun _ => Err (InvalidFilter "document")))
                  "docs" [] (GetOptions.mk (Some []) (Some []) 0 0 [])
                  (InvalidFilter "where"))).
  left. split; [discriminate|reflexivity].
Defined.

(** X17: an option that [collectionGet] never reads.  The [Include] list
    changes neither the statement and its arguments nor, whatever the
    connection answers, the result of the whole call: every column is
    always selected and every list of the result is always filled. *)
Theorem X17_include_is_ignored :
  forall (unmarshalMetadata : string -> Metadata * option error)
         (unmarshalEmbedding : string -> list float32 * option error)
         (conn_Query : string -> list value -> result (list (result Rows.getRow)))
         fb name ids opts fields,
    Get.collectionGet fb name ids (WithGetInclude fields opts)
    = Get.collectionGet fb name ids opts
    /\ Rows.runGet unmarshalMetadata unmarshalEmbedding fb conn_Query name ids
         (WithGetInclude fields opts)
       = Rows.runGet unmarshalMetadata unmarshalEmbedding fb conn_Query name ids opts.
Proof. intros. split; reflexivity. Qed.

(** X18: [Peek] asks for the first rows and nothing else.  Whatever the
    filter builder, it never fails before the query; the statement it hands
    to the connection is the [SELECT] with an empty line between [FROM] and
    [LIMIT], without [WHERE]; its arguments are the limit and offset 0, the
    limit being the one given when positive and 10 otherwise, never the
    default 1000 of [Get]. *)
Theorem X18_peek_statement :
  forall fb name limit,
    exists st,
      Rows.Peek fb name limit = Ok st
      /\ Get.querySQL st
         = (Get.nl ++ Get.tab ++ Get.tab ++ "SELECT _id, document, metadata, embedding"
            ++ Get.nl ++ Get.tab ++ Get.tab ++ "FROM " ++ GetTableName name
            ++ Get.nl ++ Get.tab ++ Get.tab
            ++ Get.nl ++ Get.tab ++ Get.tab ++ "LIMIT ? OFFSET ?"
            ++ Get.nl ++ Get.tab)%string
      /\ Get.conditions st = []
      /\ Get.whereClause st = ""
      /\ Get.queryArgs st = [VInt (if (limit <=? 0)%Z then 10%Z else limit); VInt 0]
      /\ (0 < (if (limit <=? 0)%Z then 10%Z else limit))%Z.
Proof.
  intros fb name limit. unfold Rows.Peek, Get.collectionGet.
  cbn [Get.addFilter GetOptions.Where GetOptions.WhereDocument bind Get.idFilter].
  eexists. split; [reflexivity|].
  cbn [Get.querySQL Get.conditions Get.whereClause Get.queryArgs].
  split; [reflexivity|].
  unfold Get.effectiveLimit. cbn [GetOptions.Limit GetOptions.Offset app].
  destruct (limit <=? 0)%Z eqn:E.
  - repeat split; try lia.
  - apply Z.leb_gt in E. destruct (limit =? 0)%Z eqn:E0; [apply Z.eqb_eq in E0; lia|].
    repeat split; try lia.
Qed.

Section ScanFacts.
Variable unmarshalMetadata : string -> Metadata * option error.
Variable unmarshalEmbedding : string -> list float32 * option error.


Lemma scanGetRows_ok rows :
  forall got r,
    (Rows.scanGetRows unmarshalMetadata unmarshalEmbedding) (map Ok rows) got = Ok r ->
    GetResult.IDs r = GetResult.IDs got ++ map (fun row => fst (fst (fst row))) rows
    /\ GetResult.Documents r
       = GetResult.Documents got ++ map (fun row => snd (fst (fst row))) rows
    /\ GetResult.Metadatas r = GetResult.Metadatas got ++ flat_map (Rows.parsedMetadata unmarshalMetadata) rows
    /\ GetResult.Embeddings r = GetResult.Embeddings got ++ flat_map (Rows.parsedEmbedding unmarshalEmbedding) rows.
Proof.
  induction rows as [|row rows IH]; intros got r H.
  - injection H as <-. now rewrite !app_nil_r.
  - cbn [map Rows.scanGetRows] in H.
    apply IH in H. destruct H as [H1 [H2 [H3 H4]]].
    rewrite H1, H2, H3, H4. clear.
    destruct row as [[[id doc] mj] ej].
    unfold Rows.getStep, Rows.parsedMetadata, Rows.parsedEmbedding.
    cbn [fst snd map flat_map GetResult.IDs GetResult.Documents GetResult.Metadatas
         GetResult.Embeddings].
    destruct (Rows.FromJSON unmarshalMetadata mj) as [m [em|]];
      destruct (unmarshalEmbedding ej) as [v [ee|]];
      rewrite <- ?app_assoc; repeat split.
Qed.

Lemma scanGetRows_all_ok rows :
  forall got r, (Rows.scanGetRows unmarshalMetadata unmarshalEmbedding) rows got = Ok r -> exists oks, rows = map Ok oks.
Proof.
  induction rows as [|[row|e] rows IH]; intros got r H.
  - now exists [].
  - cbn [Rows.scanGetRows] in H.
    apply IH in H. destruct H as [oks ->]. now exists (row :: oks).
  - discriminate.
Qed.

Lemma flat_map_le {A B : Type} (f : A -> list B) (l : list A) :
  (forall a, length (f a) <= 1) -> length (flat_map f l) <= length l.
Proof.
  intros Hf. induction l as [|a l IH]; [simpl; lia|].
  cbn [flat_map]. rewrite length_app. specialize (Hf a). simpl. lia.
Qed.

(** X19: the four lists of a [Get] result do not always line up.  When the
    row loop of [collectionGet] succeeds, [IDs] and [Documents] have one
    entry per row, in row order; [Metadatas] and [Embeddings] have an entry
    only for the rows whose JSON parsed, so they are never longer and are
    shorter as soon as one row fails to parse; the first failing [Scan]
    makes the whole call fail with that error. *)
Theorem X19_get_rows_collected :
  forall (rows : list (result Rows.getRow)) (r : GetResult.t),
    (Rows.scanGetRows unmarshalMetadata unmarshalEmbedding) rows (GetResult.mk [] [] [] []) = Ok r ->
    exists scanned : list Rows.getRow,
      rows = map Ok scanned
      /\ GetResult.IDs r = map (fun row => fst (fst (fst row))) scanned
      /\ GetResult.Documents r = map (fun row => snd (fst (fst row))) scanned
      /\ GetResult.Metadatas r = flat_map (Rows.parsedMetadata unmarshalMetadata) scanned
      /\ GetResult.Embeddings r = flat_map (Rows.parsedEmbedding unmarshalEmbedding) scanned
      /\ length (GetResult.IDs r) = length rows
      /\ length (GetResult.Documents r) = length rows
      /\ length (GetResult.Metadatas r) <= length rows
      /\ length (GetResult.Embeddings r) <= length rows.
Proof.
  intros rows r H. destruct (scanGetRows_all_ok rows _ _ H) as [oks ->].
  exists oks. destruct (scanGetRows_ok oks _ _ H) as [H1 [H2 [H3 H4]]].
  cbn [GetResult.IDs GetResult.Documents GetResult.Metadatas GetResult.Embeddings app]
    in H1, H2, H3, H4.
  rewrite H1, H2, H3, H4, !length_map.
  repeat split.
  - apply flat_map_le. intros row. unfold Rows.parsedMetadata.
    destruct (Rows.FromJSON _ _) as [m [e|]]; simpl; lia.
  - apply flat_map_le. intros row. unfold Rows.parsedEmbedding.
    destruct (unmarshalEmbedding _) as [m [e|]]; simpl; lia.
Qed.

(** The first [Scan] that fails ends the loop with its error. *)
Lemma scanGetRows_first_error scanned e rest got :
  (Rows.scanGetRows unmarshalMetadata unmarshalEmbedding) (map Ok scanned ++ Err e :: rest) got = Err e.
Proof.
  revert got. induction scanned as [|row scanned IH]; intros got; [reflexivity|].
  cbn [map app Rows.scanGetRows]. apply IH.
Qed.


Lemma scanQueryRows_lengths rows :
  forall acc s,
    Rows.scanQueryRows unmarshalMetadata unmarshalEmbedding rows acc = Ok s ->
    length (Rows.ids s) = length (Rows.ids acc) + length rows
    /\ length (Rows.distances s) = length (Rows.distances acc) + length rows
    /\ length (Rows.documents s) = length (Rows.documents acc) + length rows
    /\ length (Rows.metadatas s) = length (Rows.metadatas acc) + length rows
    /\ length (Rows.embeddings s) = length (Rows.embeddings acc) + length rows.
Proof.
  induction rows as [|[row|e] rows IH]; intros acc s H; cbn [Rows.scanQueryRows] in H.
  - injection H as <-. cbn [length]. lia.
  - apply IH in H. destruct row as [[[[id doc] mj] ej] dist].
    cbn [Rows.queryStep Rows.ids Rows.distances Rows.documents Rows.metadatas
         Rows.embeddings] in H.
    rewrite !length_app in H. cbn [length] in *. lia.
  - discriminate.
Qed.

(** X20: the five lists of [scanQueryResults] always line up.  When it
    succeeds, ids, distances, documents, metadatas and embeddings all have
    one entry per row: a row whose metadata or embedding JSON does not parse
    still gets its entry (whatever [json.Unmarshal] left), unlike in
    [collectionGet]. *)
Theorem X20_query_rows_aligned :
  forall (rows : list (result Rows.queryRow)) (s : Rows.scanned),
    (Rows.scanQueryResults unmarshalMetadata unmarshalEmbedding) rows = Ok s ->
    length (Rows.ids s) = length rows
    /\ length (Rows.distances s) = length rows
    /\ length (Rows.documents s) = length rows
    /\ length (Rows.metadatas s) = length rows
    /\ length (Rows.embeddings s) = length rows.
Proof.
  intros rows s H. apply scanQueryRows_lengths in H. exact H.
Qed.

End ScanFacts.

(** X19 on two rows, the second with metadata that does not parse: two ids,
    one metadata. *)
Lemma X19_get_rows_collected_witness :
  length (GetResult.IDs (GetResult.mk ["a"; "b"] ["x"; "y"] [Some []] [[]; []])) = 2
  /\ length (GetResult.Metadatas (GetResult.mk ["a"; "b"] ["x"; "y"] [Some []] [[]; []]))
     <= 2.
Proof.
  destruct (X19_get_rows_collected
              (fun _ => (None, Some (ErrorString "invalid character")))
              (fun _ => ([], None))
              [Ok ("a", "x", "{}", "[]"); Ok ("b", "y", "oops", "[]")]
              (GetResult.mk ["a"; "b"] ["x"; "y"] [Some []] [[]; []])
              eq_refl)
    as [scanned [_ [_ [_ [_ [_ [Hi [_ [Hm _]]]]]]]]].
  split; [exact Hi | exact Hm].
Defined.

(** X20 on one row whose metadata does not parse. *)
Lemma X20_query_rows_aligned_witness :
  length (Rows.metadatas (Rows.mkScanned ["a"] [0%N] ["x"] [None] [[]])) = 1.
Proof.
  exact (proj1 (proj2 (proj2 (proj2
    (X20_query_rows_aligned
       (fun _ => (None, Some (ErrorString "invalid character")))
       (fun _ => ([], None))
       [Ok ("a", "x", "oops", "[]", 0%N)]
       (Rows.mkScanned ["a"] [0%N] ["x"] [None] [[]])
       eq_refl))))).
Defined.

(* ================================================================= *)
(** * Further properties of [collectionQuery] *)

Section QueryFacts.
Variable unmarshalMetadata : string -> Metadata * option error.
Variable unmarshalEmbedding : string -> list float32 * option error.
Variable formatFloat32 : float32 -> string.
Variable filterBuilder : FilterBuilder.
Variable conn_Query :
  list Rows.sentQuery -> string -> list value -> result (list (result Rows.queryRow)).
Variable collectionName : string.
Variable nResults : Z.
Variable opts : QueryOptions.t.
Variable distance : string.

(** X21: the calls [collectionQuery] turns down before sending anything.
    Without query embeddings (nil), no query text gives an error that
    [errors.Is] [ErrInvalidParameter]; query texts without an embedding
    function give [ErrEmbeddingFunctionRequired] itself; and an error of
    [Embed] comes back wrapped.  In all three cases nothing is sent. *)
Theorem X21_query_needs_embeddings :
  forall (queryTexts : list string) (embFunc : option EmbeddingFunc),
    QueryOptions.QueryEmbeddings opts = None ->
    (queryTexts = [] ->
     exists e,
       Rows.collectionQuery unmarshalMetadata unmarshalEmbedding formatFloat32
         filterBuilder conn_Query collectionName nResults opts distance
         queryTexts embFunc = ([], Err e)
       /\ errors_Is e ErrInvalidParameter = true)
    /\ (queryTexts <> [] -> embFunc = None ->
        Rows.collectionQuery unmarshalMetadata unmarshalEmbedding formatFloat32
          filterBuilder conn_Query collectionName nResults opts distance
          queryTexts embFunc = ([], Err ErrEmbeddingFunctionRequired))
    /\ (forall Embed err,
          queryTexts <> [] -> embFunc = Some Embed -> Embed queryTexts = Err err ->
          Rows.collectionQuery unmarshalMetadata unmarshalEmbedding formatFloat32
            filterBuilder conn_Query collectionName nResults opts distance
            queryTexts embFunc
          = ([], Err (Wrapped "failed to generate query embeddings" err))).
Proof.
  intros queryTexts embFunc Hq. unfold Rows.collectionQuery, Rows.queryEmbeddings.
  rewrite Hq. split; [|split].
  - intros ->. eexists. split; reflexivity.
  - intros Ht ->. destruct queryTexts; [contradiction|reflexivity].
  - intros Embed err Ht -> He. destruct queryTexts; [contradiction|].
    now rewrite He.
Qed.

(** X22: query embeddings given as an option always win, and an empty list
    of them is a successful empty query.  With [opts.QueryEmbeddings] not
    nil the query texts and the embedding function are not consulted; if it
    is empty, nothing is sent, the result is empty and not even the filters
    are built, so that a filter the builder would reject goes unnoticed. *)
Theorem X22_query_embeddings_win :
  forall (embeddings : list (list float32)) (queryTexts : list string)
         (embFunc : option EmbeddingFunc),
    QueryOptions.QueryEmbeddings opts = Some embeddings ->
    Rows.collectionQuery unmarshalMetadata unmarshalEmbedding formatFloat32
      filterBuilder conn_Query collectionName nResults opts distance
      queryTexts embFunc
    = Rows.collectionQuery unmarshalMetadata unmarshalEmbedding formatFloat32
        filterBuilder conn_Query collectionName nResults opts distance [] None
    /\ (embeddings = [] ->
        Rows.collectionQuery unmarshalMetadata unmarshalEmbedding formatFloat32
          filterBuilder conn_Query collectionName nResults opts distance
          queryTexts embFunc
        = ([], Ok (QueryResult.mk [] [] [] [] []))).
Proof.
  intros embeddings queryTexts embFunc Hq.
  unfold Rows.collectionQuery, Rows.queryEmbeddings. rewrite Hq.
  split; [reflexivity|]. intros ->. reflexivity.
Qed.

(** The statement of one query embedding. *)
Lemma queryOne_ok sent got queryEmb sent' got' :
  Rows.queryOne unmarshalMetadata unmarshalEmbedding formatFloat32 filterBuilder
    conn_Query collectionName nResults opts distance sent got queryEmb
  = (sent', Ok got') ->
  exists conditions args,
    Rows.queryFilters filterBuilder opts = Ok (conditions, args)
    /\ sent' = sent ++ [(Rows.querySQL formatFloat32 distance (GetTableName collectionName)
                           match conditions with
                           | [] => ""
                           | _ => "WHERE " ++ String.concat " AND " conditions
                           end%string queryEmb,
                         args ++ [VInt nResults])]
    /\ length (QueryResult.IDs got') = S (length (QueryResult.IDs got))
    /\ length (QueryResult.Distances got') = S (length (QueryResult.Distances got))
    /\ length (QueryResult.Documents got') = S (length (QueryResult.Documents got))
    /\ length (QueryResult.Metadatas got') = S (length (QueryResult.Metadatas got))
    /\ length (QueryResult.Embeddings got') = S (length (QueryResult.Embeddings got)).
Proof.
  unfold Rows.queryOne.
  destruct (Rows.queryFilters filterBuilder opts) as [[conditions args]|]; [|discriminate].
  destruct (conn_Query _ _ _); [|discriminate].
  destruct (Rows.scanQueryResults _ _ _); [|discriminate].
  intros [= <- <-]. exists conditions, args.
  cbn [QueryResult.IDs QueryResult.Distances QueryResult.Documents QueryResult.Metadatas
       QueryResult.Embeddings].
  rewrite !length_app. cbn [length]. repeat split; lia.
Qed.

Lemma queryLoop_ok embeddings :
  forall sent got sent' got',
    Rows.queryLoop unmarshalMetadata unmarshalEmbedding formatFloat32 filterBuilder
      conn_Query collectionName nResults opts distance embeddings sent got
    = (sent', Ok got') ->
    (forall conditions args,
        Rows.queryFilters filterBuilder opts = Ok (conditions, args) ->
        sent' = sent ++ map (fun queryEmb =>
                  (Rows.querySQL formatFloat32 distance (GetTableName collectionName)
                     match conditions with
                     | [] => ""
                     | _ => "WHERE " ++ String.concat " AND " conditions
                     end%string queryEmb,
                   args ++ [VInt nResults])) embeddings)
    /\ length sent' = length sent + length embeddings
    /\ length (QueryResult.IDs got') = length (QueryResult.IDs got) + length embeddings
    /\ length (QueryResult.Distances got')
       = length (QueryResult.Distances got) + length embeddings
    /\ length (QueryResult.Documents got')
       = length (QueryResult.Documents got) + length embeddings
    /\ length (QueryResult.Metadatas got')
       = length (QueryResult.Metadatas got) + length embeddings
    /\ length (QueryResult.Embeddings got')
       = length (QueryResult.Embeddings got) + length embeddings.
Proof.
  induction embeddings as [|queryEmb rest IH]; intros sent got sent' got' H.
  - injection H as <- <-. cbn [map length]. rewrite app_nil_r.
    repeat split; auto; lia.
  - cbn [Rows.queryLoop] in H.
    destruct (Rows.queryOne _ _ _ _ _ _ _ _ _ _ _ _) as [sent1 [got1|]] eqn:E1;
      [|discriminate].
    apply queryOne_ok in E1.
    destruct E1 as [conditions [args [Hf [Hs [L1 [L2 [L3 [L4 L5]]]]]]]].
    apply IH in H. destruct H as [Hsent [Ls [M1 [M2 [M3 [M4 M5]]]]]].
    split; [|subst sent1; rewrite length_app in Ls; cbn [length] in *;
             repeat split; lia].
    intros conditions' args' Hf'. rewrite Hf in Hf'. injection Hf' as <- <-.
    rewrite (Hsent conditions args Hf), Hs. cbn [map]. now rewrite <- app_assoc.
Qed.

(** X23: a query that succeeds sent one statement per query embedding.
    The statements go out in the order of the embeddings; each carries the
    arguments of the two filters followed by [nResults], the only bound
    values (the vector is written into the text); and each of the five
    lists of the result has one entry per embedding. *)
Theorem X23_one_statement_per_embedding :
  forall (queryTexts : list string) (embFunc : option EmbeddingFunc)
         (sent : list Rows.sentQuery) (got : QueryResult.t),
    Rows.collectionQuery unmarshalMetadata unmarshalEmbedding formatFloat32
      filterBuilder conn_Query collectionName nResults opts distance
      queryTexts embFunc = (sent, Ok got) ->
    exists embeddings,
      Rows.queryEmbeddings queryTexts opts embFunc = Ok embeddings
      /\ (forall conditions args,
            Rows.queryFilters filterBuilder opts = Ok (conditions, args) ->
            sent = map (fun queryEmb =>
                     (Rows.querySQL formatFloat32 distance (GetTableName collectionName)
                        match conditions with
                        | [] => ""
                        | _ => "WHERE " ++ String.concat " AND " conditions
                        end%string queryEmb,
                      args ++ [VInt nResults])) embeddings)
      /\ length sent = length embeddings
      /\ length (QueryResult.IDs got) = length embeddings
      /\ length (QueryResult.Distances got) = length embeddings
      /\ length (QueryResult.Documents got) = length embeddings
      /\ length (QueryResult.Metadatas got) = length embeddings
      /\ length (QueryResult.Embeddings got) = length embeddings.
Proof.
  intros queryTexts embFunc sent got H. unfold Rows.collectionQuery in H.
  destruct (Rows.queryEmbeddings queryTexts opts embFunc) as [embeddings|];
    [|discriminate].
  exists embeddings. split; [reflexivity|].
  apply queryLoop_ok in H. exact H.
Qed.

End QueryFacts.

(** X21 at a call with neither texts nor embeddings. *)
Lemma X21_query_needs_embeddings_witness :
  exists e,
    Rows.collectionQuery (fun _ => (None, None)) (fun _ => ([], None)) (fun _ => "0")
      Parser.specFilterBuilder (fun _ _ _ => Ok []) "docs" 3
      (QueryOptions.mk None None None []) "cosine" [] None = ([], Err e)
    /\ errors_Is e ErrInvalidParameter = true.
Proof.
  exact (proj1 (X21_query_needs_embeddings
                  (fun _ => (None, None)) (fun _ => ([], None)) (fun _ => "0")
                  Parser.specFilterBuilder (fun _ _ _ => Ok []) "docs" 3%Z
                  (QueryOptions.mk None None None []) "cosine" [] None eq_refl)
           eq_refl).
Defined.

(** X22 at an empty, non-nil list of query embeddings and a filter the
    builder rejects. *)
Lemma X22_query_embeddings_win_witness :
  Rows.collectionQuery (fun _ => (None, None)) (fun _ => ([], None)) (fun _ => "0")
    Parser.specFilterBuilder (fun _ _ _ => Ok []) "docs" 3
    (QueryOptions.mk (Some []) (Some [("tag", VMap [("$like", VStr "m")])]) None [])
    "cosine" ["x"] None
  = ([], Ok (QueryResult.mk [] [] [] [] [])).
Proof.
  exact (proj2 (X22_query_embeddings_win
                  (fun _ => (None, None)) (fun _ => ([], None)) (fun _ => "0")
                  Parser.specFilterBuilder (fun _ _ _ => Ok []) "docs" 3%Z
                  (QueryOptions.mk (Some [])
                     (Some [("tag", VMap [("$like", VStr "m")])]) None [])
                  "cosine" [] ["x"] None eq_refl) eq_refl).
Defined.

(** X23 at one query embedding against a server without rows. *)
Lemma X23_one_statement_per_embedding_witness :
  exists embeddings : list (list float32),
    length [(Rows.querySQL (fun _ => "0") "cosine" "c$v1$docs" "" [1%N], [VInt 3])]
    = length embeddings.
Proof.
  destruct (X23_one_statement_per_embedding
              (fun _ => (None, None)) (fun _ => ([], None)) (fun _ => "0")
              Parser.specFilterBuilder (fun _ _ _ => Ok []) "docs" 3%Z
              (QueryOptions.mk (Some [[1%N]]) None None []) "cosine" [] None
              [(Rows.querySQL (fun _ => "0") "cosine" "c$v1$docs" "" [1%N], [VInt 3])]
              (QueryResult.mk [[]] [[]] [[]] [[]] [[]]) eq_refl)
    as [embeddings [_ [_ [H _]]]].
  exists embeddings. exact H.
Defined.

(* ================================================================= *)
(** * Further properties of [transformHybridSearchResults] *)

Section TransformFacts.
Variable strings_ToLower : string -> string.
Variable fmt_v : Transform.cell -> string.
Variable float64_of_float32 : float32 -> float64.
Variable float64_of_int : Z -> float64.
Variable sscanf_f : string -> float64.
Variable unmarshalMetadata : string -> option gomap * option error.
Variable unmarshalEmbedding : string -> list float32 * option error.



Lemma lookupCol_setCol_same name idx m :
  Transform.lookupCol name (Transform.setCol name idx m) = Some idx.
Proof.
  induction m as [|[n i] m IH]; cbn [Transform.setCol Transform.lookupCol].
  - now rewrite String.eqb_refl.
  - destruct (name =? n) eqn:E; cbn [Transform.lookupCol]; rewrite E; auto.
Qed.

Lemma lookupCol_setCol_other name name' idx m :
  name <> name' ->
  Transform.lookupCol name (Transform.setCol name' idx m) = Transform.lookupCol name m.
Proof.
  intros Hne. induction m as [|[n i] m IH]; cbn [Transform.setCol Transform.lookupCol].
  - destruct (name =? name') eqn:E; auto. apply String.eqb_eq in E. contradiction.
  - destruct (name' =? n) eqn:E'; cbn [Transform.lookupCol].
    + apply String.eqb_eq in E'. subst n.
      destruct (name =? name') eqn:E; auto. apply String.eqb_eq in E. contradiction.
    + destruct (name =? n); auto.
Qed.

Lemma buildColMap_snoc cols col :
  forall i m,
    Transform.buildColMap strings_ToLower (cols ++ [col]) i m
    = Transform.setCol (strings_ToLower col) (i + length cols)
        (Transform.buildColMap strings_ToLower cols i m).
Proof.
  induction cols as [|c cols IH]; intros i m; cbn [app Transform.buildColMap length].
  - now rewrite Nat.add_0_r.
  - rewrite IH. f_equal. lia.
Qed.

(** X25: how result columns are found.  A column is looked up by its
    lower-cased name; [colMap] has an entry for a name exactly when some
    column lower-cases to it, and when several do, the entry is the last of
    them. *)
Theorem X25_column_lookup :
  forall (cols : list string) (name : string),
    (Transform.lookupCol name (Transform.buildColMap strings_ToLower cols 0 []) = None
     <-> forall col, In col cols -> strings_ToLower col <> name)
    /\ (forall idx,
          Transform.lookupCol name (Transform.buildColMap strings_ToLower cols 0 [])
          = Some idx ->
          idx < length cols
          /\ strings_ToLower (nth idx cols "") = name
          /\ forall later, idx < later < length cols ->
                           strings_ToLower (nth later cols "") <> name).
Proof.
  intros cols name. induction cols as [|col cols IH] using rev_ind.
  - split; [split; [intros _ col []|reflexivity]|discriminate].
  - destruct IH as [IHnone IHsome].
    rewrite buildColMap_snoc. cbn [plus].
    destruct (String.eqb_spec name (strings_ToLower col)) as [->|Hne].
    + rewrite lookupCol_setCol_same. split.
      * split; [discriminate|]. intros H. exfalso.
        apply (H col); [apply in_or_app; right; now left|reflexivity].
      * intros idx [= <-]. rewrite length_app. cbn [length]. split; [lia|].
        split; [now rewrite nth_middle|]. intros later Hl. lia.
    + rewrite lookupCol_setCol_other by assumption. split.
      * rewrite IHnone. split.
        -- intros H c Hin. apply in_app_or in Hin. destruct Hin as [Hin|[<-|[]]];
             [now apply H|congruence].
        -- intros H c Hin. apply H. apply in_or_app. now left.
      * intros idx Hidx. destruct (IHsome idx Hidx) as [Hlt [Hn Hlater]].
        rewrite length_app. cbn [length]. split; [lia|].
        split; [now rewrite app_nth1|].
        intros later Hl. destruct (Nat.eq_dec later (length cols)) as [->|Hd].
        -- rewrite nth_middle. congruence.
        -- rewrite app_nth1 by lia. apply Hlater. lia.
Qed.

End TransformFacts.


(** X25 on the columns [ID, _id, id]: the last [id] is the one found. *)
Lemma X25_column_lookup_witness :
  2 < length ["ID"; "_id"; "id"].
Proof.
  exact (proj1 (proj2 (X25_column_lookup
                         (fun s => if s =? "ID" then "id" else s)
                         ["ID"; "_id"; "id"] "id") 2 eq_refl)).
Defined.

(* ================================================================= *)
(** * Further properties of the statement of [Get] *)

Lemma placeholders_concat sep (l : list string) :
  SQL.placeholders sep = 0 ->
  SQL.placeholders (String.concat sep l) = list_sum (map SQL.placeholders l).
Proof.
  intros Hsep.
  induction l as [|s l IH]; [reflexivity|].
  destruct l as [|t l].
  - cbn [String.concat map list_sum fold_right]. now rewrite Nat.add_0_r.
  - change (String.concat sep (s :: t :: l))
      with (s ++ sep ++ String.concat sep (t :: l))%string.
    change (list_sum (map SQL.placeholders (s :: t :: l)))
      with (SQL.placeholders s + list_sum (map SQL.placeholders (t :: l))).
    rewrite <- IH. unfold SQL.placeholders in *.
    rewrite !count_char_append, Hsep. reflexivity.
Qed.

Lemma idFilter_balanced ids :
  list_sum (map SQL.placeholders (fst (Get.idFilter ids)))
  = length (snd (Get.idFilter ids)).
Proof.
  destruct ids as [|i ids]; [reflexivity|].
  cbn [Get.idFilter fst snd map list_sum fold_right].
  pose proof (@placeholders_list string (i :: ids)) as H.
  rewrite Nat.add_0_r. unfold SQL.placeholders in *.
  rewrite !count_char_append.
  change ("?"%string :: map (fun _ : string => "?"%string) ids)
    with (map (fun _ : string => "?"%string) (i :: ids)).
  rewrite H. cbn [length]. rewrite length_map. cbn. lia.
Qed.

Lemma addFilter_balanced build filter acc acc' :
  (forall f cl a, build f = Ok (cl, a) -> SQL.placeholders cl = length a) ->
  list_sum (map SQL.placeholders (fst acc)) = length (snd acc) ->
  Get.addFilter build filter acc = Ok acc' ->
  list_sum (map SQL.placeholders (fst acc')) = length (snd acc').
Proof.
  intros Hb Hacc. unfold Get.addFilter. destruct filter as [m|]; [|now intros [= <-]].
  destruct (build (Some m)) as [[cl a]|] eqn:E; cbn [bind]; [|discriminate].
  destruct (cl =? ""); intros [= <-]; [exact Hacc|].
  cbn [fst snd]. rewrite map_app, list_sum_app, length_app, Hacc.
  cbn [map list_sum fold_right]. rewrite (Hb _ _ _ E). lia.
Qed.

(** X26: placeholders and arguments of the whole statement.  If the filter
    builder returns, with every clause, as many arguments as the clause has
    [?], and the collection name holds no [?], then the statement
    [collectionGet] hands to the connection has exactly as many [?] as
    arguments: the ids, the two filters, the limit and the offset. *)
Theorem X26_get_statement_balanced :
  forall fb name ids opts st,
    (forall f cl a, BuildMetadataFilter fb f = Ok (cl, a) ->
                    SQL.placeholders cl = length a) ->
    (forall f cl a, BuildDocumentFilter fb f = Ok (cl, a) ->
                    SQL.placeholders cl = length a) ->
    SQL.placeholders name = 0 ->
    Get.collectionGet fb name ids opts = Ok st ->
    SQL.placeholders (Get.querySQL st) = length (Get.queryArgs st).
Proof.
  intros fb name ids opts st Hm Hd Hname H. unfold Get.collectionGet in H.
  destruct (Get.addFilter (BuildMetadataFilter fb) _ _) as [acc1|] eqn:E1;
    cbn [bind] in H; [|discriminate].
  destruct (Get.addFilter (BuildDocumentFilter fb) _ acc1) as [[conds args]|] eqn:E2;
    cbn [bind] in H; [|discriminate].
  pose proof (addFilter_balanced _ _ _ _ Hm (idFilter_balanced ids) E1) as B1.
  pose proof (addFilter_balanced _ _ _ _ Hd B1 E2) as B2. cbn [fst snd] in B2.
  pose proof (f_equal (fun r => match r with Ok s => s | Err _ => st end) H) as Hst.
  cbv beta iota zeta in Hst. subst st. clear H.
  cbn [Get.querySQL Get.queryArgs].
  rewrite length_app. cbn [length]. rewrite <- B2. clear - Hname.
  assert (Hw : SQL.placeholders match conds with
                                | [] => ""
                                | _ :: _ => "WHERE " ++ String.concat " AND " conds
                                end%string
               = list_sum (map SQL.placeholders conds)).
  { destruct conds as [|c conds]; [reflexivity|].
    rewrite <- (placeholders_concat " AND " (c :: conds)) by reflexivity.
    unfold SQL.placeholders. now rewrite count_char_append. }
  unfold SQL.placeholders in *. unfold GetTableName.
  rewrite !count_char_append, Hw, Hname. cbn. lia.
Qed.

(** X26 with a builder whose clauses are [tag = ?] with one argument. *)
Lemma X26_get_statement_balanced_witness :
  exists st,
    Get.collectionGet
      (mkFilterBuilder (fun _ => Ok ("tag = ?", [VStr "ml"]))
                       (fun _ => Ok ("document LIKE ?", [VStr "%x%"])))
      "docs" ["a"; "b"] (GetOptions.mk (Some []) (Some []) 0 0 []) = Ok st
    /\ SQL.placeholders (Get.querySQL st) = length (Get.queryArgs st).
Proof.
  eexists. split; [reflexivity|].
  apply (X26_get_statement_balanced
           (mkFilterBuilder (fun _ => Ok ("tag = ?", [VStr "ml"]))
                            (fun _ => Ok ("document LIKE ?", [VStr "%x%"])))
           "docs" ["a"; "b"] (GetOptions.mk (Some []) (Some []) 0 0 [])).
  - intros f cl a [= <- <-]. reflexivity.
  - intros f cl a [= <- <-]. reflexivity.
  - reflexivity.
  - reflexivity.
Defined.

Lemma DistanceFuncName_default (d : string) :
  d <> "cosine"%string -> d <> "inner_product"%string ->
  DistanceFuncName d = DistanceFuncName "l2".
Proof.
  intros Hc Hi. unfold DistanceFuncName.
  destruct (String.eqb_spec d "l2"); [reflexivity|].
  destruct (String.eqb_spec d "cosine"); [contradiction|].
  destruct (String.eqb_spec d "inner_product"); [contradiction|reflexivity].
Qed.

Lemma DistanceFuncName_known (d : string) :
  In (DistanceFuncName d) ["l2_distance"; "cosine_distance"; "inner_product"]%string.
Proof.
  unfold DistanceFuncName.
  destruct (d =? "l2")%string; [simpl; tauto|].
  destruct (d =? "cosine")%string; [simpl; tauto|].
  destruct (d =? "inner_product")%string; simpl; tauto.
Qed.

(** X27: a metric the code does not know is silently the L2 metric.  The
    function name written into a statement is always one of [l2_distance],
    [cosine_distance] and [inner_product], never the caller's text; and with
    any metric other than [cosine] and [inner_product], [collectionQuery]
    sends the statements and returns the value it does for [l2]. *)
Theorem X27_unknown_metric_queries_as_l2 :
  forall (unmarshalMetadata : string -> Metadata * option error)
         (unmarshalEmbedding : string -> list float32 * option error)
         (formatFloat32 : float32 -> string) (filterBuilder : FilterBuilder)
         (conn_Query : list Rows.sentQuery -> string -> list value
                       -> result (list (result Rows.queryRow)))
         (collectionName : string) (nResults : Z) (opts : QueryOptions.t)
         (distance : string) (queryTexts : list string)
         (embFunc : option EmbeddingFunc),
    In (DistanceFuncName distance)
       ["l2_distance"; "cosine_distance"; "inner_product"]%string
    /\ (distance <> "cosine"%string -> distance <> "inner_product"%string ->
        Rows.collectionQuery unmarshalMetadata unmarshalEmbedding formatFloat32
          filterBuilder conn_Query collectionName nResults opts distance
          queryTexts embFunc
        = Rows.collectionQuery unmarshalMetadata unmarshalEmbedding formatFloat32
            filterBuilder conn_Query collectionName nResults opts "l2"
            queryTexts embFunc).
Proof.
  intros um ue ff fb cq name n opts d qt ef.
  split; [apply DistanceFuncName_known|]. intros Hc Hi.
  assert (Hsql : forall t w e, Rows.querySQL ff d t w e = Rows.querySQL ff "l2" t w e).
  { intros t w e. unfold Rows.querySQL.
    now rewrite (DistanceFuncName_default d Hc Hi). }
  assert (Hone : forall sent got e,
             Rows.queryOne um ue ff fb cq name n opts d sent got e
             = Rows.queryOne um ue ff fb cq name n opts "l2" sent got e).
  { intros sent got e. unfold Rows.queryOne.
    destruct (Rows.queryFilters fb opts) as [[conds args]|]; [|reflexivity].
    now rewrite Hsql. }
  unfold Rows.collectionQuery.
  destruct (Rows.queryEmbeddings qt opts ef) as [embs|]; [|reflexivity].
  generalize (@nil Rows.sentQuery) (QueryResult.mk [] [] [] [] []).
  induction embs as [|e embs IH]; intros sent got; [reflexivity|].
  cbn [Rows.queryLoop]. rewrite Hone.
  destruct (Rows.queryOne um ue ff fb cq name n opts "l2" sent got e) as [sent' [got'|err]];
    [apply IH|reflexivity].
Qed.

(** X27 at the metric [euclid] and one query embedding. *)
Lemma X27_unknown_metric_queries_as_l2_witness :
  Rows.collectionQuery (fun _ => (None, None)) (fun _ => ([], None)) (fun _ => "0")
    Parser.specFilterBuilder (fun _ _ _ => Ok []) "docs" 3
    (QueryOptions.mk (Some [[1%N]]) None None []) "euclid" [] None
  = Rows.collectionQuery (fun _ => (None, None)) (fun _ => ([], None)) (fun _ => "0")
      Parser.specFilterBuilder (fun _ _ _ => Ok []) "docs" 3
      (QueryOptions.mk (Some [[1%N]]) None None []) "l2" [] None.
Proof.
  apply (proj2 (X27_unknown_metric_queries_as_l2
                  (fun _ => (None, None)) (fun _ => ([], None)) (fun _ => "0")
                  Parser.specFilterBuilder (fun _ _ _ => Ok []) "docs" 3%Z
                  (QueryOptions.mk (Some [[1%N]]) None None []) "euclid" [] None));
    discriminate.
Defined.

(* ================================================================= *)
(** * Further properties of [Collection.Get] *)

Lemma Get_options_app fb name ids (opts more : list GetOption) :
  Get.Get fb name ids (opts ++ more)
  = Get.collectionGet fb name ids
      (fold_left (fun options opt => opt options) more
         (fold_left (fun options opt => opt options) opts GetOptions.zero)).
Proof. unfold Get.Get. now rewrite fold_left_app. Qed.

Lemma collectionGet_args fb name ids opts st :
  Get.collectionGet fb name ids opts = Ok st ->
  exists args,
    Get.queryArgs st
    = args ++ [VInt (Get.effectiveLimit opts); VInt (GetOptions.Offset opts)].
Proof.
  unfold Get.collectionGet.
  destruct (Get.addFilter (BuildMetadataFilter fb) _ _) as [acc1|];
    cbn [bind]; [|discriminate].
  destruct (Get.addFilter (BuildDocumentFilter fb) _ acc1) as [[conds args]|];
    cbn [bind]; [|discriminate].
  intros H.
  pose proof (f_equal (fun r => match r with Ok s => s | Err _ => st end) H) as Hst.
  cbv beta iota zeta in Hst. subst st. now exists args.
Qed.

(** X28: the options of [Get] are applied in the order given and not
    checked.  A later [WithLimit] replaces an earlier one, [WithLimit] and
    [WithOffset] may be given in either order, and when [Get] reaches the
    connection the last two arguments of its statement are the limit and
    the offset as given: only the limit 0 is replaced, by 1000, so that a
    negative limit or offset is sent as it is. *)
Theorem X28_get_options_in_order :
  forall fb name ids (opts : list GetOption) (m n k : Z),
    Get.Get fb name ids (opts ++ [WithLimit m; WithLimit n])
    = Get.Get fb name ids (opts ++ [WithLimit n])
    /\ Get.Get fb name ids (opts ++ [WithLimit n; WithOffset k])
       = Get.Get fb name ids (opts ++ [WithOffset k; WithLimit n])
    /\ (forall st,
          Get.Get fb name ids (opts ++ [WithLimit n; WithOffset k]) = Ok st ->
          exists args,
            Get.queryArgs st
            = args ++ [VInt (if (n =? 0)%Z then 1000%Z else n); VInt k]).
Proof.
  intros fb name ids opts m n k. rewrite !Get_options_app.
  cbn [fold_left]. split; [reflexivity|]. split; [reflexivity|].
  intros st H. apply collectionGet_args in H. destruct H as [args H].
  exists args. exact H.
Qed.

(** X28 at a negative limit after [WithGetWhere] with no filter. *)
Lemma X28_get_options_in_order_witness :
  exists st args,
    Get.Get Parser.specFilterBuilder "docs" ["a"]
      ([WithGetWhere None] ++ [WithLimit (-1); WithOffset (-2)]) = Ok st
    /\ Get.queryArgs st = args ++ [VInt (-1); VInt (-2)].
Proof.
  eexists.
  destruct (proj2 (proj2 (X28_get_options_in_order Parser.specFilterBuilder "docs"
                            ["a"] [WithGetWhere None] 5 (-1) (-2))) _ eq_refl)
    as [args H].
  exists args. split; [reflexivity|exact H].
Defined.

(* ================================================================= *)
(** * Further properties of the ids of [Get] *)

(** X29: the ids of a [Get] come first, in the text and in the arguments.
    [collectionGet] sends its statement unless the builder fails on a filter
    that is not nil; for every non-empty id list, whatever the filter
    builder, the statement reads [WHERE _id IN (?, ..., ?)] with one [?] per
    id, further conditions following behind [AND]; its arguments
    are the ids in the order given, then the arguments of the metadata
    filter, then those of the document filter, then limit and offset. *)
Theorem X29_get_ids_first :
  forall fb name (ids : list string) opts,
    ids <> [] ->
    ((GetOptions.Where opts = None
      \/ exists built, BuildMetadataFilter fb (GetOptions.Where opts) = Ok built) ->
     (GetOptions.WhereDocument opts = None
      \/ exists built,
           BuildDocumentFilter fb (GetOptions.WhereDocument opts) = Ok built) ->
     exists st, Get.collectionGet fb name ids opts = Ok st)
    /\ forall st,
         Get.collectionGet fb name ids opts = Ok st ->
         exists more whereArgs docArgs,
           Get.querySQL st
           = (Get.nl ++ Get.tab ++ Get.tab
              ++ "SELECT _id, document, metadata, embedding"
              ++ Get.nl ++ Get.tab ++ Get.tab ++ "FROM " ++ GetTableName name
              ++ Get.nl ++ Get.tab ++ Get.tab
              ++ "WHERE _id IN ("
              ++ String.concat ", " (map (fun _ : string => "?") ids) ++ ")"
              ++ String.concat "" (map (fun c => " AND " ++ c) more)
              ++ Get.nl ++ Get.tab ++ Get.tab ++ "LIMIT ? OFFSET ?"
              ++ Get.nl ++ Get.tab)%string
           /\ Get.conditions st
              = ("_id IN (" ++ String.concat ", " (map (fun _ : string => "?") ids)
                   ++ ")")%string :: more
           /\ SQL.placeholders
                ("_id IN (" ++ String.concat ", " (map (fun _ : string => "?") ids)
                   ++ ")")
              = length ids
           /\ Get.queryArgs st
              = map VStr ids ++ whereArgs ++ docArgs
                  ++ [VInt (Get.effectiveLimit opts); VInt (GetOptions.Offset opts)]
           /\ (whereArgs = []
               \/ exists cl, BuildMetadataFilter fb (GetOptions.Where opts)
                             = Ok (cl, whereArgs))
           /\ (docArgs = []
               \/ exists cl, BuildDocumentFilter fb (GetOptions.WhereDocument opts)
                             = Ok (cl, docArgs)).
Proof.
  intros fb name ids opts Hids. split.
  - apply collectionGet_total.
  - intros st. now apply get_ids_statement.
Qed.

(** X29 at two ids and a metadata filter the builder compiles to one
    clause. *)
Lemma X29_get_ids_first_witness :
  exists st,
    Get.collectionGet
      (mkFilterBuilder (fun _ => Ok ("tag = ?", [VStr "ml"])) (fun _ => Ok ("", [])))
      "docs" ["a"; "b"] (GetOptions.mk (Some []) None 0 0 []) = Ok st
    /\ exists more whereArgs docArgs,
         Get.conditions st = "_id IN (?, ?)"%string :: more
         /\ Get.queryArgs st
            = [VStr "a"; VStr "b"] ++ whereArgs ++ docArgs ++ [VInt 1000; VInt 0].
Proof.
  eexists. split; [reflexivity|].
  destruct (proj2 (X29_get_ids_first
                     (mkFilterBuilder (fun _ => Ok ("tag = ?", [VStr "ml"]))
                                      (fun _ => Ok ("", [])))
                     "docs" ["a"; "b"] (GetOptions.mk (Some []) None 0 0 [])
                     ltac:(discriminate)) _ eq_refl)
    as [more [whereArgs [docArgs [_ [Hc [_ [Ha _]]]]]]].
  exists more, whereArgs, docArgs. split; [exact Hc|exact Ha].
Defined.
